(** * SINR localisation xApps: window aggregation, neighbour ranking, burst clock

    Shallow embedding of the measurement-processing core of
    [ue_localzation/ue_localization_MA.c] (adaptive five-second windows) and of
    [ue_localzation/ue_localization_MA_v2.c] (per-burst sequence numbers), and
    the properties of it that the specification states.

    Conventions.
    - [uint16_t] and [uint64_t] values are [Z], with the reduction modulo
      2^16 / 2^64 written where the C code converts or wraps.
    - [double] is the kernel's binary64 [float]; [isnan] is [PrimFloat.is_nan].
    - A C array with a separate element count ([buffer]/[count],
      [neighbors]/[num_neighbors], [ue_windows]/[active_ue_count], ...)
      is the list of its live elements; the count is the length of the list.
      A store through such a count beyond the declared extent of the array
      is the outcome [OutOfBounds].
    - The two arrays of the burst clock are indexed by the UE id and are
      lists of their declared length; what is done beyond the extent is said
      at their declaration.
    - [assert] that fails is the outcome [AssertFail].
    - Output (the CSV lines handed to file and socket, the console lines) is
      a list of events kept in the state, oldest first. *)

From Stdlib Require Import ZArith List Floats String Lia Permutation Sorted Bool.
From stdpp Require Import base list.
Import ListNotations.
Local Open Scope Z_scope.

(** ** Machine integers and doubles *)

Definition UINT16_MAX : Z := 65535.

Definition to_uint16 (z : Z) : Z := z mod 65536.

Definition to_uint64 (z : Z) : Z := z mod 2 ^ 64.

Definition isnan (d : float) : bool := PrimFloat.is_nan d.

(** Conversion of an unsigned count to [double]. *)
Definition double_of_Z (z : Z) : float := PrimFloat.of_uint63 (Uint63.of_Z z).

(** ** Outcomes of a call *)

Inductive outcome (A : Type) : Type :=
| Ok (a : A)
| AssertFail
| OutOfBounds.

Arguments Ok {A} a.
Arguments AssertFail {A}.
Arguments OutOfBounds {A}.

Global Instance outcome_bind : MBind outcome := fun A B k o =>
  match o with
  | Ok a => k a
  | AssertFail => AssertFail
  | OutOfBounds => OutOfBounds
  end.

(** ** Decoded indication messages (FlexRIC KPM service model types) *)

Inductive meas_record_lst_t : Type :=
| INTEGER_MEAS_VALUE (int_val : Z)
| REAL_MEAS_VALUE (real_val : float)
| NO_VALUE_MEAS_VALUE.

Inductive meas_type_t : Type :=
| NAME_MEAS_TYPE (name : string)
| ID_MEAS_TYPE (id : Z).

(** [meas_data_lst_t]: [meas_record_lst] with [meas_record_len] its length. *)
Definition meas_data_lst_t : Type := list meas_record_lst_t.

Record kpm_ind_msg_format_1_t : Type := {
  meas_info_lst : list meas_type_t;
  meas_data_lst : list meas_data_lst_t
}.

Record InfoObj : Type := { info_cellID : Z; info_ueID : Z }.

(** [strncmp(meas_name, name, strlen(name)) == 0] *)
Definition isMeasNameContains (meas_name name : string) : bool :=
  String.prefix name meas_name.

(** ** Names of measurements (identical in both files) *)

Section Decoding.

(** [sscanf msg format] with a format of two [%hd] conversions: the two
    values stored when both conversions succeed (the call returns 2), in the
    order of the format. *)
Variable sscanf : string -> string -> option (Z * Z).

Definition parseServingMsg (msg : string) : InfoObj :=
  match sscanf msg "L3servingSINR3gpp_cell_%hd_UEID_%hd" with
  | Some (c, u) => {| info_cellID := c; info_ueID := u |}
  | None => {| info_cellID := to_uint16 (-1); info_ueID := to_uint16 (-1) |}
  end.

Definition parseNeighMsg (msg : string) : InfoObj :=
  match sscanf msg "L3neighSINRListOf_UEID_%hd_of_Cell_%hd" with
  | Some (u, c) => {| info_cellID := c; info_ueID := u |}
  | None => {| info_cellID := to_uint16 (-1); info_ueID := to_uint16 (-1) |}
  end.

(** The serving measurement an item of the indication yields, when the first
    loop of [log_kpm_measurements] accepts it: parsed identifiers and SINR. *)
Definition serving_sample (item : meas_type_t * meas_data_lst_t)
  : option (InfoObj * float) :=
  match item with
  | (NAME_MEAS_TYPE name, data_item) =>
      if isMeasNameContains name "L3servingSINR3gpp_cell_" then
        let info := parseServingMsg name in
        if negb (info_cellID info =? UINT16_MAX) && negb (info_ueID info =? UINT16_MAX)
           && (0 <? length data_item)%nat then
          match data_item with
          | REAL_MEAS_VALUE real_val :: _ => Some (info, real_val)
          | INTEGER_MEAS_VALUE int_val :: _ => Some (info, double_of_Z int_val)
          | _ => None
          end
        else None
      else None
  | (ID_MEAS_TYPE _, _) => None
  end.

(** The neighbour list an item yields, when the second loop accepts it. *)
Definition neighbor_list (item : meas_type_t * meas_data_lst_t)
  : option (InfoObj * meas_data_lst_t) :=
  match item with
  | (NAME_MEAS_TYPE name, data_item) =>
      if isMeasNameContains name "L3neighSINRListOf_UEID_" then
        let info := parseNeighMsg name in
        if negb (info_cellID info =? UINT16_MAX) && negb (info_ueID info =? UINT16_MAX)
        then Some (info, data_item)
        else None
      else None
  | (ID_MEAS_TYPE _, _) => None
  end.

End Decoding.

(** ** libc *)

Module Libc.

(** [qsort] is the C library's and not part of the sources. The standard
    fixes its result only for a comparison function that orders the
    elements consistently, and then only up to the order of elements that
    compare equal. The model is an insertion sort driven by the comparison
    function, which keeps such elements in their original order. Where the
    comparison is inconsistent ([compare_neighbors_by_sinr] answers 0 for a
    NaN against any value) the library's result is not determined by the
    sources and need not be the model's: the statements that depend on the
    order of the sorted elements assume metrics that are comparable. *)
Fixpoint insert {A : Type} (cmp : A -> A -> Z) (a : A) (l : list A) : list A :=
  match l with
  | [] => [a]
  | b :: l' => if cmp a b <=? 0 then a :: b :: l' else b :: insert cmp a l'
  end.

Definition qsort {A : Type} (cmp : A -> A -> Z) (l : list A) : list A :=
  fold_right (insert cmp) [] l.

End Libc.

(** ** ue_localization_MA.c: adaptive windows closed after 5000 ms or on a
       change of serving cell *)

Module MA.

Definition MAX_UE_COUNT : nat := 100.

Record cell_position_t : Type := { cellID : Z; x : float; y : float }.

Definition cell_positions : list cell_position_t :=
  [ {| cellID := 2; x := 800.0; y := 800.0 |};
    {| cellID := 3; x := 1200.0; y := 800.0 |};
    {| cellID := 4; x := 1000.0; y := 1146.0 |};
    {| cellID := 5; x := 600.0; y := 1146.0 |};
    {| cellID := 6; x := 400.0; y := 800.0 |};
    {| cellID := 7; x := 600.0; y := 453.0 |};
    {| cellID := 8; x := 1000.0; y := 453.0 |} ]%float.

Definition get_cell_position (id : Z) : option cell_position_t :=
  List.find (fun c => cellID c =? id) cell_positions.

Record measurement_point_t : Type := {
  timestamp : Z;
  ueID : Z;
  servingCellID : Z;
  servingSINR : float;
  neighborSINR : list float;      (* double neighborSINR[3] *)
  servingCellX : float;
  servingCellY : float
}.

(** [buffer] holds [buffer[0 .. count)]; the array has 200 slots. *)
Record ue_adaptive_window_t : Type := {
  ue_id : Z;
  current_serving_cell : Z;
  window_start_time : Z;
  window_active : bool;
  buffer : list measurement_point_t
}.

Definition BUFFER_SLOTS : nat := 200.

Definition count (w : ue_adaptive_window_t) : nat := length (buffer w).

Record neighbor_t : Type := { neighCellID : Z; neighSINR : float }.

(** [neighbors] holds [neighbors[0 .. num_neighbors)]; the array has 10 slots. *)
Record sinr_measurement_t : Type := {
  m_timestamp : Z;
  m_ueID : Z;
  m_servingCellID : Z;
  m_servingSINR : float;
  servingPos : option cell_position_t;
  neighbors : list neighbor_t
}.

Definition num_neighbors (m : sinr_measurement_t) : nat := length (neighbors m).

(** The values printed into one CSV line by [send_window_batch_to_python]. *)
Record batch_line : Type := {
  avg_timestamp : Z;
  line_ue_id : Z;
  line_serving_cell : Z;
  avg_serving_sinr : float;
  avg_neighbor_sinr : list float;
  line_x : float;
  line_y : float
}.

(** The file-scope state: [ue_windows] with [active_ue_count] its length,
    [measurements] with [num_measurements] its length, and the lines handed
    to [log_both] so far. *)
Record state : Type := {
  ue_windows : list ue_adaptive_window_t;
  measurements : list sinr_measurement_t;
  emitted : list batch_line
}.

Definition initial_state : state :=
  {| ue_windows := []; measurements := []; emitted := [] |}.

Definition find_ue_window (ws : list ue_adaptive_window_t) (id : Z)
  : option (nat * ue_adaptive_window_t) :=
  list_find (fun w => ue_id w = id) ws.

(** [memset(window, 0, ...)] followed by [window->ue_id = ue_id]. *)
Definition fresh_window (id : Z) : ue_adaptive_window_t :=
  {| ue_id := id; current_serving_cell := 0; window_start_time := 0;
     window_active := false; buffer := [] |}.

(** [None]: the table is full, the entity is ignored with a warning. *)
Definition create_ue_window (ws : list ue_adaptive_window_t) (id : Z)
  : option (list ue_adaptive_window_t * nat * ue_adaptive_window_t) :=
  if (MAX_UE_COUNT <=? length ws)%nat then None
  else Some (ws ++ [fresh_window id], length ws, fresh_window id).

(** The running sum of a column of the buffer, from 0, in buffer order. *)
Definition sum_double (ds : list float) : float :=
  fold_left PrimFloat.add ds 0%float.

Definition send_window_batch_to_python (w : ue_adaptive_window_t) : list batch_line :=
  match last (buffer w) with
  | None => []                                   (* count == 0 *)
  | Some last_point =>
      let n := Z.of_nat (count w) in
      [ {| avg_timestamp :=
             fold_left (fun acc p => to_uint64 (acc + timestamp p)) (buffer w) 0 / n;
           line_ue_id := ue_id w;
           line_serving_cell := current_serving_cell w;
           avg_serving_sinr :=
             (sum_double (map servingSINR (buffer w)) / double_of_Z n)%float;
           avg_neighbor_sinr :=
             map (fun j =>
                    (sum_double (map (fun p => nth j (neighborSINR p) 0%float) (buffer w))
                     / double_of_Z n)%float)
                 (seq 0 3);
           line_x := servingCellX last_point;
           line_y := servingCellY last_point |} ]
  end.

Definition reset_window (w : ue_adaptive_window_t) (new_start_time : Z)
  : ue_adaptive_window_t :=
  {| ue_id := ue_id w; current_serving_cell := 0;
     window_start_time := new_start_time; window_active := false;
     buffer := [] |}.

(** [window->buffer[window->count++] = *point] *)
Definition push_point (w : ue_adaptive_window_t) (point : measurement_point_t)
  : outcome ue_adaptive_window_t :=
  if (BUFFER_SLOTS <=? count w)%nat then OutOfBounds
  else Ok {| ue_id := ue_id w; current_serving_cell := current_serving_cell w;
             window_start_time := window_start_time w;
             window_active := window_active w;
             buffer := buffer w ++ [point] |}.

(** The body of [add_to_adaptive_window] once the window is at hand: the
    window afterwards and the lines sent. *)
Definition add_to_window (w : ue_adaptive_window_t) (point : measurement_point_t)
  : outcome (ue_adaptive_window_t * list batch_line) :=
  if (count w =? 0)%nat || (current_serving_cell w =? servingCellID point) then
    let w1 :=
      if (count w =? 0)%nat then
        {| ue_id := ue_id w; current_serving_cell := servingCellID point;
           window_start_time := timestamp point; window_active := true;
           buffer := buffer w |}
      else w in
    w2 ← push_point w1 point;
    if 5000 <=? to_uint64 (timestamp point - window_start_time w2) then
      Ok (reset_window w2 (timestamp point), send_window_batch_to_python w2)
    else Ok (w2, [])
  else
    let sent := if (0 <? count w)%nat then send_window_batch_to_python w else [] in
    let w1 := reset_window w (timestamp point) in
    let w2 :=
      {| ue_id := ue_id w1; current_serving_cell := servingCellID point;
         window_start_time := window_start_time w1; window_active := true;
         buffer := buffer w1 |} in
    w3 ← push_point w2 point;
    Ok (w3, sent).

Definition add_to_adaptive_window (st : state) (point : measurement_point_t)
  : outcome state :=
  let located :=
    match find_ue_window (ue_windows st) (ueID point) with
    | Some (i, w) => Some (ue_windows st, i, w)
    | None => create_ue_window (ue_windows st) (ueID point)
    end in
  match located with
  | None => Ok st
  | Some (ws, i, w) =>
      '(w', sent) ← add_to_window w point;
      Ok {| ue_windows := <[i := w']> ws;
            measurements := measurements st;
            emitted := emitted st ++ sent |}
  end.

Definition compare_neighbors_by_sinr (na nb : neighbor_t) : Z :=
  if (neighSINR nb <? neighSINR na)%float then -1
  else if (neighSINR na <? neighSINR nb)%float then 1
  else 0.

(** One iteration of the loop of [process_measurements_to_adaptive_windows]:
    the point built from a collected measurement. *)
Definition point_of_measurement (m : sinr_measurement_t) : measurement_point_t :=
  let sorted :=
    if (1 <? num_neighbors m)%nat
    then Libc.qsort compare_neighbors_by_sinr (neighbors m)
    else neighbors m in
  {| timestamp := m_timestamp m;
     ueID := m_ueID m;
     servingCellID := m_servingCellID m;
     servingSINR := m_servingSINR m;
     neighborSINR :=
       map (fun j => match sorted !! j with
                     | Some n => neighSINR n
                     | None => 0%float
                     end) (seq 0 3);
     servingCellX := match servingPos m with Some p => x p | None => 0%float end;
     servingCellY := match servingPos m with Some p => y p | None => 0%float end |}.

Fixpoint add_points (st : state) (ms : list sinr_measurement_t) : outcome state :=
  match ms with
  | [] => Ok st
  | m :: ms' =>
      st' ← add_to_adaptive_window st (point_of_measurement m);
      add_points st' ms'
  end.

Definition process_measurements_to_adaptive_windows (st : state) : outcome state :=
  st' ← add_points st (measurements st);
  Ok {| ue_windows := ue_windows st'; measurements := []; emitted := emitted st' |}.

(** *** Collecting one indication into [measurements] *)

Section Indication.

Variable sscanf : string -> string -> option (Z * Z).

Definition store_serving (timestamp_ms : Z) (ms : list sinr_measurement_t)
    (item : meas_type_t * meas_data_lst_t) : list sinr_measurement_t :=
  match serving_sample sscanf item with
  | Some (info, sinr) =>
      if (length ms <? 100)%nat then
        ms ++ [ {| m_timestamp := timestamp_ms;
                   m_ueID := info_ueID info;
                   m_servingCellID := info_cellID info;
                   m_servingSINR := sinr;
                   servingPos := get_cell_position (info_cellID info);
                   neighbors := [] |} ]
      else ms
  | None => ms
  end.

(** [for (j = 0; j + 1 < meas_record_len; j += 2)]: SINR, neighbour id pairs. *)
Fixpoint store_pairs (nbrs : list neighbor_t) (records : meas_data_lst_t)
  : list neighbor_t :=
  match records with
  | sinr :: neighID :: rest =>
      store_pairs
        match sinr, neighID with
        | REAL_MEAS_VALUE real_val, INTEGER_MEAS_VALUE int_val =>
            if (length nbrs <? 10)%nat
            then nbrs ++ [ {| neighCellID := to_uint16 int_val; neighSINR := real_val |} ]
            else nbrs
        | _, _ => nbrs
        end
        rest
  | _ => nbrs
  end.

(** The first measurement of the entity receives the pairs ([break]). *)
Fixpoint store_for_ue (ms : list sinr_measurement_t) (ue : Z)
    (records : meas_data_lst_t) : list sinr_measurement_t :=
  match ms with
  | [] => []
  | m :: ms' =>
      if m_ueID m =? ue then
        {| m_timestamp := m_timestamp m; m_ueID := m_ueID m;
           m_servingCellID := m_servingCellID m; m_servingSINR := m_servingSINR m;
           servingPos := servingPos m;
           neighbors := store_pairs (neighbors m) records |} :: ms'
      else m :: store_for_ue ms' ue records
  end.

Definition store_neighbors (ms : list sinr_measurement_t)
    (item : meas_type_t * meas_data_lst_t) : list sinr_measurement_t :=
  match neighbor_list sscanf item with
  | Some (info, records) => store_for_ue ms (info_ueID info) records
  | None => ms
  end.

Definition log_kpm_measurements (st : state) (msg_frm_1 : kpm_ind_msg_format_1_t)
    (timestamp : Z) : outcome state :=
  if (length (meas_info_lst msg_frm_1) =? 0)%nat then AssertFail
  else if negb (length (meas_info_lst msg_frm_1) =? length (meas_data_lst msg_frm_1))%nat
  then Ok st
  else
    let timestamp_ms := timestamp / 1000 in
    let items := zip (meas_info_lst msg_frm_1) (meas_data_lst msg_frm_1) in
    let ms1 := fold_left (store_serving timestamp_ms) items (measurements st) in
    let ms2 := fold_left store_neighbors items ms1 in
    process_measurements_to_adaptive_windows
      {| ue_windows := ue_windows st; measurements := ms2; emitted := emitted st |}.

(** The reports of the indications received, each with the collection
    start time of its header, in the order [sm_cb_kpm] hands them over. *)
Fixpoint run (st : state) (reports : list (kpm_ind_msg_format_1_t * Z)) : outcome state :=
  match reports with
  | [] => Ok st
  | (msg_frm_1, collectStartTime) :: rest =>
      st' ← log_kpm_measurements st msg_frm_1 collectStartTime;
      run st' rest
  end.

End Indication.

End MA.

(** ** ue_localization_MA_v2.c: one-sample windows stamped with a per-burst
       sequence number *)

Module MAv2.

Definition WINDOW_SIZE : Z := 1.
Definition NUM_CELLS : nat := 7.
Definition MIN_NEIGHBORS_REQUIRED : nat := 3.

Record cell_position_t : Type := { cellID : Z; x : Z; y : Z }.

Definition cell_positions : list cell_position_t :=
  [ {| cellID := 2; x := 800; y := 800 |};
    {| cellID := 3; x := 1300; y := 800 |};
    {| cellID := 4; x := 1050; y := 1233 |};
    {| cellID := 5; x := 550; y := 1233 |};
    {| cellID := 6; x := 300; y := 800 |};
    {| cellID := 7; x := 550; y := 366 |};
    {| cellID := 8; x := 1050; y := 366 |} ].

Definition get_cell_position (id : Z) : option cell_position_t :=
  List.find (fun c => cellID c =? id) (take NUM_CELLS cell_positions).

(** *** Burst clock *)

(** [burst_sequence_assigned] is declared with [TOTAL_UES] slots and
    [ue_sequence_timestamps] with [TOTAL_UES + 1]. Both are indexed by the
    UE id. A load beyond the extent reads the zero initialiser and a store
    beyond it is dropped; the loop that clears [burst_sequence_assigned] runs
    over [0 .. TOTAL_UES] inclusive, so its last store is of that kind.
    This is the clock as far as the declared arrays determine it: what a
    compiled program finds behind [burst_sequence_assigned] is not in the
    sources. [Checked] below has the same function with such an access as
    the outcome [OutOfBounds]. *)
Record burst_state : Type := {
  current_sequence_timestamp : Z;
  current_burst_ue_count : Z;
  burst_sequence_assigned : list bool;
  ue_sequence_timestamps : list Z
}.

(** The values printed into one CSV line by [check_and_send_ue_data]. *)
Record csv_line_top : Type := { top_cell_id : Z; top_x : Z; top_y : Z; top_sinr : float }.

Record csv_line : Type := {
  sequence_timestamp : Z;
  line_ueID : Z;
  line_servingCellID : Z;
  serving_x : Z;
  serving_y : Z;
  serving_sinr_ma : float;
  top3 : list csv_line_top
}.

(** Console lines and CSV lines, in the order they are written. *)
Inductive event : Type :=
| SequenceAssigned (ue_id : Z) (sequence : Z) (burst_count : Z)
| BurstComplete (sequence next : Z)
| BufferCreated (ue_id : Z) (total : nat)
| Sent (line : csv_line).

Section BurstClock.

(** [#define TOTAL_UES]; 28 in the source. *)
Variable TOTAL_UES : nat.

Definition initial_burst_state : burst_state :=
  {| current_sequence_timestamp := 0;
     current_burst_ue_count := 0;
     burst_sequence_assigned := replicate TOTAL_UES false;
     ue_sequence_timestamps := replicate (TOTAL_UES + 1) 0 |}.

Definition assigned (bs : burst_state) (ue_id : Z) : bool :=
  default false (burst_sequence_assigned bs !! Z.to_nat ue_id).

Definition sequence_of (bs : burst_state) (ue_id : Z) : Z :=
  default 0 (ue_sequence_timestamps bs !! Z.to_nat ue_id).

(** [for (int i = 0; i <= TOTAL_UES; i++) burst_sequence_assigned[i] = false;] *)
Definition clear_assigned (flags : list bool) : list bool :=
  fold_left (fun fl i => <[i := false]> fl) (seq 0 (TOTAL_UES + 1)) flags.

(** The state afterwards, the value returned and the console lines written. *)
Definition assign_sequence_timestamp (bs : burst_state) (ue_id : Z)
  : burst_state * Z * list event :=
  if assigned bs ue_id then (bs, sequence_of bs ue_id, [])
  else
    let bs1 :=
      {| current_sequence_timestamp := current_sequence_timestamp bs;
         current_burst_ue_count := current_burst_ue_count bs + 1;
         burst_sequence_assigned := <[Z.to_nat ue_id := true]> (burst_sequence_assigned bs);
         ue_sequence_timestamps :=
           <[Z.to_nat ue_id := current_sequence_timestamp bs]> (ue_sequence_timestamps bs) |} in
    let line := SequenceAssigned ue_id (current_sequence_timestamp bs1)
                                 (current_burst_ue_count bs1) in
    if Z.of_nat TOTAL_UES <=? current_burst_ue_count bs1 then
      let bs2 :=
        {| current_sequence_timestamp := to_uint64 (current_sequence_timestamp bs1 + 1);
           current_burst_ue_count := 0;
           burst_sequence_assigned := clear_assigned (burst_sequence_assigned bs1);
           ue_sequence_timestamps := ue_sequence_timestamps bs1 |} in
      (bs2, sequence_of bs2 ue_id,
       [line; BurstComplete (current_sequence_timestamp bs1)
                            (current_sequence_timestamp bs1 + 1)])
    else (bs1, sequence_of bs1 ue_id, [line]).

End BurstClock.

(** *** Burst clock, every access checked against the declared extent *)

(** The same function, with a load or store at an index beyond the
    declared extent of its array as the outcome [OutOfBounds], as for the
    window buffer of ue_localization_MA.c. *)
Module Checked.

Section BurstClock.

Variable TOTAL_UES : nat.

(** [a[i]] read. *)
Definition load {A : Type} (a : list A) (i : nat) : outcome A :=
  match a !! i with
  | Some v => Ok v
  | None => OutOfBounds
  end.

(** [a[i] = v] *)
Definition store {A : Type} (a : list A) (i : nat) (v : A) : outcome (list A) :=
  if (i <? length a)%nat then Ok (<[i := v]> a) else OutOfBounds.

(** [for (int i = 0; i <= TOTAL_UES; i++) burst_sequence_assigned[i] = false;] *)
Definition clear_assigned (flags : list bool) : outcome (list bool) :=
  fold_left (fun acc i => fl ← acc; store fl i false) (seq 0 (TOTAL_UES + 1)) (Ok flags).

Definition assign_sequence_timestamp (bs : burst_state) (ue_id : Z)
  : outcome (burst_state * Z * list event) :=
  flag ← load (burst_sequence_assigned bs) (Z.to_nat ue_id);
  if flag : bool then
    r ← load (ue_sequence_timestamps bs) (Z.to_nat ue_id);
    Ok (bs, r, [])
  else
    timestamps ← store (ue_sequence_timestamps bs) (Z.to_nat ue_id)
                       (current_sequence_timestamp bs);
    flags ← store (burst_sequence_assigned bs) (Z.to_nat ue_id) true;
    let bs1 :=
      {| current_sequence_timestamp := current_sequence_timestamp bs;
         current_burst_ue_count := current_burst_ue_count bs + 1;
         burst_sequence_assigned := flags;
         ue_sequence_timestamps := timestamps |} in
    let line := SequenceAssigned ue_id (current_sequence_timestamp bs1)
                                 (current_burst_ue_count bs1) in
    if Z.of_nat TOTAL_UES <=? current_burst_ue_count bs1 then
      cleared ← clear_assigned (burst_sequence_assigned bs1);
      let bs2 :=
        {| current_sequence_timestamp := to_uint64 (current_sequence_timestamp bs1 + 1);
           current_burst_ue_count := 0;
           burst_sequence_assigned := cleared;
           ue_sequence_timestamps := ue_sequence_timestamps bs1 |} in
      r ← load (ue_sequence_timestamps bs2) (Z.to_nat ue_id);
      Ok (bs2, r,
          [line; BurstComplete (current_sequence_timestamp bs1)
                               (current_sequence_timestamp bs1 + 1)])
    else
      r ← load (ue_sequence_timestamps bs1) (Z.to_nat ue_id);
      Ok (bs1, r, [line]).

End BurstClock.

End Checked.

Definition TOTAL_UES : nat := 28.

(** *** UE buffers *)

Record neighbor_sample_t : Type := { neighbor_id : Z; neighbor_sinr : float }.

(** One slot of [measurement_history]: [neighbor_samples] holds
    [neighbor_ids[i]], [neighbor_sinrs[i]] for [i < active_neighbor_count]. *)
Record history_t : Type := {
  serving_sinr : float;
  neighbor_samples : list neighbor_sample_t;
  timestamp : Z
}.

Definition active_neighbor_count (h : history_t) : nat := length (neighbor_samples h).

(** The fields of [ue_buffer_t] that the file reads or writes after the
    [memset]; [measurement_history] has [WINDOW_SIZE] slots. *)
Record ue_buffer_t : Type := {
  ueID : Z;
  servingCellID : Z;
  measurement_history : list history_t;
  history_idx : Z;
  history_count : Z;
  last_timestamp : Z
}.

Definition zero_history : history_t :=
  {| serving_sinr := 0%float; neighbor_samples := []; timestamp := 0 |}.

Definition history_at (ue_buf : ue_buffer_t) (idx : Z) : history_t :=
  default zero_history (measurement_history ue_buf !! Z.to_nat idx).

(** [memset(new_ue, 0, ...)] followed by [new_ue->ueID = ueID]. *)
Definition fresh_buffer (id : Z) : ue_buffer_t :=
  {| ueID := id; servingCellID := 0;
     measurement_history := replicate (Z.to_nat WINDOW_SIZE) zero_history;
     history_idx := 0; history_count := 0; last_timestamp := 0 |}.

Record state : Type := {
  ue_buffers : list ue_buffer_t;        (* num_active_ues is its length *)
  burst : burst_state;
  events : list event
}.

Definition initial_state : state :=
  {| ue_buffers := []; burst := initial_burst_state TOTAL_UES; events := [] |}.

(** The slot of the buffer in [ue_buffers], the table and the console line
    written when the buffer is new; [None] when the table is full. *)
Definition get_or_create_ue_buffer (bufs : list ue_buffer_t) (id : Z)
  : option (nat * list ue_buffer_t * list event) :=
  match list_find (fun b => ueID b = id) bufs with
  | Some (i, _) => Some (i, bufs, [])
  | None =>
      if (length bufs <? 28)%nat
      then Some (length bufs, bufs ++ [fresh_buffer id],
                 [BufferCreated id (length bufs + 1)])
      else None
  end.

(** *** Ranking and sending *)

Record neighbor_data_t : Type := { n_cellID : Z; sinr : float; n_x : Z; n_y : Z }.

(** The first loop of [check_and_send_ue_data]: [neighbors] is the array
    filled so far, [neighbor_count] its length. *)
Fixpoint collect_neighbors (serving : Z) (samples : list neighbor_sample_t)
    (neighbors : list neighbor_data_t) : list neighbor_data_t :=
  match samples with
  | [] => neighbors
  | s :: rest =>
      if (10 <=? length neighbors)%nat then neighbors
      else if (neighbor_id s =? serving) || isnan (neighbor_sinr s) || (neighbor_id s =? 0)
      then collect_neighbors serving rest neighbors
      else
        let neigh_pos := get_cell_position (neighbor_id s) in
        collect_neighbors serving rest
          (neighbors ++
           [ {| n_cellID := neighbor_id s; sinr := neighbor_sinr s;
                n_x := match neigh_pos with Some p => x p | None => 0 end;
                n_y := match neigh_pos with Some p => y p | None => 0 end |} ])
  end.

(** [if (neighbors[i].sinr < neighbors[j].sinr) swap] *)
Definition swap_if_less (neighbors : list neighbor_data_t) (i j : nat)
  : list neighbor_data_t :=
  match neighbors !! i, neighbors !! j with
  | Some ni, Some nj =>
      if (sinr ni <? sinr nj)%float
      then <[j := ni]> (<[i := nj]> neighbors)
      else neighbors
  | _, _ => neighbors
  end.

(** [for (i = 0; i < neighbor_count - 1; i++)
      for (j = i + 1; j < neighbor_count; j++) ...] *)
Definition sort_neighbors (neighbors : list neighbor_data_t) : list neighbor_data_t :=
  let neighbor_count := length neighbors in
  fold_left
    (fun a i =>
       fold_left (fun a' j => swap_if_less a' i j)
                 (seq (i + 1) (neighbor_count - (i + 1))) a)
    (seq 0 (neighbor_count - 1)) neighbors.

(** The ranked neighbours of the buffer's current sample. *)
Definition rank (ue_buf : ue_buffer_t) : list neighbor_data_t :=
  let current_idx := Z.rem (history_idx ue_buf - 1 + WINDOW_SIZE) WINDOW_SIZE in
  sort_neighbors
    (collect_neighbors (servingCellID ue_buf)
       (neighbor_samples (history_at ue_buf current_idx)) []).

(** [top3_*]: zero-initialised, the first [valid_count] slots overwritten. *)
Definition zero_top : csv_line_top :=
  {| top_cell_id := 0; top_x := 0; top_y := 0; top_sinr := 0%float |}.

Definition select_top3 (neighbors : list neighbor_data_t) : list csv_line_top :=
  let valid_count := if (3 <? length neighbors)%nat then 3%nat else length neighbors in
  map (fun i =>
         if (i <? valid_count)%nat then
           match neighbors !! i with
           | Some n => {| top_cell_id := n_cellID n; top_x := n_x n; top_y := n_y n;
                          top_sinr := sinr n |}
           | None => zero_top
           end
         else zero_top)
      (seq 0 3).

(** [None]: the function returns without writing a line. *)
Definition check_and_send_ue_data (ue_buf : ue_buffer_t) (sequence : Z)
  : option csv_line :=
  let current_idx := Z.rem (history_idx ue_buf - 1 + WINDOW_SIZE) WINDOW_SIZE in
  let serving := serving_sinr (history_at ue_buf current_idx) in
  if isnan serving then None
  else
    let neighbors := rank ue_buf in
    if (length neighbors <? MIN_NEIGHBORS_REQUIRED)%nat then None
    else
      let serving_pos := get_cell_position (servingCellID ue_buf) in
      Some {| sequence_timestamp := sequence;
              line_ueID := ueID ue_buf;
              line_servingCellID := servingCellID ue_buf;
              serving_x := match serving_pos with Some p => x p | None => 0 end;
              serving_y := match serving_pos with Some p => y p | None => 0 end;
              serving_sinr_ma := serving;
              top3 := select_top3 neighbors |}.

(** *** Samples *)

Definition add_serving_sample (ue_buf : ue_buffer_t) (cell : Z) (sinr : float)
    (timestamp : Z) : ue_buffer_t :=
  {| ueID := ueID ue_buf;
     servingCellID := cell;
     measurement_history :=
       <[Z.to_nat (history_idx ue_buf) :=
           {| serving_sinr := sinr; neighbor_samples := []; timestamp := 0 |}]>
         (measurement_history ue_buf);
     history_idx := Z.rem (history_idx ue_buf + 1) WINDOW_SIZE;
     history_count :=
       if history_count ue_buf <? WINDOW_SIZE then history_count ue_buf + 1
       else history_count ue_buf;
     last_timestamp := timestamp |}.

Definition add_neighbor_sample (ue_buf : ue_buffer_t) (neighCellID : Z) (sinr : float)
  : ue_buffer_t :=
  if neighCellID =? servingCellID ue_buf then ue_buf
  else
    let current_idx := Z.rem (history_idx ue_buf - 1 + WINDOW_SIZE) WINDOW_SIZE in
    let h := history_at ue_buf current_idx in
    if (active_neighbor_count h <? 10)%nat then
      {| ueID := ueID ue_buf;
         servingCellID := servingCellID ue_buf;
         measurement_history :=
           <[Z.to_nat current_idx :=
               {| serving_sinr := serving_sinr h;
                  neighbor_samples :=
                    neighbor_samples h
                    ++ [ {| neighbor_id := neighCellID; neighbor_sinr := sinr |} ];
                  timestamp := timestamp h |}]>
             (measurement_history ue_buf);
         history_idx := history_idx ue_buf;
         history_count := history_count ue_buf;
         last_timestamp := last_timestamp ue_buf |}
    else ue_buf.

(** *** One indication *)

Section Indication.

Variable sscanf : string -> string -> option (Z * Z).

Definition store_serving (simulation_timestamp : Z) (st : state)
    (item : meas_type_t * meas_data_lst_t) : state :=
  match serving_sample sscanf item with
  | Some (info, sinr) =>
      match get_or_create_ue_buffer (ue_buffers st) (info_ueID info) with
      | Some (i, bufs, lines) =>
          {| ue_buffers :=
               alter (fun ue_buf =>
                        add_serving_sample ue_buf (info_cellID info) sinr
                                           simulation_timestamp) i bufs;
             burst := burst st;
             events := events st ++ lines |}
      | None => st
      end
  | None => st
  end.

(** [for (j = 0; j + 1 < meas_record_len; j += 2)]: SINR, neighbour id pairs;
    [neighID.int_val] is converted to the [uint16_t] parameter. *)
Fixpoint store_pairs (ue_buf : ue_buffer_t) (records : meas_data_lst_t) : ue_buffer_t :=
  match records with
  | sinr :: neighID :: rest =>
      store_pairs
        match sinr, neighID with
        | REAL_MEAS_VALUE real_val, INTEGER_MEAS_VALUE int_val =>
            add_neighbor_sample ue_buf (to_uint16 int_val) real_val
        | _, _ => ue_buf
        end
        rest
  | _ => ue_buf
  end.

Definition store_neighbors (st : state) (item : meas_type_t * meas_data_lst_t) : state :=
  match neighbor_list sscanf item with
  | Some (info, records) =>
      match get_or_create_ue_buffer (ue_buffers st) (info_ueID info) with
      | Some (i, bufs, lines) =>
          {| ue_buffers := alter (fun ue_buf => store_pairs ue_buf records) i bufs;
             burst := burst st;
             events := events st ++ lines |}
      | None => st
      end
  | None => st
  end.

(** One iteration of the last loop of [log_kpm_measurements]. *)
Definition send_ue (acc : burst_state * list event) (ue_buf : ue_buffer_t)
  : burst_state * list event :=
  if 0 <? history_count ue_buf then
    let '(bs, seq_ts, lines) := assign_sequence_timestamp TOTAL_UES (fst acc) (ueID ue_buf) in
    (bs, snd acc ++ lines ++
         match check_and_send_ue_data ue_buf seq_ts with
         | Some line => [Sent line]
         | None => []
         end)
  else acc.

Definition log_kpm_measurements (st : state) (msg_frm_1 : kpm_ind_msg_format_1_t)
    (simulation_timestamp : Z) : outcome state :=
  if (length (meas_info_lst msg_frm_1) =? 0)%nat then AssertFail
  else if negb (length (meas_info_lst msg_frm_1) =? length (meas_data_lst msg_frm_1))%nat
  then Ok st
  else
    let items := zip (meas_info_lst msg_frm_1) (meas_data_lst msg_frm_1) in
    let st1 := fold_left (store_serving simulation_timestamp) items st in
    let st2 := fold_left store_neighbors items st1 in
    let '(bs, evs) := fold_left send_ue (ue_buffers st2) (burst st2, events st2) in
    Ok {| ue_buffers := ue_buffers st2; burst := bs; events := evs |}.

(** The indications of a run, each with the collection start time of its
    header; the state when the process stops, after the last indication or
    at the failed assertion. *)
Fixpoint run (st : state) (indications : list (kpm_ind_msg_format_1_t * Z)) : state :=
  match indications with
  | [] => st
  | (msg_frm_1, simulation_time) :: rest =>
      match log_kpm_measurements st msg_frm_1 simulation_time with
      | Ok st' => run st' rest
      | _ => st
      end
  end.

End Indication.

End MAv2.

(** ** ue_localization_MA_v2.c, first program: sums per UE and per neighbour
       cell, averaged and sent every five seconds of simulation time *)

Module MA5s.

Definition PREDICTION_INTERVAL_US : Z := 5000000.

(** The counters of this program are [int], 32 bits wide; an increment at
    [INT_MAX] is undefined in C and is the result [SignedOverflow] here. *)
Definition INT_MAX : Z := 2147483647.

Inductive result (A : Type) : Type :=
| Done (a : A)
| AssertFailed
| SignedOverflow.

Arguments Done {A} a.
Arguments AssertFailed {A}.
Arguments SignedOverflow {A}.

Global Instance result_bind : MBind result := fun A B k r =>
  match r with
  | Done a => k a
  | AssertFailed => AssertFailed
  | SignedOverflow => SignedOverflow
  end.

(** [n++] on an [int]. *)
Definition incr (n : Z) : result Z :=
  if INT_MAX <=? n then SignedOverflow else Done (n + 1).

(** Conversion of an [int] to [double]. *)
Definition double_of_int (n : Z) : float :=
  if n <? 0 then PrimFloat.opp (double_of_Z (- n)) else double_of_Z n.

Record cell_position_t : Type := { cellID : Z; x : float; y : float }.

Definition cell_positions : list cell_position_t :=
  [ {| cellID := 2; x := 800.0; y := 800.0 |};
    {| cellID := 3; x := 1200.0; y := 800.0 |};
    {| cellID := 4; x := 1000.0; y := 1146.0 |};
    {| cellID := 5; x := 600.0; y := 1146.0 |};
    {| cellID := 6; x := 400.0; y := 800.0 |};
    {| cellID := 7; x := 600.0; y := 453.0 |};
    {| cellID := 8; x := 1000.0; y := 453.0 |} ]%float.

Definition get_cell_position (id : Z) : option cell_position_t :=
  List.find (fun c => cellID c =? id) cell_positions.

Record neighbor_sum_t : Type := { neighCellID : Z; sinr_sum : float; sinr_count : Z }.

(** [neighbors] holds [neighbors[0 .. active_neighbors)]; the array has 10
    slots. *)
Record ue_buffer_t : Type := {
  ueID : Z;
  servingCellID : Z;
  serving_sinr_sum : float;
  serving_sinr_count : Z;
  neighbors : list neighbor_sum_t;
  has_data : bool;
  first_timestamp : Z;
  last_timestamp : Z
}.

Definition active_neighbors (ue_buf : ue_buffer_t) : nat := length (neighbors ue_buf).

(** The values printed into one CSV line by
    [process_and_send_averaged_data]; [line_neighbors] holds the three
    pairs [neighbor_ids[n]], [neighbor_sinr[n]]. *)
Record csv_line : Type := {
  line_timestamp : Z;
  line_ueID : Z;
  line_servingCellID : Z;
  avg_serving_sinr : float;
  line_neighbors : list (Z * float);
  line_x : float;
  line_y : float
}.

(** Console lines and CSV lines, in the order they are written. *)
Inductive event : Type :=
| BufferCreated (ue_id : Z) (total : nat)
| FirstPrediction (simulation_timestamp : Z)
| Processing (current_simulation_time : Z)
| Sent (line : csv_line)
| Summary (ue_id : Z) (avg_serving : float) (serving_cell : Z)
          (neighbor_sinr : list float) (samples : Z)
| Processed (processed_ues : Z)
| NextPrediction (at_time : Z).

Record state : Type := {
  ue_buffers : list ue_buffer_t;        (* num_active_ues is its length *)
  last_prediction_time : Z;
  events : list event
}.

Definition initial_state : state :=
  {| ue_buffers := []; last_prediction_time := 0; events := [] |}.

(** [memset(new_ue, 0, ...)] followed by [new_ue->ueID = ueID]. *)
Definition fresh_buffer (id : Z) : ue_buffer_t :=
  {| ueID := id; servingCellID := 0; serving_sinr_sum := 0%float;
     serving_sinr_count := 0; neighbors := []; has_data := false;
     first_timestamp := 0; last_timestamp := 0 |}.

(** The slot of the buffer in [ue_buffers] and its content, the table and
    the console line written when the buffer is new; [None] when the table
    is full. *)
Definition get_or_create_ue_buffer (bufs : list ue_buffer_t) (id : Z)
  : option (nat * ue_buffer_t * list ue_buffer_t * list event) :=
  match list_find (fun b => ueID b = id) bufs with
  | Some (i, ue_buf) => Some (i, ue_buf, bufs, [])
  | None =>
      if (length bufs <? 20)%nat
      then Some (length bufs, fresh_buffer id, bufs ++ [fresh_buffer id],
                 [BufferCreated id (length bufs + 1)])
      else None
  end.

Definition add_serving_sinr_to_buffer (ue_buf : ue_buffer_t) (cell : Z) (sinr : float)
    (timestamp : Z) : result ue_buffer_t :=
  count ← incr (serving_sinr_count ue_buf);
  Done {| ueID := ueID ue_buf;
          servingCellID := cell;
          serving_sinr_sum := (serving_sinr_sum ue_buf + sinr)%float;
          serving_sinr_count := count;
          neighbors := neighbors ue_buf;
          has_data := true;
          first_timestamp :=
            if has_data ue_buf then first_timestamp ue_buf else timestamp;
          last_timestamp := timestamp |}.

Definition with_neighbors (ue_buf : ue_buffer_t) (nbrs : list neighbor_sum_t)
  : ue_buffer_t :=
  {| ueID := ueID ue_buf; servingCellID := servingCellID ue_buf;
     serving_sinr_sum := serving_sinr_sum ue_buf;
     serving_sinr_count := serving_sinr_count ue_buf;
     neighbors := nbrs;
     has_data := has_data ue_buf;
     first_timestamp := first_timestamp ue_buf;
     last_timestamp := last_timestamp ue_buf |}.

Definition add_neighbor_sinr_to_buffer (ue_buf : ue_buffer_t) (id : Z) (sinr : float)
  : result ue_buffer_t :=
  match list_find (fun n => neighCellID n = id) (neighbors ue_buf) with
  | Some (i, n) =>
      count ← incr (sinr_count n);
      Done (with_neighbors ue_buf
              (<[i := {| neighCellID := neighCellID n;
                         sinr_sum := (sinr_sum n + sinr)%float;
                         sinr_count := count |}]> (neighbors ue_buf)))
  | None =>
      if (active_neighbors ue_buf <? 10)%nat
      then Done (with_neighbors ue_buf
                   (neighbors ue_buf
                    ++ [ {| neighCellID := id; sinr_sum := sinr; sinr_count := 1 |} ]))
      else Done ue_buf
  end.

(** [neighbor_ids[n]], [neighbor_sinr[n]] after the loop over
    [n < active_neighbors && n < 3]. *)
Definition neighbor_slot (ue_buf : ue_buffer_t) (n : nat) : Z * float :=
  match neighbors ue_buf !! n with
  | Some nb =>
      if 0 <? sinr_count nb
      then (neighCellID nb, (sinr_sum nb / double_of_int (sinr_count nb))%float)
      else (0, 0%float)
  | None => (0, 0%float)
  end.

Definition line_of (ue_buf : ue_buffer_t) (current_simulation_time : Z) : csv_line :=
  let serving_pos := get_cell_position (servingCellID ue_buf) in
  {| line_timestamp := current_simulation_time / 1000;
     line_ueID := ueID ue_buf;
     line_servingCellID := servingCellID ue_buf;
     avg_serving_sinr :=
       (serving_sinr_sum ue_buf / double_of_int (serving_sinr_count ue_buf))%float;
     line_neighbors := map (neighbor_slot ue_buf) (seq 0 3);
     line_x := match serving_pos with Some p => x p | None => 0%float end;
     line_y := match serving_pos with Some p => y p | None => 0%float end |}.

(** One iteration of the first loop of [process_and_send_averaged_data]:
    the lines written so far and [processed_ues]. *)
Definition send_ue (current_simulation_time : Z) (acc : list event * Z)
    (ue_buf : ue_buffer_t) : list event * Z :=
  if negb (has_data ue_buf) || (serving_sinr_count ue_buf =? 0) then acc
  else
    let line := line_of ue_buf current_simulation_time in
    (fst acc ++ [ Sent line;
                  Summary (ueID ue_buf) (avg_serving_sinr line) (servingCellID ue_buf)
                          (map snd (line_neighbors line)) (serving_sinr_count ue_buf) ],
     snd acc + 1).

(** One iteration of its second loop. *)
Definition clear_buffer (ue_buf : ue_buffer_t) : ue_buffer_t :=
  {| ueID := ueID ue_buf; servingCellID := servingCellID ue_buf;
     serving_sinr_sum := 0%float; serving_sinr_count := 0;
     neighbors := []; has_data := false;
     first_timestamp := first_timestamp ue_buf;
     last_timestamp := last_timestamp ue_buf |}.

Definition process_and_send_averaged_data (bufs : list ue_buffer_t)
    (current_simulation_time : Z) : list ue_buffer_t * list event :=
  let '(lines, processed_ues) :=
    fold_left (send_ue current_simulation_time) bufs
              ([Processing current_simulation_time], 0) in
  (map clear_buffer bufs, lines ++ [Processed processed_ues]).

Section Indication.

Variable sscanf : string -> string -> option (Z * Z).

Definition store_serving (simulation_timestamp : Z) (st : state)
    (item : meas_type_t * meas_data_lst_t) : result state :=
  match serving_sample sscanf item with
  | Some (info, sinr) =>
      match get_or_create_ue_buffer (ue_buffers st) (info_ueID info) with
      | Some (i, ue_buf, bufs, lines) =>
          ue_buf' ← add_serving_sinr_to_buffer ue_buf (info_cellID info) sinr
                                                simulation_timestamp;
          Done {| ue_buffers := <[i := ue_buf']> bufs;
                  last_prediction_time := last_prediction_time st;
                  events := events st ++ lines |}
      | None => Done st
      end
  | None => Done st
  end.

(** [for (j = 0; j + 1 < meas_record_len; j += 2)]: SINR, neighbour id pairs;
    [neighID.int_val] is converted to the [uint16_t] parameter. *)
Fixpoint store_pairs (ue_buf : ue_buffer_t) (records : meas_data_lst_t)
  : result ue_buffer_t :=
  match records with
  | sinr :: neighID :: rest =>
      ue_buf' ← match sinr, neighID with
                | REAL_MEAS_VALUE real_val, INTEGER_MEAS_VALUE int_val =>
                    add_neighbor_sinr_to_buffer ue_buf (to_uint16 int_val) real_val
                | _, _ => Done ue_buf
                end;
      store_pairs ue_buf' rest
  | _ => Done ue_buf
  end.

Definition store_neighbors (st : state) (item : meas_type_t * meas_data_lst_t)
  : result state :=
  match neighbor_list sscanf item with
  | Some (info, records) =>
      match get_or_create_ue_buffer (ue_buffers st) (info_ueID info) with
      | Some (i, ue_buf, bufs, lines) =>
          ue_buf' ← store_pairs ue_buf records;
          Done {| ue_buffers := <[i := ue_buf']> bufs;
                  last_prediction_time := last_prediction_time st;
                  events := events st ++ lines |}
      | None => Done st
      end
  | None => Done st
  end.

(** A loop over the items, each iteration on the state the previous left. *)
Definition for_each_item (body : state -> meas_type_t * meas_data_lst_t -> result state)
    (items : list (meas_type_t * meas_data_lst_t)) (st : state) : result state :=
  fold_left (fun acc item => st' ← acc; body st' item) items (Done st).

Definition log_kpm_measurements (st : state) (msg_frm_1 : kpm_ind_msg_format_1_t)
    (simulation_timestamp : Z) : result state :=
  if (length (meas_info_lst msg_frm_1) =? 0)%nat then AssertFailed
  else if negb (length (meas_info_lst msg_frm_1) =? length (meas_data_lst msg_frm_1))%nat
  then Done st
  else
    let st0 :=
      if last_prediction_time st =? 0 then
        {| ue_buffers := ue_buffers st;
           last_prediction_time := simulation_timestamp;
           events := events st ++ [FirstPrediction simulation_timestamp] |}
      else st in
    let should_process :=
      PREDICTION_INTERVAL_US
      <=? to_uint64 (simulation_timestamp - last_prediction_time st0) in
    let items := zip (meas_info_lst msg_frm_1) (meas_data_lst msg_frm_1) in
    st1 ← for_each_item (store_serving simulation_timestamp) items st0;
    st2 ← for_each_item store_neighbors items st1;
    if should_process then
      let '(bufs, lines) :=
        process_and_send_averaged_data (ue_buffers st2) simulation_timestamp in
      Done {| ue_buffers := bufs;
              last_prediction_time := simulation_timestamp;
              events := events st2 ++ lines
                        ++ [NextPrediction
                              (to_uint64 (simulation_timestamp + PREDICTION_INTERVAL_US))] |}
    else Done st2.

(** The reports of the indications received, each with the collection
    start time of its header, in the order [sm_cb_kpm] hands them over. *)
Fixpoint run (st : state) (reports : list (kpm_ind_msg_format_1_t * Z)) : result state :=
  match reports with
  | [] => Done st
  | (msg_frm_1, simulation_time) :: rest =>
      st' ← log_kpm_measurements st msg_frm_1 simulation_time;
      run st' rest
  end.

End Indication.

End MA5s.

(** ** Lookup of the service model among the RAN functions of a node
       (the same text in every program) *)

(** [sm_ran_function_t], of which the programs read [id]. *)
Record sm_ran_function_t : Type := { sm_id : Z }.

Definition eq_sm (elem : sm_ran_function_t) (id : Z) : bool := sm_id elem =? id.

(** [for (i = ...; i < sz; i++) if (f(&rf[i], id)) return i;] and the
    assertion after the loop; [rf] holds [rf[i .. sz)]. *)
Fixpoint find_sm_idx_from (i : nat) (rf : list sm_ran_function_t)
    (f : sm_ran_function_t -> Z -> bool) (id : Z) : outcome nat :=
  match rf with
  | [] => AssertFail
  | elem :: rest => if f elem id then Ok i else find_sm_idx_from (S i) rest f id
  end.

Definition find_sm_idx (rf : list sm_ran_function_t)
    (f : sm_ran_function_t -> Z -> bool) (id : Z) : outcome nat :=
  find_sm_idx_from 0 rf f id.

(** ** ue_localization_MA.c: the Unix socket to the Python receiver and
       [log_both] *)

Module Sock.

(** The answers of the operating system ([socket], [connect], [send] and
    [errno]) are arguments of the functions that ask for them; the calls
    made, and the lines printed, are listed in the order they are made. The
    text handed to [log_both] is the expansion of its format. *)

Inductive errno_t : Type := EPIPE | ECONNRESET | OtherErrno.

(** The fixed lines printed with [printf]. *)
Inductive message : Type :=
| SocketFailed
| ConnectedToReceiver
| ReceiverNotReady
| StartReceiverFirst
| ConnectFailed
| SocketClosed
| ConnectionLost
| ReceivedSignal (signal : Z).

Inductive call : Type :=
| Socket
| Connect (fd : Z)
| Sleep (seconds : Z)
| Close (fd : Z)
| Send (fd : Z) (data : string)
| Printf (m : message)
| Vprintf (text : string)
| Vfprintf (text : string).

(** [log_file] is true when the pointer is not [NULL]. *)
Record io_state : Type := {
  socket_fd : Z;
  socket_connected : bool;
  log_file : bool;
  monitoring_active : bool
}.

Definition with_socket (st : io_state) (fd : Z) (connected : bool) : io_state :=
  {| socket_fd := fd; socket_connected := connected;
     log_file := log_file st; monitoring_active := monitoring_active st |}.

(** [for (int i = ...; i < 5; i++)] of [init_unix_socket], with [attempts]
    iterations left; [connect_result i] is what the call of iteration [i]
    returns. *)
Fixpoint connect_loop (fd : Z) (connect_result : nat -> Z) (i attempts : nat)
  : bool * list call :=
  match attempts with
  | O => (false, [])
  | S attempts' =>
      if connect_result i =? 0 then (true, [Connect fd; Printf ConnectedToReceiver])
      else
        let '(connected, calls) := connect_loop fd connect_result (S i) attempts' in
        (connected,
         Connect fd
         :: (if (i =? 0)%nat then [Printf ReceiverNotReady; Printf StartReceiverFirst]
             else [])
         ++ Sleep 1 :: calls)
  end.

(** The state afterwards, the value returned and the calls made. *)
Definition init_unix_socket (st : io_state) (socket_result : Z)
    (connect_result : nat -> Z) : io_state * bool * list call :=
  if socket_result =? -1 then
    (with_socket st (-1) (socket_connected st), false, [Socket; Printf SocketFailed])
  else
    let '(connected, calls) := connect_loop socket_result connect_result 0 5 in
    if connected then (with_socket st socket_result true, true, Socket :: calls)
    else (with_socket st (-1) (socket_connected st), false,
          Socket :: calls ++ [Printf ConnectFailed; Close socket_result]).

Definition close_unix_socket (st : io_state) : io_state * list call :=
  if negb (socket_fd st =? -1)
  then (with_socket st (-1) false, [Close (socket_fd st); Printf SocketClosed])
  else (st, []).

(** [send_result] and [errno] are what [send] returns and leaves. *)
Definition send_to_python (st : io_state) (data : string) (send_result : Z)
    (errno : errno_t) : io_state * list call :=
  if negb (socket_connected st) || (socket_fd st =? -1) then (st, [])
  else if send_result =? -1 then
    match errno with
    | EPIPE | ECONNRESET =>
        (with_socket st (socket_fd st) false,
         [Send (socket_fd st) data; Printf ConnectionLost])
    | OtherErrno => (st, [Send (socket_fd st) data])
    end
  else (st, [Send (socket_fd st) data]).

(** [strstr(haystack, needle) != NULL] *)
Fixpoint strstr (haystack needle : string) : bool :=
  String.prefix needle haystack
  || match haystack with
     | EmptyString => false
     | String _ rest => strstr rest needle
     end.

Definition log_both (st : io_state) (text : string) (send_result : Z) (errno : errno_t)
  : io_state * list call :=
  let written := Vprintf text :: (if log_file st then [Vfprintf text] else []) in
  if socket_connected st then
    let buffer := String.substring 0 511 text in      (* char buffer[512] *)
    if negb (strstr buffer "timestamp,UE_ID") && (10 <? String.length buffer)%nat then
      let '(st', calls) := send_to_python st buffer send_result errno in
      (st', written ++ calls)
    else (st, written)
  else (st, written).

Definition signal_handler (st : io_state) (signal : Z) : io_state * list call :=
  let '(st', calls) :=
    close_unix_socket
      {| socket_fd := socket_fd st; socket_connected := socket_connected st;
         log_file := log_file st; monitoring_active := false |} in
  (st', Printf (ReceivedSignal signal) :: calls).

End Sock.

(** * Auxiliary definitions for the statements and proofs *)

(** The indication whose items are the given pairs of a measurement type and
    its data. *)
Definition msg_of_items (items : list (meas_type_t * meas_data_lst_t))
  : kpm_ind_msg_format_1_t :=
  {| meas_info_lst := map fst items; meas_data_lst := map snd items |}.

(** An item whose name carries one of the two prefixes and whose identifiers
    parse to [UINT16_MAX] (cell or UE). *)
Definition unknown_ids (sscanf : string -> string -> option (Z * Z))
    (item : meas_type_t * meas_data_lst_t) : bool :=
  match item with
  | (NAME_MEAS_TYPE name, _) =>
      if isMeasNameContains name "L3servingSINR3gpp_cell_" then
        (info_cellID (parseServingMsg sscanf name) =? UINT16_MAX)
        || (info_ueID (parseServingMsg sscanf name) =? UINT16_MAX)
      else if isMeasNameContains name "L3neighSINRListOf_UEID_" then
        (info_cellID (parseNeighMsg sscanf name) =? UINT16_MAX)
        || (info_ueID (parseNeighMsg sscanf name) =? UINT16_MAX)
      else false
  | (ID_MEAS_TYPE _, _) => false
  end.

(** A neighbour candidate: link id and metric. *)
Definition candidate (link : Z) (metric : float) : Z * float := (link, metric).

(** A scanner for examples: the two values are looked up by the name. *)
Definition sscanf_table (table : list (string * (Z * Z))) (msg format : string)
  : option (Z * Z) :=
  match List.find (fun entry => String.eqb (fst entry) msg) table with
  | Some entry => Some (snd entry)
  | None => None
  end.

(** The names that parse in the examples: a serving measurement of UE 1
    under cell 2, a neighbour list of UE 1 and a neighbour list of UE 5. *)
Definition example_sscanf : string -> string -> option (Z * Z) :=
  sscanf_table
    [ ("L3servingSINR3gpp_cell_2_UEID_1"%string, (2, 1));
      ("L3neighSINRListOf_UEID_1_of_Cell_2"%string, (1, 2));
      ("L3neighSINRListOf_UEID_5_of_Cell_3"%string, (5, 3)) ].

Definition serving_item : meas_type_t * meas_data_lst_t :=
  (NAME_MEAS_TYPE "L3servingSINR3gpp_cell_2_UEID_1", [REAL_MEAS_VALUE 20.5]).

(** A serving name on which [sscanf] converts nothing. *)
Definition unparsed_item : meas_type_t * meas_data_lst_t :=
  (NAME_MEAS_TYPE "L3servingSINR3gpp_cell_x_UEID_7", [REAL_MEAS_VALUE 3.0]).

Definition neighbors_item_ue1 : meas_type_t * meas_data_lst_t :=
  (NAME_MEAS_TYPE "L3neighSINRListOf_UEID_1_of_Cell_2",
   [ REAL_MEAS_VALUE 12.0; INTEGER_MEAS_VALUE 5;
     REAL_MEAS_VALUE 9.0; INTEGER_MEAS_VALUE 6;
     REAL_MEAS_VALUE 8.0; INTEGER_MEAS_VALUE 7 ]).

Definition neighbors_item_ue5 : meas_type_t * meas_data_lst_t :=
  (NAME_MEAS_TYPE "L3neighSINRListOf_UEID_5_of_Cell_3",
   [ REAL_MEAS_VALUE 4.0; INTEGER_MEAS_VALUE 2 ]).

Module MA_aux.
Import MA.

(** A collected measurement: serving sample and neighbour list. *)
Definition measurement (ts ue cell : Z) (metric : float) (nbrs : list (Z * float))
  : sinr_measurement_t :=
  {| m_timestamp := ts; m_ueID := ue; m_servingCellID := cell; m_servingSINR := metric;
     servingPos := get_cell_position cell;
     neighbors := map (fun c => {| neighCellID := fst c; neighSINR := snd c |}) nbrs |}.

(** The lines written by a call, none if it did not return. *)
Definition lines_of (o : outcome state) : list batch_line :=
  match o with
  | Ok st => emitted st
  | AssertFail | OutOfBounds => []
  end.

(** The neighbours of a measurement in the order in which
    [process_measurements_to_adaptive_windows] reads the first three. *)
Definition ranked_neighbors (m : sinr_measurement_t) : list neighbor_t :=
  if (1 <? num_neighbors m)%nat
  then Libc.qsort compare_neighbors_by_sinr (neighbors m)
  else neighbors m.

(** The metric at rank [j] of a measurement, 0.0 beyond its neighbours. *)
Definition ranked_metric (j : nat) (m : sinr_measurement_t) : float :=
  match ranked_neighbors m !! j with
  | Some n => neighSINR n
  | None => 0%float
  end.

(** A window to which the next sample of the UE is added as its first: the
    UE has an empty window, or none while the table has room. *)
Definition awaits_first_sample (st : state) (ue : Z) : Prop :=
  (exists i w, find_ue_window (ue_windows st) ue = Some (i, w) /\ buffer w = [])
  \/ (find_ue_window (ue_windows st) ue = None
      /\ (length (ue_windows st) < MAX_UE_COUNT)%nat).

(** The values in order, summed from 0.0 and divided by their number. *)
Definition arithmetic_mean (ds : list float) : float :=
  (fold_left PrimFloat.add ds 0 / double_of_Z (Z.of_nat (length ds)))%float.

(** The window of a UE, if it has one. *)
Definition window_of (st : state) (ue : Z) : option ue_adaptive_window_t :=
  snd <$> find_ue_window (ue_windows st) ue.

(** Successive calls of [add_to_window] on one window: the window
    afterwards and the lines sent. *)
Fixpoint add_each (w : ue_adaptive_window_t) (points : list measurement_point_t)
  : outcome (ue_adaptive_window_t * list batch_line) :=
  match points with
  | [] => Ok (w, [])
  | point :: rest =>
      '(w1, sent1) ← add_to_window w point;
      '(w2, sent2) ← add_each w1 rest;
      Ok (w2, sent1 ++ sent2)
  end.

(** A window of UE 1 under cell 2 that holds two samples. *)
Definition two_sample_window : ue_adaptive_window_t :=
  {| ue_id := 1; current_serving_cell := 2; window_start_time := 0;
     window_active := true;
     buffer := map point_of_measurement
                 [measurement 0 1 2 10.0 []; measurement 100 1 2 14.0 []] |}.

(** Six samples of UE 1 under cell 2, one second apart. *)
Definition six_samples : list sinr_measurement_t :=
  [ measurement 0 1 2 10.0 []; measurement 1000 1 2 11.0 [];
    measurement 2000 1 2 12.0 []; measurement 3000 1 2 13.0 [];
    measurement 4000 1 2 14.0 []; measurement 5000 1 2 15.0 [] ].

(** Two samples of UE 1 under cell 2 in which cells 5 and 6 swap metrics. *)
Definition swapping_samples : list sinr_measurement_t :=
  [ measurement 0 1 2 20.0 [candidate 5 10.0; candidate 6 2.0];
    measurement 5000 1 2 20.0 [candidate 5 2.0; candidate 6 10.0] ].

(** *** The ranking of one sample, stated without the sort *)

(** Two metrics that [compare_neighbors_by_sinr] orders consistently: they
    are the same value, or one is less than the other. This leaves out a
    NaN beside another value, and +0.0 beside -0.0. *)
Definition comparable (u v : float) : Prop :=
  u = v \/ (u <? v)%float = true \/ (v <? u)%float = true.

Definition metrics (m : sinr_measurement_t) : list float :=
  map neighSINR (neighbors m).

(** Any two neighbour metrics of the sample are comparable. *)
Definition comparable_metrics (m : sinr_measurement_t) : Prop :=
  Forall (fun u => Forall (comparable u) (metrics m)) (metrics m).

(** [r] holds the neighbour metrics of the sample, largest first: none is
    less than a later one. *)
Definition largest_first (m : sinr_measurement_t) (r : list float) : Prop :=
  r ≡ₚ metrics m /\ StronglySorted (fun u v => (u <? v)%float = false) r.

(** *** The ranking as the specification words it *)

(** The neighbour cells seen in the samples of a window, each once. *)
Definition links_seen (ms : list sinr_measurement_t) : list Z :=
  remove_dups (concat (map (fun m => map neighCellID (neighbors m)) ms)).

(** The metrics reported for one neighbour cell over the window. *)
Definition link_metrics (ms : list sinr_measurement_t) (link : Z) : list float :=
  concat (map (fun m => map neighSINR
                          (List.filter (fun n => neighCellID n =? link) (neighbors m)))
              ms).

Definition per_link_average (ms : list sinr_measurement_t) (link : Z) : float :=
  (sum_double (link_metrics ms link)
   / double_of_Z (Z.of_nat (length (link_metrics ms link))))%float.

(** Follows the specification's words: the arithmetic mean of each link's
    metric over the window's samples, the means then ranked, largest first. *)
Definition spec_ranked_per_link_averages (ms : list sinr_measurement_t) : list float :=
  Libc.qsort (fun a b => if (b <? a)%float then -1 else if (a <? b)%float then 1 else 0)
             (map (per_link_average ms) (links_seen ms)).

End MA_aux.

Module MAv2_aux.
Import MAv2.

(** [not_below u v]: the test [u.sinr < v.sinr] of the sort fails. *)
Definition not_below (u v : neighbor_data_t) : Prop := (sinr u <? sinr v)%float = false.

(** The inner loop for a fixed [i], over [j = i+1 .. i+len]. *)
Definition sweep (a : list neighbor_data_t) (i len : nat) : list neighbor_data_t :=
  fold_left (fun a' j => swap_if_less a' i j) (seq (i + 1) len) a.

(** The outer loop over [i = 0 .. m-1]. *)
Definition passes (a : list neighbor_data_t) (m : nat) : list neighbor_data_t :=
  fold_left (fun a' i => sweep a' i (length a - (i + 1))) (seq 0 m) a.

(** The neighbour samples of the slot that [check_and_send_ue_data] reads. *)
Definition current_samples (ue_buf : ue_buffer_t) : list neighbor_sample_t :=
  neighbor_samples
    (history_at ue_buf (Z.rem (history_idx ue_buf - 1 + WINDOW_SIZE) WINDOW_SIZE)).

(** A valid neighbour: not the serving cell, not NaN, cell id not zero. *)
Definition valid_neighbor (serving : Z) (s : neighbor_sample_t) : bool :=
  negb ((neighbor_id s =? serving) || isnan (neighbor_sinr s) || (neighbor_id s =? 0)).

Definition neighbor_data_of (s : neighbor_sample_t) : neighbor_data_t :=
  {| n_cellID := neighbor_id s; sinr := neighbor_sinr s;
     n_x := match get_cell_position (neighbor_id s) with Some p => x p | None => 0 end;
     n_y := match get_cell_position (neighbor_id s) with Some p => y p | None => 0 end |}.

(** The buffer of UE 1 after one serving sample and the given neighbour
    candidates, in order. *)
Definition sample_buffer (serving : Z) (serving_metric : float)
    (candidates : list (Z * float)) : ue_buffer_t :=
  fold_left (fun ue_buf c => add_neighbor_sample ue_buf (fst c) (snd c)) candidates
            (add_serving_sample (fresh_buffer 1) serving serving_metric 0).

(** A buffer in the shape every buffer has with [WINDOW_SIZE] 1: one
    history slot, write position 0. *)
Definition one_slot_buffer (ue serving : Z) (h : history_t) (count last : Z)
  : ue_buffer_t :=
  {| ueID := ue; servingCellID := serving; measurement_history := [h];
     history_idx := 0; history_count := count; last_timestamp := last |}.

Definition id_and_metric (n : neighbor_data_t) : Z * float := (n_cellID n, sinr n).

(** Successive calls of [assign_sequence_timestamp]: the state afterwards and
    the values returned. *)
Fixpoint assign_each (TOTAL_UES : nat) (bs : burst_state) (ue_ids : list Z)
  : burst_state * list Z :=
  match ue_ids with
  | [] => (bs, [])
  | ue_id :: rest =>
      let '(bs', r, _) := assign_sequence_timestamp TOTAL_UES bs ue_id in
      let '(bs'', rs) := assign_each TOTAL_UES bs' rest in
      (bs'', r :: rs)
  end.

(** The events that concern a UE: the assignment of a sequence number to it
    and a line sent for it. *)
Definition names_ue (u : Z) (e : event) : bool :=
  match e with
  | SequenceAssigned ue_id _ _ => ue_id =? u
  | Sent line => line_ueID line =? u
  | BurstComplete _ _ | BufferCreated _ _ => false
  end.

(** What holds of the state for a UE [u] without serving samples: its
    buffers have an empty history and no event concerns it. *)
Definition untouched (u : Z) (st : state) : Prop :=
  (forall b, b ∈ ue_buffers st -> ueID b = u -> history_count b = 0)
  /\ (forall e, e ∈ events st -> names_ue u e = false).

(** The burst state after the given calls from the initial state. *)
Definition burst_after (TOTAL_UES : nat) (ue_ids : list Z) : burst_state :=
  fst (assign_each TOTAL_UES (initial_burst_state TOTAL_UES) ue_ids).

(** Successive calls of [Checked.assign_sequence_timestamp]: the state
    afterwards and the values returned, when every call stayed within the
    arrays. *)
Fixpoint assign_each_checked (TOTAL_UES : nat) (bs : burst_state) (ue_ids : list Z)
  : outcome (burst_state * list Z) :=
  match ue_ids with
  | [] => Ok (bs, [])
  | ue_id :: rest =>
      '(bs', r, _) ← Checked.assign_sequence_timestamp TOTAL_UES bs ue_id;
      '(bs'', rs) ← assign_each_checked TOTAL_UES bs' rest;
      Ok (bs'', r :: rs)
  end.

(** The UE ids from [first] on, [n] of them. *)
Definition ue_ids_from (first : Z) (n : nat) : list Z :=
  map (fun k => first + Z.of_nat k) (seq 0 n).

End MAv2_aux.

(** ** Invariants and examples for the further properties *)

Module MA_inv.
Import MA.

(** What holds of every window of a state reached from the initial one. *)
Definition window_ok (w : ue_adaptive_window_t) : Prop :=
  Forall (fun p => ueID p = ue_id w
                   /\ servingCellID p = current_serving_cell w
                   /\ to_uint64 (timestamp p - window_start_time w) < 5000)
         (buffer w)
  /\ window_active w = negb (count w =? 0)%nat
  /\ (buffer w = [] -> current_serving_cell w = 0).

Definition table_ok (ws : list ue_adaptive_window_t) : Prop :=
  NoDup (map ue_id ws) /\ (length ws <= MAX_UE_COUNT)%nat /\ Forall window_ok ws.

(** The buffered samples of a window, and the lines sent, are of pairs of a
    UE and a serving cell that satisfy [P]. *)
Definition points_from (P : Z -> Z -> Prop) (w : ue_adaptive_window_t) : Prop :=
  Forall (fun p => P (ueID p) (servingCellID p)) (buffer w).

Definition lines_from (P : Z -> Z -> Prop) (lines : list batch_line) : Prop :=
  Forall (fun l => P (line_ue_id l) (line_serving_cell l)) lines.

(** An accepted serving measurement of UE [u] under cell [c] is among the
    items of the reports. *)
Definition served (sscanf : string -> string -> option (Z * Z))
    (reports : list (kpm_ind_msg_format_1_t * Z)) (u c : Z) : Prop :=
  exists msg_frm_1 ts item info metric,
    (msg_frm_1, ts) ∈ reports
    /\ item ∈ zip (meas_info_lst msg_frm_1) (meas_data_lst msg_frm_1)
    /\ serving_sample sscanf item = Some (info, metric)
    /\ info_ueID info = u /\ info_cellID info = c.

(** The invariant of the file-scope state between two calls of
    [log_kpm_measurements]. *)
Definition state_ok (P : Z -> Z -> Prop) (st : state) : Prop :=
  table_ok (ue_windows st) /\ Forall (points_from P) (ue_windows st)
  /\ lines_from P (emitted st) /\ measurements st = [].

(** The state a run leaves, the initial one if it did not return. *)
Definition state_of (o : outcome state) : state :=
  match o with
  | Ok st => st
  | AssertFail | OutOfBounds => initial_state
  end.

(** A state in which every slot of the table is taken, by UEs 1000 to 1099. *)
Definition full_table : state :=
  {| ue_windows := map (fun n => fresh_window (1000 + Z.of_nat n)) (seq 0 MAX_UE_COUNT);
     measurements := []; emitted := [] |}.

(** A window of UE 1 under cell 2 that holds the given samples, each a time
    and a serving SINR. *)
Definition window_with (start : Z) (samples : list (Z * float)) : ue_adaptive_window_t :=
  {| ue_id := 1; current_serving_cell := 2; window_start_time := start;
     window_active := true;
     buffer := map (fun s => point_of_measurement
                               (MA_aux.measurement (fst s) 1 2 (snd s) [])) samples |}.

End MA_inv.

(** Two reports of UE 1 under cell 2 with three neighbours, collected at 0
    and at 5 000 000 microseconds. *)
Definition example_reports : list (kpm_ind_msg_format_1_t * Z) :=
  [ (msg_of_items [serving_item; neighbors_item_ue1], 0);
    (msg_of_items [serving_item; neighbors_item_ue1], 5000000) ].

Module MAv2_inv.
Import MAv2 MAv2_aux.

(** What holds of every buffer of a state reached from the initial one:
    one history slot, written at position 0, that holds at most ten
    neighbour samples, none of them of the serving cell. *)
Definition buffer_ok (b : ue_buffer_t) : Prop :=
  exists h,
    measurement_history b = [h] /\ history_idx b = 0
    /\ (history_count b = 0 \/ history_count b = 1)
    /\ (active_neighbor_count h <= 10)%nat
    /\ Forall (fun s => neighbor_id s <> servingCellID b) (neighbor_samples h).

Definition buffers_ok (bufs : list ue_buffer_t) : Prop :=
  NoDup (map ueID bufs) /\ (length bufs <= 28)%nat /\ Forall buffer_ok bufs.

(** The values of a neighbour in the form of a slot of the line. *)
Definition top_of (n : neighbor_data_t) : csv_line_top :=
  {| top_cell_id := n_cellID n; top_x := n_x n; top_y := n_y n; top_sinr := sinr n |}.

(** The UEs of the lines sent, in order. *)
Definition sent_ues (evs : list event) : list Z :=
  omap (fun e => match e with Sent line => Some (line_ueID line) | _ => None end) evs.

(** A buffer for which the sending loop writes a line: it has a serving
    sample, which is not NaN, and at least three ranked neighbours. *)
Definition eligible (b : ue_buffer_t) : bool :=
  (0 <? history_count b)
  && negb (isnan (serving_sinr
                    (history_at b (Z.rem (history_idx b - 1 + WINDOW_SIZE) WINDOW_SIZE))))
  && (MIN_NEIGHBORS_REQUIRED <=? length (rank b))%nat.




(** The line of a call that wrote one. *)
Definition written (o : option csv_line) : csv_line :=
  default {| sequence_timestamp := 0; line_ueID := 0; line_servingCellID := 0;
             serving_x := 0; serving_y := 0; serving_sinr_ma := 0%float; top3 := [] |} o.

End MAv2_inv.

Module MA5s_aux.
Import MA5s.

(** What holds of every buffer of a state reached from the initial one. *)
Definition buffer_ok (b : ue_buffer_t) : Prop :=
  (active_neighbors b <= 10)%nat
  /\ NoDup (map neighCellID (neighbors b))
  /\ Forall (fun n => 0 < sinr_count n <= INT_MAX) (neighbors b)
  /\ 0 <= serving_sinr_count b <= INT_MAX
  /\ has_data b = (0 <? serving_sinr_count b).

Definition buffers_ok (bufs : list ue_buffer_t) : Prop :=
  NoDup (map ueID bufs) /\ (length bufs <= 20)%nat /\ Forall buffer_ok bufs.

(** The simulation times at which averages were processed, in order. *)
Definition processing_times (evs : list event) : list Z :=
  omap (fun e => match e with Processing t => Some t | _ => None end) evs.

(** The CSV lines sent, in order. *)
Definition sent_lines (evs : list event) : list csv_line :=
  omap (fun e => match e with Sent line => Some line | _ => None end) evs.

(** A buffer for which [process_and_send_averaged_data] writes a line. *)
Definition with_data (b : ue_buffer_t) : bool :=
  has_data b && negb (serving_sinr_count b =? 0).

(** The lines that one iteration of the first loop of
    [process_and_send_averaged_data] writes. *)
Definition round_lines (t : Z) (b : ue_buffer_t) : list event :=
  if with_data b then
    [ Sent (line_of b t);
      Summary (ueID b) (avg_serving_sinr (line_of b t)) (servingCellID b)
              (map snd (line_neighbors (line_of b t))) (serving_sinr_count b) ]
  else [].

(** Successive serving samples (cell, SINR, time) added to one buffer. *)
Fixpoint serve_each (ue_buf : ue_buffer_t) (samples : list (Z * float * Z))
  : result ue_buffer_t :=
  match samples with
  | [] => Done ue_buf
  | (cell, sinr, timestamp) :: rest =>
      ue_buf' ← add_serving_sinr_to_buffer ue_buf cell sinr timestamp;
      serve_each ue_buf' rest
  end.

(** The invariant that relates the processing times to
    [last_prediction_time]. *)
Definition times_ok (st : state) : Prop :=
  StronglySorted (fun a b => a + PREDICTION_INTERVAL_US <= b)
                 (processing_times (events st))
  /\ Forall (fun t => t <= last_prediction_time st) (processing_times (events st))
  /\ 0 <= last_prediction_time st.


(** The state a run leaves, the initial one if it did not return. *)
Definition state_of (r : result state) : state :=
  match r with
  | Done st => st
  | AssertFailed | SignedOverflow => initial_state
  end.

(** Successive neighbour samples (cell, SINR) added to one buffer. *)
Fixpoint hear_each (ue_buf : ue_buffer_t) (samples : list (Z * float))
  : result ue_buffer_t :=
  match samples with
  | [] => Done ue_buf
  | (cell, sinr) :: rest =>
      ue_buf' ← add_neighbor_sinr_to_buffer ue_buf cell sinr;
      hear_each ue_buf' rest
  end.

(** The cells in the order in which they first appear. *)
Definition first_appearances (cells : list Z) : list Z :=
  fold_left (fun seen c => if decide (c ∈ seen) then seen else seen ++ [c]) cells [].

(** The cells of the samples that get a slot: the first ten that appear. *)
Definition cells_heard (samples : list (Z * float)) : list Z :=
  take 10 (first_appearances (map fst samples)).

(** The SINR values of the samples of a cell, in order. *)
Definition sinrs_of (cell : Z) (samples : list (Z * float)) : list float :=
  map snd (List.filter (fun s => fst s =? cell) samples).

(** The values added up in order, starting from the first. *)
Definition sum_in_order (xs : list float) : float :=
  match xs with
  | [] => 0%float
  | x :: rest => fold_left PrimFloat.add rest x
  end.

Definition mean_in_order (xs : list float) : float :=
  (sum_in_order xs / double_of_int (Z.of_nat (length xs)))%float.

(** The slot of a cell after the samples: the sum and the number of the
    SINR values of the cell. *)
Definition slot_of (samples : list (Z * float)) (cell : Z) : neighbor_sum_t :=
  {| neighCellID := cell;
     sinr_sum := sum_in_order (sinrs_of cell samples);
     sinr_count := Z.of_nat (length (sinrs_of cell samples)) |}.

(** Samples of cells 5, 6, 5 again, 7 and 8. *)
Definition heard_samples : list (Z * float) :=
  [(5, 12.0%float); (6, 9.0%float); (5, 14.0%float); (7, 8.0%float); (8, 3.0%float)].

End MA5s_aux.

(** Four reports of UE 1 under cell 2 with three neighbours, collected at
    1, 3, 6 and 12 seconds of simulation time. *)
Definition example_reports_5s : list (kpm_ind_msg_format_1_t * Z) :=
  [ (msg_of_items [serving_item; neighbors_item_ue1], 1000000);
    (msg_of_items [serving_item; neighbors_item_ue1], 3000000);
    (msg_of_items [serving_item; neighbors_item_ue1], 6000000);
    (msg_of_items [serving_item; neighbors_item_ue1], 12000000) ].

Module Sock_aux.
Import Sock.

(** The operations on the socket after start-up, each with the answers of
    the operating system it may need. *)
Inductive op : Type :=
| LogBoth (text : string) (send_result : Z) (errno : errno_t)
| SendToPython (data : string) (send_result : Z) (errno : errno_t)
| CloseUnixSocket
| SignalHandler (signal : Z).

Definition step (st : io_state) (o : op) : io_state * list call :=
  match o with
  | LogBoth text send_result errno => log_both st text send_result errno
  | SendToPython data send_result errno => send_to_python st data send_result errno
  | CloseUnixSocket => close_unix_socket st
  | SignalHandler signal => signal_handler st signal
  end.

(** The operations in order: the state afterwards and all calls made. *)
Fixpoint run_ops (st : io_state) (ops : list op) : io_state * list call :=
  match ops with
  | [] => (st, [])
  | o :: rest =>
      let '(st1, calls1) := step st o in
      let '(st2, calls2) := run_ops st1 rest in
      (st2, calls1 ++ calls2)
  end.

Definition is_send (c : call) : bool := match c with Send _ _ => true | _ => false end.
Definition is_close (c : call) : bool := match c with Close _ => true | _ => false end.
Definition is_connect (c : call) : bool := match c with Connect _ => true | _ => false end.
Definition is_sleep (c : call) : bool := match c with Sleep _ => true | _ => false end.

(** The state of a process that has not opened the socket. *)
Definition initial_io : io_state :=
  {| socket_fd := -1; socket_connected := false; log_file := true;
     monitoring_active := true |}.

(** A process connected on descriptor 7, and some operations on it. *)
Definition connected_io : io_state := with_socket initial_io 7 true.

Definition example_ops : list op :=
  [LogBoth "2000,1,2,21.0,3,10.0" 20 OtherErrno;
   SendToPython "3000,1,2,19.5" 13 OtherErrno;
   CloseUnixSocket;
   LogBoth "4000,1,2,18.0" 13 OtherErrno].

End Sock_aux.

(** * Properties *)

(** ** Order of doubles *)

Ltac sf_cases :=
  simpl;
  repeat match goal with s : bool |- _ => destruct s end; simpl; try congruence;
  repeat match goal with
  | |- context [Pos.compare_cont Eq ?a ?b] =>
      change (Pos.compare_cont Eq a b) with (Pos.compare a b)
  end;
  repeat match goal with
  | |- context [(?a ?= ?b)%Z] =>
      let E := fresh in destruct (Z.compare_spec a b) as [E|E|E]
  | |- context [(?a ?= ?b)%positive] =>
      let E := fresh in destruct (Pos.compare_spec a b) as [E|E|E]
  end; simpl; try congruence; try lia.

Lemma SFltb_asym a b : SFltb a b = true -> SFltb b a = false.
Proof.
  unfold SFltb.
  destruct a as [sa|sa| |sa ma ea], b as [sb|sb| |sb mb eb]; sf_cases.
Qed.

Lemma SFltb_chain a b c : SFltb a b = true -> SFltb a c = false -> SFltb b c = false.
Proof.
  unfold SFltb.
  destruct a as [sa|sa| |sa ma ea], b as [sb|sb| |sb mb eb],
           c as [sc|sc| |sc mc ec]; sf_cases.
Qed.

Lemma SFltb_total a b :
  a <> S754_nan -> b <> S754_nan -> SFltb a b = false -> SFleb b a = true.
Proof.
  unfold SFltb, SFleb.
  destruct a as [sa|sa| |sa ma ea], b as [sb|sb| |sb mb eb]; sf_cases.
Qed.

Lemma SFltb_leb a b : SFltb a b = true -> SFleb a b = true.
Proof.
  unfold SFltb, SFleb.
  destruct a as [sa|sa| |sa ma ea], b as [sb|sb| |sb mb eb]; sf_cases.
Qed.

Lemma SFleb_trans a b c : SFleb a b = true -> SFleb b c = true -> SFleb a c = true.
Proof.
  unfold SFleb.
  destruct a as [sa|sa| |sa ma ea], b as [sb|sb| |sb mb eb],
           c as [sc|sc| |sc mc ec]; sf_cases.
Qed.

Lemma isnan_false_spec d : isnan d = false -> Prim2SF d <> S754_nan.
Proof.
  unfold isnan, PrimFloat.is_nan. rewrite FloatAxioms.eqb_spec.
  intros H E. rewrite E in H. discriminate.
Qed.

Lemma ltb_asym (a b : float) : (a <? b)%float = true -> (b <? a)%float = false.
Proof. rewrite !FloatAxioms.ltb_spec. apply SFltb_asym. Qed.

Lemma ltb_chain (a b c : float) :
  (a <? b)%float = true -> (a <? c)%float = false -> (b <? c)%float = false.
Proof. rewrite !FloatAxioms.ltb_spec. apply SFltb_chain. Qed.

Lemma ltb_false_leb (a b : float) :
  isnan a = false -> isnan b = false ->
  (a <? b)%float = false -> (b <=? a)%float = true.
Proof.
  intros Ha Hb. rewrite FloatAxioms.ltb_spec, FloatAxioms.leb_spec.
  apply SFltb_total; apply isnan_false_spec; assumption.
Qed.

Lemma ltb_leb (a b : float) : (a <? b)%float = true -> (a <=? b)%float = true.
Proof. rewrite FloatAxioms.ltb_spec, FloatAxioms.leb_spec. apply SFltb_leb. Qed.

Lemma leb_trans (a b c : float) :
  (a <=? b)%float = true -> (b <=? c)%float = true -> (a <=? c)%float = true.
Proof. rewrite !FloatAxioms.leb_spec. apply SFleb_trans. Qed.

(** ** The exchange sort of [check_and_send_ue_data] *)

Section ExchangeSort.

Import MAv2 MAv2_aux.

Lemma insert_swap_head (a : list neighbor_data_t) (j : nat) (u v : neighbor_data_t) :
  a !! j = Some v -> v :: <[j := u]> a ≡ₚ u :: a.
Proof.
  revert j. induction a as [|w a IH]; intros [|j] Hj; simpl in *; try discriminate.
  - injection Hj as ->. apply perm_swap.
  - rewrite (perm_swap w v), (IH _ Hj). apply perm_swap.
Qed.

Lemma swap_perm (a : list neighbor_data_t) (i j : nat) (u v : neighbor_data_t) :
  a !! i = Some u -> a !! j = Some v -> <[j := u]> (<[i := v]> a) ≡ₚ a.
Proof.
  revert i j. induction a as [|w a IH]; intros [|i] [|j] Hi Hj; simpl in *;
    try discriminate.
  - injection Hi as ->. reflexivity.
  - injection Hi as ->. apply insert_swap_head, Hj.
  - injection Hj as ->. apply (insert_swap_head a i v u Hi).
  - f_equiv. apply IH; assumption.
Qed.

Lemma swap_if_less_perm a i j : swap_if_less a i j ≡ₚ a.
Proof.
  unfold swap_if_less.
  destruct (a !! i) as [u|] eqn:Hi; [|reflexivity].
  destruct (a !! j) as [v|] eqn:Hj; [|reflexivity].
  destruct (sinr u <? sinr v)%float; [|reflexivity].
  apply swap_perm; assumption.
Qed.

Lemma swap_if_less_length a i j : length (swap_if_less a i j) = length a.
Proof. apply Permutation_length, swap_if_less_perm. Qed.

(** What one test-and-swap does to the slots. *)
Lemma swap_if_less_lookup a i j u v :
  i <> j -> a !! i = Some u -> a !! j = Some v ->
  exists u' v',
    swap_if_less a i j !! i = Some u' /\ swap_if_less a i j !! j = Some v' /\
    not_below u' v' /\
    (forall w, not_below u w -> not_below u' w) /\
    (forall k, k <> i -> k <> j -> swap_if_less a i j !! k = a !! k).
Proof.
  intros Hne Hi Hj. unfold swap_if_less. rewrite Hi, Hj.
  destruct (sinr u <? sinr v)%float eqn:Hlt.
  - exists v, u. repeat split.
    + rewrite list_lookup_insert_ne by congruence.
      apply list_lookup_insert_eq. eapply lookup_lt_Some, Hi.
    + apply list_lookup_insert_eq. rewrite length_insert. eapply lookup_lt_Some, Hj.
    + apply ltb_asym, Hlt.
    + intros w Hw. eapply ltb_chain; eassumption.
    + intros k Hki Hkj. rewrite !list_lookup_insert_ne by congruence. reflexivity.
  - exists u, v. repeat split; auto.
Qed.

Lemma sweep_S a i len :
  sweep a i (S len) = swap_if_less (sweep a i len) i (i + 1 + len).
Proof. unfold sweep. rewrite seq_S, fold_left_app. reflexivity. Qed.

Lemma sweep_perm a i len : sweep a i len ≡ₚ a.
Proof.
  induction len as [|len IH]; [reflexivity|].
  rewrite sweep_S, swap_if_less_perm. exact IH.
Qed.

Lemma sweep_spec a i len :
  (i + len < length a)%nat ->
  (forall k, (k < i)%nat \/ (i + len < k)%nat -> sweep a i len !! k = a !! k) /\
  (forall k u v, (i < k <= i + len)%nat ->
     sweep a i len !! i = Some u -> sweep a i len !! k = Some v -> not_below u v).
Proof.
  induction len as [|len IH]; intros Hlen.
  - split; [reflexivity|]. intros; lia.
  - destruct IH as [IHout IHin]; [lia|].
    rewrite sweep_S. set (b := sweep a i len) in *.
    assert (Hlb : length b = length a) by apply Permutation_length, sweep_perm.
    destruct (lookup_lt_is_Some_2 b i) as [u Hu]; [lia|].
    destruct (lookup_lt_is_Some_2 b (i + 1 + len)) as [v Hv]; [lia|].
    destruct (swap_if_less_lookup b i (i + 1 + len) u v) as (u' & v' & Hi' & Hj' & Huv & Hmono & Hrest);
      [lia|assumption|assumption|].
    split.
    + intros k Hk. rewrite Hrest by lia. apply IHout. lia.
    + intros k x z Hk Hx Hz. rewrite Hi' in Hx. injection Hx as <-.
      destruct (decide (k = i + 1 + len)%nat) as [->|Hne].
      * rewrite Hj' in Hz. injection Hz as <-. exact Huv.
      * rewrite Hrest in Hz by lia. apply Hmono. eapply IHin; [|exact Hu|exact Hz]. lia.
Qed.

Lemma passes_S a m :
  passes a (S m) = sweep (passes a m) m (length a - (m + 1)).
Proof. unfold passes. rewrite seq_S, fold_left_app. reflexivity. Qed.

Lemma passes_perm a m : passes a m ≡ₚ a.
Proof.
  induction m as [|m IH]; [reflexivity|].
  rewrite passes_S, sweep_perm. exact IH.
Qed.

Lemma sort_neighbors_passes a : sort_neighbors a = passes a (length a - 1).
Proof. reflexivity. Qed.

Lemma passes_ordered a m :
  (m <= length a)%nat ->
  forall p k u v, (p < m)%nat -> (p < k)%nat ->
    passes a m !! p = Some u -> passes a m !! k = Some v -> not_below u v.
Proof.
  induction m as [|m IH]; intros Hm p k u v Hp Hk Hu Hv; [lia|].
  rewrite passes_S in Hu, Hv. set (b := passes a m) in *.
  assert (Hlb : length b = length a) by apply Permutation_length, passes_perm.
  destruct (sweep_spec b m (length a - (m + 1))) as [Hout Hin]; [lia|].
  assert (Hkl : (k < length a)%nat).
  { apply lookup_lt_Some in Hv.
    rewrite (Permutation_length (sweep_perm _ _ _)) in Hv. lia. }
  destruct (decide (p = m)) as [->|Hpm].
  - eapply Hin; [|exact Hu|exact Hv]. lia.
  - rewrite Hout in Hu by lia.
    destruct (decide (k < m)%nat) as [Hkm|Hkm].
    + rewrite Hout in Hv by lia. eapply (IH ltac:(lia) p k); eauto; lia.
    + (* slot k holds some element that was at or after slot m *)
      assert (Hd : drop m (sweep b m (length a - (m + 1))) ≡ₚ drop m b).
      { apply (Permutation_app_inv_l (take m b)).
        rewrite take_drop.
        replace (take m b) with (take m (sweep b m (length a - (m + 1)))).
        - rewrite take_drop. apply sweep_perm.
        - apply list_eq. intros q.
          destruct (decide (q < m)%nat).
          + rewrite !lookup_take_lt by lia. apply Hout. lia.
          + rewrite !lookup_take_ge by lia. reflexivity. }
      assert (Hvin : v ∈ drop m b).
      { rewrite <- Hd. apply (list_elem_of_lookup_2 _ (k - m)).
        rewrite lookup_drop. replace (m + (k - m))%nat with k by lia. exact Hv. }
      apply list_elem_of_lookup_1 in Hvin as [q Hq]. rewrite lookup_drop in Hq.
      eapply (IH ltac:(lia) p (m + q)%nat); eauto; lia.
Qed.

Lemma ordered_StronglySorted (a : list neighbor_data_t) :
  (forall p k u v, (p < k)%nat -> a !! p = Some u -> a !! k = Some v -> not_below u v) ->
  StronglySorted not_below a.
Proof.
  induction a as [|w a IH]; intros H; constructor.
  - apply IH. intros p k u v Hpk Hu Hv. apply (H (S p) (S k)); auto; lia.
  - apply Forall_forall. intros v Hv.
    apply list_elem_of_lookup_1 in Hv as [q Hq].
    apply (H 0%nat (S q)); auto; lia.
Qed.

Lemma sort_neighbors_perm a : sort_neighbors a ≡ₚ a.
Proof. rewrite sort_neighbors_passes. apply passes_perm. Qed.

Lemma sort_neighbors_sorted a : StronglySorted not_below (sort_neighbors a).
Proof.
  rewrite sort_neighbors_passes. apply ordered_StronglySorted.
  intros p k u v Hpk Hu Hv.
  assert (Hk : (k < length a)%nat).
  { apply lookup_lt_Some in Hv. rewrite (Permutation_length (passes_perm _ _)) in Hv. lia. }
  eapply (passes_ordered a (length a - 1) ltac:(lia) p k); [ | | exact Hu | exact Hv ]; lia.
Qed.

End ExchangeSort.

(** ** Ranking in the sequence-numbered variant *)

Section Ranking.

Import MAv2 MAv2_aux.

Lemma collect_neighbors_cons serving s samples acc :
  collect_neighbors serving (s :: samples) acc
  = if (10 <=? length acc)%nat then acc
    else if valid_neighbor serving s
         then collect_neighbors serving samples (acc ++ [neighbor_data_of s])
         else collect_neighbors serving samples acc.
Proof.
  unfold valid_neighbor. cbn [collect_neighbors].
  destruct (10 <=? length acc)%nat; [reflexivity|].
  destruct ((neighbor_id s =? serving) || isnan (neighbor_sinr s) || (neighbor_id s =? 0));
    reflexivity.
Qed.

Lemma collect_neighbors_filter serving samples acc :
  (length acc + length (List.filter (valid_neighbor serving) samples) <= 10)%nat ->
  collect_neighbors serving samples acc
  = acc ++ map neighbor_data_of (List.filter (valid_neighbor serving) samples).
Proof.
  revert acc. induction samples as [|s samples IH]; intros acc Hlen.
  - symmetry. apply app_nil_r.
  - rewrite collect_neighbors_cons. cbn [List.filter] in *.
    destruct (valid_neighbor serving s); cbn [length map] in *.
    + destruct (10 <=? length acc)%nat eqn:Hfull.
      { apply Nat.leb_le in Hfull. lia. }
      rewrite IH by (rewrite length_app; simpl; lia).
      rewrite <- app_assoc. reflexivity.
    + destruct (10 <=? length acc)%nat eqn:Hfull; [|apply IH, Hlen].
      apply Nat.leb_le in Hfull.
      destruct (List.filter (valid_neighbor serving) samples); simpl in *; [|lia].
      symmetry. apply app_nil_r.
Qed.

Lemma collect_neighbors_valid serving samples acc n :
  n ∈ collect_neighbors serving samples acc ->
  n ∈ acc \/ exists s, s ∈ samples /\ valid_neighbor serving s = true /\ n = neighbor_data_of s.
Proof.
  revert acc. induction samples as [|s samples IH]; intros acc Hn.
  - left. exact Hn.
  - rewrite collect_neighbors_cons in Hn.
    destruct (10 <=? length acc)%nat; [left; exact Hn|].
    destruct (valid_neighbor serving s) eqn:Hvalid.
    + destruct (IH _ Hn) as [Hacc|(s' & ? & ? & ?)].
      * apply elem_of_app in Hacc as [?|Hs]; [left; assumption|].
        apply list_elem_of_singleton in Hs. right. exists s.
        split; [left|]. split; assumption.
      * right. exists s'. split; [right; assumption|]. split; assumption.
    + destruct (IH _ Hn) as [?|(s' & ? & ? & ?)]; [left; assumption|].
      right. exists s'. split; [right; assumption|]. split; assumption.
Qed.

Lemma rank_perm_collect ue_buf :
  rank ue_buf ≡ₚ collect_neighbors (servingCellID ue_buf) (current_samples ue_buf) [].
Proof. apply sort_neighbors_perm. Qed.

Lemma rank_valid ue_buf n :
  n ∈ rank ue_buf ->
  n_cellID n <> servingCellID ue_buf /\ isnan (sinr n) = false /\ n_cellID n <> 0.
Proof.
  intros Hn. rewrite rank_perm_collect in Hn.
  apply collect_neighbors_valid in Hn as [Hn|(s & _ & Hs & ->)].
  - inversion Hn.
  - unfold valid_neighbor in Hs. apply negb_true_iff in Hs.
    apply orb_false_iff in Hs as [Hs H0]. apply orb_false_iff in Hs as [Hid Hnan].
    simpl. repeat split; [apply Z.eqb_neq, Hid|exact Hnan|apply Z.eqb_neq, H0].
Qed.

Lemma select_top3_padding neighbors i :
  (length neighbors <= i < 3)%nat -> select_top3 neighbors !! i = Some zero_top.
Proof.
  intros [Hlo Hhi]. unfold select_top3.
  rewrite list_lookup_fmap, lookup_seq_lt by lia. simpl.
  destruct (3 <? length neighbors)%nat eqn:H3; [apply Nat.ltb_lt in H3; lia|].
  destruct (i <? length neighbors)%nat eqn:Hi; [apply Nat.ltb_lt in Hi; lia|].
  reflexivity.
Qed.

Lemma assign_sequence_timestamp_no_line T bs ue_id line :
  Sent line ∉ (assign_sequence_timestamp T bs ue_id).2.
Proof.
  unfold assign_sequence_timestamp.
  destruct (assigned bs ue_id); simpl; [apply not_elem_of_nil|].
  match goal with |- context [if ?c then _ else _] => destruct c end; simpl;
    intros H; repeat (apply elem_of_cons in H as [H|H]; [discriminate|]);
    inversion H.
Qed.

Lemma StronglySorted_within {A : Type} (R R' : A -> A -> Prop) (P : A -> Prop) (l : list A) :
  Forall P l -> (forall u v, P u -> P v -> R u v -> R' u v) ->
  StronglySorted R l -> StronglySorted R' l.
Proof.
  intros HP Himp Hs. induction Hs as [|u l Hs IH Hu]; constructor.
  - apply IH. eapply Forall_inv_tail, HP.
  - apply Forall_forall. intros v Hv.
    apply Himp; [eapply Forall_inv, HP| |].
    + apply Forall_inv_tail in HP. rewrite Forall_forall in HP. apply HP, Hv.
    + rewrite Forall_forall in Hu. apply Hu, Hv.
Qed.

(** C5, as the code has it: the ranking of the sequence-numbered variant is
    a permutation of the valid candidates in which no neighbour is followed
    by one with a larger metric. The order among candidates with equal
    metrics is whatever the exchanges leave; it is not the insertion order. *)
Theorem rank_is_descending_permutation (ue_buf : ue_buffer_t) :
  rank ue_buf ≡ₚ collect_neighbors (servingCellID ue_buf) (current_samples ue_buf) []
  /\ StronglySorted (fun u v => (sinr v <=? sinr u)%float = true) (rank ue_buf).
Proof.
  split; [apply rank_perm_collect|].
  apply (StronglySorted_within not_below _ (fun n => isnan (sinr n) = false)).
  - apply Forall_forall. intros n Hn. apply rank_valid in Hn. tauto.
  - intros u v Hu Hv Huv. apply ltb_false_leb; assumption.
  - apply sort_neighbors_sorted.
Qed.

(** C5, counterexample to stability: candidates 5 and 6 have the same
    metric and 5 is inserted first, yet 6 is ranked ahead of 5. *)
Lemma equal_metrics_rank_in_reverse :
  map id_and_metric
    (rank (sample_buffer 2 20.5 [candidate 5 1.0; candidate 6 1.0; candidate 7 2.0]))
  = [candidate 7 2.0; candidate 6 1.0; candidate 5 1.0].
Proof. vm_compute. reflexivity. Qed.

(** C8: a buffer whose current sample has fewer than MIN_NEIGHBORS_REQUIRED
    valid neighbours (not the serving cell, not NaN, id not zero) yields no
    line: [check_and_send_ue_data] returns without writing, and the
    iteration of the sending loop for this buffer adds no [Sent] event. *)
Theorem fewer_than_three_neighbors_not_sent (ue_buf : ue_buffer_t) (sequence : Z)
    (acc : burst_state * list event) (line : csv_line) :
  (length (List.filter (valid_neighbor (servingCellID ue_buf)) (current_samples ue_buf))
   < MIN_NEIGHBORS_REQUIRED)%nat ->
  check_and_send_ue_data ue_buf sequence = None
  /\ (Sent line ∈ snd (send_ue acc ue_buf) -> Sent line ∈ snd acc).
Proof.
  intros Hfew. unfold MIN_NEIGHBORS_REQUIRED in Hfew.
  assert (Hshort : forall sq, check_and_send_ue_data ue_buf sq = None).
  { intros sq. unfold check_and_send_ue_data.
    destruct (isnan _); [reflexivity|].
    assert (Hlen : length (rank ue_buf)
                   = length (List.filter (valid_neighbor (servingCellID ue_buf))
                                         (current_samples ue_buf))).
    { rewrite (Permutation_length (rank_perm_collect ue_buf)).
      rewrite collect_neighbors_filter by (simpl; lia).
      simpl. apply length_map. }
    rewrite Hlen. unfold MIN_NEIGHBORS_REQUIRED.
    apply Nat.ltb_lt in Hfew. rewrite Hfew. reflexivity. }
  split; [apply Hshort|].
  unfold send_ue. destruct (0 <? history_count ue_buf); [|auto].
  pose proof (assign_sequence_timestamp_no_line TOTAL_UES acc.1 (ueID ue_buf) line) as Hno.
  destruct (assign_sequence_timestamp TOTAL_UES acc.1 (ueID ue_buf)) as [[bs r] lines].
  rewrite Hshort. simpl in *. rewrite app_nil_r.
  intros H. apply elem_of_app in H as [H|H]; [exact H|contradiction].
Qed.

Lemma fewer_than_three_neighbors_not_sent_example :
  check_and_send_ue_data (sample_buffer 2 20.5 [candidate 5 12.0; candidate 6 9.0]) 7 = None
  /\ (Sent (Build_csv_line 0 0 0 0 0 0%float [])
        ∈ snd (send_ue (initial_burst_state TOTAL_UES, [])
                       (sample_buffer 2 20.5 [candidate 5 12.0; candidate 6 9.0])) ->
      Sent (Build_csv_line 0 0 0 0 0 0%float [])
        ∈ snd (initial_burst_state TOTAL_UES, @nil event)).
Proof.
  apply (fewer_than_three_neighbors_not_sent
           (sample_buffer 2 20.5 [candidate 5 12.0; candidate 6 9.0]) 7).
  vm_compute. lia.
Defined.

(** C4, counterexample. In the sequence-numbered variant a candidate with
    an infinite metric is ranked, and for the candidates (5, 12.0), (6, 9.0),
    (serving cell, 99.0), (7, NaN) no line is written at all, so no third
    slot is rendered; in the windowed variant the candidate of the serving
    cell is not excluded and is ranked first. *)
Lemma ranking_keeps_infinity_and_sends_nothing_for_two :
  (top3 <$> check_and_send_ue_data
              (sample_buffer 2 20.5
                 [candidate 5 infinity; candidate 6 9.0; candidate 7 8.0]) 0)
  = Some [ {| top_cell_id := 5; top_x := 550; top_y := 1233; top_sinr := infinity |};
           {| top_cell_id := 6; top_x := 300; top_y := 800; top_sinr := 9.0 |};
           {| top_cell_id := 7; top_x := 550; top_y := 366; top_sinr := 8.0 |} ]
  /\ check_and_send_ue_data
       (sample_buffer 2 20.5
          [candidate 5 12.0; candidate 6 9.0; candidate 2 99.0; candidate 7 nan]) 0
     = None
  /\ MA.neighborSINR
       (MA.point_of_measurement
          (MA_aux.measurement 0 1 2 20.5
             [candidate 5 12.0; candidate 6 9.0; candidate 2 99.0]))
     = [99.0; 12.0; 9.0]%float.
Proof. vm_compute. repeat split. Qed.



Lemma add_neighbor_sample_one_slot ue serving h count last id metric :
  add_neighbor_sample (one_slot_buffer ue serving h count last) id metric
  = if id =? serving then one_slot_buffer ue serving h count last
    else if (length (neighbor_samples h) <? 10)%nat
         then one_slot_buffer ue serving
                {| serving_sinr := serving_sinr h;
                   neighbor_samples :=
                     neighbor_samples h
                     ++ [ {| neighbor_id := id; neighbor_sinr := metric |} ];
                   timestamp := timestamp h |} count last
         else one_slot_buffer ue serving h count last.
Proof.
  unfold add_neighbor_sample. cbn [servingCellID one_slot_buffer].
  destruct (id =? serving); [reflexivity|].
  change (history_at _ _) with h. unfold active_neighbor_count.
  destruct (length (neighbor_samples h) <? 10)%nat; reflexivity.
Qed.

Lemma sample_buffer_example L serving_metric :
  L <> 5 -> L <> 6 ->
  exists tail,
    sample_buffer L serving_metric
      [candidate 5 12.0; candidate 6 9.0; candidate L 99.0; candidate 7 nan]
    = one_slot_buffer 1 L
        {| serving_sinr := serving_metric;
           neighbor_samples :=
             {| neighbor_id := 5; neighbor_sinr := 12.0 |}
             :: {| neighbor_id := 6; neighbor_sinr := 9.0 |} :: tail;
           timestamp := 0 |} 1 0
    /\ (tail = [] \/ tail = [ {| neighbor_id := 7; neighbor_sinr := nan |} ]).
Proof.
  intros HL5 HL6. apply Z.eqb_neq in HL5, HL6.
  unfold sample_buffer, candidate. cbn [fold_left fst snd].
  change (add_serving_sample (fresh_buffer 1) L serving_metric 0)
    with (one_slot_buffer 1 L {| serving_sinr := serving_metric;
                                neighbor_samples := []; timestamp := 0 |} 1 0).
  rewrite add_neighbor_sample_one_slot, (Z.eqb_sym 5 L), HL5.
  cbn [neighbor_samples length Nat.ltb Nat.leb app serving_sinr timestamp].
  rewrite add_neighbor_sample_one_slot, (Z.eqb_sym 6 L), HL6.
  cbn [neighbor_samples length Nat.ltb Nat.leb app serving_sinr timestamp].
  rewrite add_neighbor_sample_one_slot, Z.eqb_refl.
  rewrite add_neighbor_sample_one_slot.
  cbn [neighbor_samples length Nat.ltb Nat.leb app serving_sinr timestamp].
  destruct (7 =? L); eexists; (split; [reflexivity|]); [left|right]; reflexivity.
Qed.

(** C4, as the code has it (sequence-numbered variant): every ranked
    neighbour differs from the serving cell, has a metric that is not NaN
    and a non-zero id; with at most ten stored candidates the ranking is a
    permutation of exactly the stored candidates of that kind, infinite
    metrics included; the top-three selection holds (0, 0.0) in each slot
    beyond the ranking. For the candidates (5, 12.0), (6, 9.0),
    (L, 99.0), (7, NaN) under serving cell L the ranking is (5, 12.0),
    (6, 9.0), and no line is written for it. *)
Theorem rank_excludes_serving_nan_zero (ue_buf : ue_buffer_t) (L sequence : Z)
    (serving_metric : float) :
  L <> 5 -> L <> 6 ->
  (forall n, n ∈ rank ue_buf ->
     n_cellID n <> servingCellID ue_buf /\ isnan (sinr n) = false /\ n_cellID n <> 0)
  /\ ((length (current_samples ue_buf) <= 10)%nat ->
      rank ue_buf ≡ₚ map neighbor_data_of
                       (List.filter (valid_neighbor (servingCellID ue_buf))
                                    (current_samples ue_buf)))
  /\ (forall i, (length (rank ue_buf) <= i < 3)%nat ->
        select_top3 (rank ue_buf) !! i = Some zero_top)
  /\ map id_and_metric
       (rank (sample_buffer L serving_metric
                [candidate 5 12.0; candidate 6 9.0; candidate L 99.0; candidate 7 nan]))
     = [candidate 5 12.0; candidate 6 9.0]
  /\ check_and_send_ue_data
       (sample_buffer L serving_metric
          [candidate 5 12.0; candidate 6 9.0; candidate L 99.0; candidate 7 nan])
       sequence = None.
Proof.
  intros HL5 HL6.
  split; [intros n; apply rank_valid|].
  split.
  { intros Hten. rewrite rank_perm_collect, collect_neighbors_filter; [reflexivity|].
    simpl. etransitivity; [apply List.filter_length_le|exact Hten]. }
  split; [intros i; apply select_top3_padding|].
  destruct (sample_buffer_example L serving_metric HL5 HL6) as (tail & -> & Htail).
  assert (Hrank : rank (one_slot_buffer 1 L
                          {| serving_sinr := serving_metric;
                             neighbor_samples :=
                               {| neighbor_id := 5; neighbor_sinr := 12.0 |}
                               :: {| neighbor_id := 6; neighbor_sinr := 9.0 |} :: tail;
                             timestamp := 0 |} 1 0)
                  = [neighbor_data_of {| neighbor_id := 5; neighbor_sinr := 12.0 |};
                     neighbor_data_of {| neighbor_id := 6; neighbor_sinr := 9.0 |}]).
  { unfold rank. cbn [servingCellID one_slot_buffer history_idx].
    change (history_at _ _) with
      {| serving_sinr := serving_metric;
         neighbor_samples :=
           {| neighbor_id := 5; neighbor_sinr := 12.0 |}
           :: {| neighbor_id := 6; neighbor_sinr := 9.0 |} :: tail;
         timestamp := 0 |}.
    cbn [neighbor_samples].
    apply Z.eqb_neq in HL5, HL6.
    assert (Hf : List.filter (valid_neighbor L)
                   ({| neighbor_id := 5; neighbor_sinr := 12.0 |}
                    :: {| neighbor_id := 6; neighbor_sinr := 9.0 |} :: tail)
                 = [ {| neighbor_id := 5; neighbor_sinr := 12.0 |};
                     {| neighbor_id := 6; neighbor_sinr := 9.0 |} ]).
    { cbn [List.filter]. unfold valid_neighbor at 1 2. cbn [neighbor_id neighbor_sinr].
      rewrite (Z.eqb_sym 5 L), HL5, (Z.eqb_sym 6 L), HL6.
      change (isnan 12.0) with false. change (isnan 9.0) with false.
      cbn [orb negb Z.eqb]. 
      destruct Htail as [->| ->]; [reflexivity|].
      cbn [List.filter]. unfold valid_neighbor. cbn [neighbor_id neighbor_sinr].
      change (isnan nan) with true. rewrite orb_true_r. reflexivity. }
    rewrite collect_neighbors_filter; rewrite Hf; [|simpl; lia].
    vm_compute. reflexivity. }
  split; [rewrite Hrank; vm_compute; reflexivity|].
  unfold check_and_send_ue_data. rewrite Hrank.
  destruct (isnan _); reflexivity.
Qed.

Lemma rank_excludes_serving_nan_zero_example :
  (forall n, n ∈ rank (sample_buffer 2 20.5 [candidate 5 infinity; candidate 2 3.0]) ->
     n_cellID n <> servingCellID (sample_buffer 2 20.5 [candidate 5 infinity; candidate 2 3.0])
     /\ isnan (sinr n) = false /\ n_cellID n <> 0)
  /\ ((length (current_samples (sample_buffer 2 20.5 [candidate 5 infinity; candidate 2 3.0]))
       <= 10)%nat ->
      rank (sample_buffer 2 20.5 [candidate 5 infinity; candidate 2 3.0])
      ≡ₚ map neighbor_data_of
           (List.filter
              (valid_neighbor
                 (servingCellID (sample_buffer 2 20.5 [candidate 5 infinity; candidate 2 3.0])))
              (current_samples (sample_buffer 2 20.5 [candidate 5 infinity; candidate 2 3.0]))))
  /\ (forall i,
        (length (rank (sample_buffer 2 20.5 [candidate 5 infinity; candidate 2 3.0])) <= i < 3)%nat ->
        select_top3 (rank (sample_buffer 2 20.5 [candidate 5 infinity; candidate 2 3.0])) !! i
        = Some zero_top)
  /\ map id_and_metric
       (rank (sample_buffer 2 20.5
                [candidate 5 12.0; candidate 6 9.0; candidate 2 99.0; candidate 7 nan]))
     = [candidate 5 12.0; candidate 6 9.0]
  /\ check_and_send_ue_data
       (sample_buffer 2 20.5
          [candidate 5 12.0; candidate 6 9.0; candidate 2 99.0; candidate 7 nan])
       0 = None.
Proof.
  apply (rank_excludes_serving_nan_zero
           (sample_buffer 2 20.5 [candidate 5 infinity; candidate 2 3.0]) 2 0 20.5); lia.
Defined.

End Ranking.

(** ** Burst clock *)

Section BurstClockFacts.

Import MAv2 MAv2_aux.

Lemma clear_prefix_length (flags : list bool) (n : nat) :
  length (fold_left (fun fl i => <[i := false]> fl) (seq 0 n) flags) = length flags.
Proof.
  induction n as [|n IH]; [reflexivity|].
  rewrite seq_S, fold_left_app. simpl. rewrite length_insert. exact IH.
Qed.

Lemma clear_prefix_lookup (flags : list bool) (n k : nat) (b : bool) :
  fold_left (fun fl i => <[i := false]> fl) (seq 0 n) flags !! k = Some b ->
  (k < n)%nat -> b = false.
Proof.
  induction n as [|n IH]; intros Hk Hlt; [lia|].
  rewrite seq_S, fold_left_app in Hk. simpl in Hk.
  destruct (decide (k = n)) as [->|Hne].
  - rewrite list_lookup_insert_eq in Hk; [congruence|].
    apply lookup_lt_Some in Hk. rewrite length_insert in Hk. exact Hk.
  - rewrite list_lookup_insert_ne in Hk by congruence. apply IH; [exact Hk|lia].
Qed.

Lemma clear_assigned_all (T : nat) (flags : list bool) :
  length flags = T -> clear_assigned T flags = replicate T false.
Proof.
  intros Hlen. unfold clear_assigned. apply list_eq. intros k.
  destruct (decide (k < T)%nat) as [Hlt|Hge].
  - rewrite lookup_replicate_2 by exact Hlt.
    destruct (lookup_lt_is_Some_2
                (fold_left (fun fl i => <[i := false]> fl) (seq 0 (T + 1)) flags) k)
      as [b Hb].
    { rewrite clear_prefix_length. lia. }
    rewrite Hb. f_equal. eapply clear_prefix_lookup; [exact Hb|lia].
  - rewrite lookup_ge_None_2 by (rewrite clear_prefix_length; lia).
    symmetry. apply lookup_replicate_None. lia.
Qed.

(** The burst clock with the stores beyond the flags left out: for a UE
    id within both arrays, a call of [assign_sequence_timestamp] for a UE
    already recorded in the burst returns the recorded sequence number and leaves the state as it is; a
    first call in the burst returns the current sequence number, and either
    records the UE (count one higher, sequence number kept) or, when the
    count reaches TOTAL_UES, advances the sequence number by one (in
    [uint64_t]), sets the count to zero and clears every flag. With
    TOTAL_UES = 3 and distinct A, B, C the calls for A, B, A, C return 0 and
    the next call returns 1. *)
Theorem burst_clock_idempotent_and_advancing
    (T : nat) (bs : burst_state) (ue_id A B C X : Z) :
  length (burst_sequence_assigned bs) = T ->
  length (ue_sequence_timestamps bs) = (T + 1)%nat ->
  0 <= ue_id < Z.of_nat T ->
  0 <= A < 3 -> 0 <= B < 3 -> 0 <= C < 3 -> 0 <= X < 3 ->
  A <> B -> A <> C -> B <> C ->
  (let '(bs', r, _) := assign_sequence_timestamp T bs ue_id in
   length (burst_sequence_assigned bs') = T
   /\ length (ue_sequence_timestamps bs') = (T + 1)%nat
   /\ if assigned bs ue_id then bs' = bs /\ r = sequence_of bs ue_id
      else
        r = current_sequence_timestamp bs
        /\ if current_burst_ue_count bs + 1 <? Z.of_nat T then
             current_sequence_timestamp bs' = current_sequence_timestamp bs
             /\ current_burst_ue_count bs' = current_burst_ue_count bs + 1
             /\ assigned bs' ue_id = true
             /\ sequence_of bs' ue_id = current_sequence_timestamp bs
             /\ (forall u, 0 <= u -> u <> ue_id -> assigned bs' u = assigned bs u)
           else
             current_sequence_timestamp bs'
             = to_uint64 (current_sequence_timestamp bs + 1)
             /\ (0 <= current_sequence_timestamp bs < 2 ^ 64 - 1 ->
                 current_sequence_timestamp bs' = current_sequence_timestamp bs + 1)
             /\ current_burst_ue_count bs' = 0
             /\ burst_sequence_assigned bs' = replicate T false)
  /\ snd (assign_each 3 (initial_burst_state 3) [A; B; A; C; X]) = [0; 0; 0; 0; 1].
Proof.
  intros Hflags Hseqs Hue HA HB HC HX HAB HAC HBC. split.
  - unfold assign_sequence_timestamp.
    destruct (assigned bs ue_id) eqn:Hassigned.
    { repeat split; assumption. }
    cbn [current_sequence_timestamp current_burst_ue_count
         burst_sequence_assigned ue_sequence_timestamps].
    assert (Hi : (Z.to_nat ue_id < T)%nat) by lia.
    assert (Hret : forall flags count sq,
               sequence_of
                 {| current_sequence_timestamp := sq;
                    current_burst_ue_count := count;
                    burst_sequence_assigned := flags;
                    ue_sequence_timestamps :=
                      <[Z.to_nat ue_id := current_sequence_timestamp bs]>
                        (ue_sequence_timestamps bs) |} ue_id
               = current_sequence_timestamp bs).
    { intros. unfold sequence_of. cbn [ue_sequence_timestamps].
      rewrite list_lookup_insert_eq by lia. reflexivity. }
    rewrite (Z.leb_antisym (current_burst_ue_count bs + 1) (Z.of_nat T)).
    destruct (current_burst_ue_count bs + 1 <? Z.of_nat T) eqn:Hcount;
      cbn [negb current_sequence_timestamp current_burst_ue_count
           burst_sequence_assigned ue_sequence_timestamps].
    + rewrite !length_insert. repeat split; try assumption; try apply Hret.
      * unfold assigned. cbn [burst_sequence_assigned].
        rewrite list_lookup_insert_eq by lia. reflexivity.
      * intros u Hu Hne. unfold assigned. cbn [burst_sequence_assigned].
        rewrite list_lookup_insert_ne by lia. reflexivity.
    + rewrite clear_assigned_all by (rewrite length_insert; exact Hflags).
      rewrite length_replicate, length_insert.
      repeat split; try assumption; try apply Hret.
      intros Hrange. unfold to_uint64. apply Z.mod_small. lia.
  - assert (EA : A = 0 \/ A = 1 \/ A = 2) by lia.
    assert (EB : B = 0 \/ B = 1 \/ B = 2) by lia.
    assert (EC : C = 0 \/ C = 1 \/ C = 2) by lia.
    assert (EX : X = 0 \/ X = 1 \/ X = 2) by lia.
    destruct EA as [->|[->| ->]], EB as [->|[->| ->]], EC as [->|[->| ->]];
      try congruence;
      destruct EX as [->|[->| ->]]; vm_compute; reflexivity.
Qed.

Lemma burst_clock_idempotent_and_advancing_example :
  (let '(bs', r, _) :=
     assign_sequence_timestamp 3
       (burst_after 3 [0; 1]) 2 in
   length (burst_sequence_assigned bs') = 3%nat
   /\ length (ue_sequence_timestamps bs') = (3 + 1)%nat
   /\ if assigned (burst_after 3 [0; 1]) 2
      then bs' = burst_after 3 [0; 1]
           /\ r = sequence_of (burst_after 3 [0; 1]) 2
      else
        r = current_sequence_timestamp (burst_after 3 [0; 1])
        /\ if current_burst_ue_count (burst_after 3 [0; 1]) + 1
              <? Z.of_nat 3 then
             current_sequence_timestamp bs'
             = current_sequence_timestamp (burst_after 3 [0; 1])
             /\ current_burst_ue_count bs'
                = current_burst_ue_count (burst_after 3 [0; 1]) + 1
             /\ assigned bs' 2 = true
             /\ sequence_of bs' 2
                = current_sequence_timestamp (burst_after 3 [0; 1])
             /\ (forall u, 0 <= u -> u <> 2 ->
                   assigned bs' u
                   = assigned (burst_after 3 [0; 1]) u)
           else
             current_sequence_timestamp bs'
             = to_uint64
                 (current_sequence_timestamp
                    (burst_after 3 [0; 1]) + 1)
             /\ (0 <= current_sequence_timestamp
                        (burst_after 3 [0; 1]) < 2 ^ 64 - 1 ->
                 current_sequence_timestamp bs'
                 = current_sequence_timestamp
                     (burst_after 3 [0; 1]) + 1)
             /\ current_burst_ue_count bs' = 0
             /\ burst_sequence_assigned bs' = replicate 3 false)
  /\ snd (assign_each 3 (initial_burst_state 3) [2; 0; 2; 1; 2]) = [0; 0; 0; 0; 1].
Proof.
  apply (burst_clock_idempotent_and_advancing
           3 (burst_after 3 [0; 1]) 2 2 0 1 2);
    first [reflexivity | lia].
Defined.

Lemma checked_clear_prefix (flags : list bool) (n : nat) :
  (n <= length flags)%nat ->
  exists cleared,
    fold_left (fun acc i => fl ← acc; Checked.store fl i false) (seq 0 n) (Ok flags)
    = Ok cleared
    /\ length cleared = length flags.
Proof.
  induction n as [|n IH]; intros Hn; [exists flags; split; reflexivity|].
  destruct IH as (cleared & Hfold & Hlen); [lia|].
  rewrite seq_S, fold_left_app, Hfold. cbn [fold_left mbind outcome_bind Nat.add].
  unfold Checked.store. rewrite Hlen.
  destruct (Nat.ltb_spec n (length flags)) as [_|Hge]; [|lia].
  eexists. split; [reflexivity|]. rewrite length_insert. exact Hlen.
Qed.

(** The last store of the clearing loop is at index [TOTAL_UES] of an array
    of [TOTAL_UES] flags. *)
Lemma checked_clear_assigned_overruns (T : nat) (flags : list bool) :
  length flags = T -> Checked.clear_assigned T flags = OutOfBounds.
Proof.
  intros Hlen. unfold Checked.clear_assigned.
  destruct (checked_clear_prefix flags T) as (cleared & Hfold & Hlen'); [lia|].
  rewrite Nat.add_1_r, seq_S, fold_left_app, Hfold.
  cbn [fold_left mbind outcome_bind Nat.add]. unfold Checked.store.
  rewrite Hlen', Hlen, Nat.ltb_irrefl. reflexivity.
Qed.

(** A call that stays within the arrays is a call for a UE id below
    [TOTAL_UES] that does not complete a burst; it does what
    [assign_sequence_timestamp] does. *)
Lemma checked_assign_within (T : nat) (bs bs' : burst_state) (ue_id r : Z)
    (lines : list event) :
  length (burst_sequence_assigned bs) = T ->
  Forall (fun s => s = current_sequence_timestamp bs) (ue_sequence_timestamps bs) ->
  Checked.assign_sequence_timestamp T bs ue_id = Ok (bs', r, lines) ->
  (Z.to_nat ue_id < T)%nat
  /\ assign_sequence_timestamp T bs ue_id = (bs', r, lines)
  /\ length (burst_sequence_assigned bs') = T
  /\ current_sequence_timestamp bs' = current_sequence_timestamp bs
  /\ r = current_sequence_timestamp bs
  /\ Forall (fun s => s = current_sequence_timestamp bs) (ue_sequence_timestamps bs').
Proof.
  intros Hlen Hall. unfold Checked.assign_sequence_timestamp, assign_sequence_timestamp,
    Checked.load, assigned, sequence_of.
  destruct (burst_sequence_assigned bs !! Z.to_nat ue_id) as [flag|] eqn:Hflag;
    [|discriminate].
  pose proof (lookup_lt_Some _ _ _ Hflag) as Hlt. rewrite Hlen in Hlt.
  cbn [mbind outcome_bind default]. destruct flag.
  - destruct (ue_sequence_timestamps bs !! Z.to_nat ue_id) as [v|] eqn:Hv;
      [|discriminate].
    cbn [mbind outcome_bind default]. intros [= <- <- <-].
    repeat split; auto.
    rewrite Forall_forall in Hall. apply Hall. eapply list_elem_of_lookup_2, Hv.
  - unfold Checked.store.
    destruct (Nat.ltb_spec (Z.to_nat ue_id) (length (ue_sequence_timestamps bs)))
      as [Hseq|_]; [|discriminate].
    destruct (Nat.ltb_spec (Z.to_nat ue_id) (length (burst_sequence_assigned bs)))
      as [_|Hge]; [|lia].
    cbn [mbind outcome_bind current_sequence_timestamp current_burst_ue_count
         burst_sequence_assigned ue_sequence_timestamps].
    destruct (Z.of_nat T <=? current_burst_ue_count bs + 1).
    + rewrite checked_clear_assigned_overruns by (rewrite length_insert; exact Hlen).
      discriminate.
    + rewrite list_lookup_insert_eq by exact Hseq.
      cbn [mbind outcome_bind default]. intros [= <- <- <-].
      cbn [burst_sequence_assigned current_sequence_timestamp ue_sequence_timestamps].
      rewrite length_insert. repeat split; auto.
      apply Forall_insert; [exact Hall|reflexivity].
Qed.

Lemma assign_each_checked_within (T : nat) (ue_ids : list Z) : forall bs bs' returned,
  length (burst_sequence_assigned bs) = T ->
  Forall (fun s => s = current_sequence_timestamp bs) (ue_sequence_timestamps bs) ->
  assign_each_checked T bs ue_ids = Ok (bs', returned) ->
  assign_each T bs ue_ids = (bs', returned)
  /\ current_sequence_timestamp bs' = current_sequence_timestamp bs
  /\ Forall (fun r => r = current_sequence_timestamp bs) returned
  /\ Forall (fun ue_id => (Z.to_nat ue_id < T)%nat) ue_ids.
Proof.
  induction ue_ids as [|ue_id rest IH]; intros bs bs' returned Hlen Hall;
    cbn [assign_each_checked assign_each].
  - intros [= <- <-]. repeat split; constructor.
  - destruct (Checked.assign_sequence_timestamp T bs ue_id) as [[[bs1 r] lines]| |] eqn:Hcall;
      cbn [mbind outcome_bind]; try discriminate.
    destruct (checked_assign_within T bs bs1 ue_id r lines Hlen Hall Hcall)
      as (Hlt & Hsame & Hlen1 & Hseq1 & Hr & Hall1).
    rewrite Hsame.
    destruct (assign_each_checked T bs1 rest) as [[bs2 rs]| |] eqn:Hrest;
      cbn [mbind outcome_bind]; try discriminate.
    intros [= <- <-].
    rewrite <- Hseq1 in Hall1.
    destruct (IH bs1 bs2 rs Hlen1 Hall1 Hrest) as (Heach & Hseq2 & Hret & Hids).
    rewrite Heach, Hseq1 in *.
    repeat split; [exact Hseq2|constructor; assumption|constructor; assumption].
Qed.

(** C6, the defect: [burst_sequence_assigned] is declared with [TOTAL_UES]
    flags, while the UE ids run up to [TOTAL_UES] and the loop that clears
    the flags runs to [i <= TOTAL_UES], as they would for the
    [TOTAL_UES + 1] elements that [ue_sequence_timestamps] has. With every
    access checked against the declared extent: calls that all return have
    all returned 0 and left the sequence number at 0, were all for UE ids
    below [TOTAL_UES], and did what the unchecked clock does; a call for a
    UE id of [TOTAL_UES] or more reads a flag past the array, and a first
    call in the burst that brings the count to [TOTAL_UES] stores a flag
    past it. With [TOTAL_UES] 3, the calls for A, B, A return 0 and the
    call for C leaves the array; with the 28 of the source, the calls for
    UEs 1 to 27 return 0 and the call for UE 28 leaves the array, as does
    the last call of a burst of UEs 0 to 27. *)
Theorem burst_clock_overruns_flag_array :
  (forall (T : nat) (ue_ids : list Z),
     match assign_each_checked T (initial_burst_state T) ue_ids with
     | Ok (bs, returned) =>
         assign_each T (initial_burst_state T) ue_ids = (bs, returned)
         /\ current_sequence_timestamp bs = 0
         /\ Forall (fun r => r = 0) returned
         /\ Forall (fun ue_id => (Z.to_nat ue_id < T)%nat) ue_ids
     | AssertFail | OutOfBounds => True
     end)
  /\ (forall (T : nat) (bs : burst_state) (ue_id : Z),
        length (burst_sequence_assigned bs) = T ->
        (T <= Z.to_nat ue_id)%nat
        \/ (assigned bs ue_id = false /\ Z.of_nat T <= current_burst_ue_count bs + 1) ->
        Checked.assign_sequence_timestamp T bs ue_id = OutOfBounds)
  /\ assign_each_checked 3 (initial_burst_state 3) [0; 1; 0]
     = Ok (burst_after 3 [0; 1; 0], [0; 0; 0])
  /\ assign_each_checked 3 (initial_burst_state 3) [0; 1; 0; 2] = OutOfBounds
  /\ assign_each_checked TOTAL_UES (initial_burst_state TOTAL_UES) (ue_ids_from 1 27)
     = Ok (burst_after TOTAL_UES (ue_ids_from 1 27), replicate 27 0)
  /\ Checked.assign_sequence_timestamp TOTAL_UES
       (burst_after TOTAL_UES (ue_ids_from 1 27)) 28 = OutOfBounds
  /\ assign_each_checked TOTAL_UES (initial_burst_state TOTAL_UES) (ue_ids_from 0 28)
     = OutOfBounds.
Proof.
  split; [|split].
  - intros T ue_ids.
    destruct (assign_each_checked T (initial_burst_state T) ue_ids)
      as [[bs returned]| |] eqn:Heach; [|exact I..].
    apply (assign_each_checked_within T ue_ids (initial_burst_state T)); [| |exact Heach].
    + apply length_replicate.
    + cbn. apply Forall_forall. intros s Hs. apply elem_of_replicate in Hs as [-> _].
      reflexivity.
  - intros T bs ue_id Hlen Hcase.
    destruct (Nat.le_gt_cases T (Z.to_nat ue_id)) as [Hge|Hlt].
    + unfold Checked.assign_sequence_timestamp, Checked.load.
      rewrite (lookup_ge_None_2 (burst_sequence_assigned bs)) by lia. reflexivity.
    + destruct Hcase as [Hge|[Hflag Hfull]]; [lia|]. apply Z.leb_le in Hfull.
      unfold assigned in Hflag.
      unfold Checked.assign_sequence_timestamp, Checked.load.
      destruct (lookup_lt_is_Some_2 (burst_sequence_assigned bs) (Z.to_nat ue_id))
        as [flag Hlookup]; [lia|].
      rewrite Hlookup in Hflag |- *. cbn in Hflag. subst flag.
      cbn [mbind outcome_bind].
      unfold Checked.store.
      destruct (Z.to_nat ue_id <? length (ue_sequence_timestamps bs))%nat;
        [|reflexivity].
      destruct (Nat.ltb_spec (Z.to_nat ue_id) (length (burst_sequence_assigned bs)))
        as [_|Hge]; [|reflexivity].
      cbn [mbind outcome_bind current_sequence_timestamp current_burst_ue_count
           burst_sequence_assigned ue_sequence_timestamps].
      rewrite Hfull.
      rewrite checked_clear_assigned_overruns by (rewrite length_insert; exact Hlen).
      reflexivity.
  - vm_compute. repeat split.
Qed.

End BurstClockFacts.

(** ** UEs that never report a serving measurement *)

Section NeighborOnly.

Import MAv2 MAv2_aux.

Variable sscanf : string -> string -> option (Z * Z).

Lemma get_or_create_ue_buffer_spec bufs id i bufs' lines :
  get_or_create_ue_buffer bufs id = Some (i, bufs', lines) ->
  (exists b, bufs' !! i = Some b /\ ueID b = id)
  /\ (forall b, b ∈ bufs' -> b ∈ bufs \/ b = fresh_buffer id)
  /\ (forall u e, e ∈ lines -> names_ue u e = false).
Proof.
  unfold get_or_create_ue_buffer.
  destruct (list_find (fun b => ueID b = id) bufs) as [[j b]|] eqn:Hfind.
  - intros [= <- <- <-]. apply list_find_Some in Hfind as (Hj & Hb & _).
    repeat split.
    + exists b. split; assumption.
    + intros b' Hb'. left. exact Hb'.
    + intros u e He. inversion He.
  - destruct (length bufs <? 28)%nat; [|discriminate].
    intros [= <- <- <-]. repeat split.
    + exists (fresh_buffer id). split; [|reflexivity].
      rewrite lookup_app_r by lia. rewrite Nat.sub_diag. reflexivity.
    + intros b Hb. apply elem_of_app in Hb as [Hb|Hb]; [left; exact Hb|].
      right. apply list_elem_of_singleton in Hb. exact Hb.
    + intros u e He. apply list_elem_of_singleton in He as ->. reflexivity.
Qed.

Lemma elem_of_alter (f : ue_buffer_t -> ue_buffer_t) (i : nat) (bufs : list ue_buffer_t)
    (b : ue_buffer_t) :
  b ∈ alter f i bufs ->
  b ∈ bufs \/ exists b0, bufs !! i = Some b0 /\ b = f b0.
Proof.
  intros Hb. apply list_elem_of_lookup_1 in Hb as [j Hj].
  destruct (decide (i = j)) as [->|Hne].
  - rewrite list_lookup_alter_eq in Hj.
    destruct (bufs !! j) as [b0|] eqn:Hb0; [|discriminate].
    injection Hj as <-. right. exists b0. split; reflexivity.
  - rewrite list_lookup_alter_ne in Hj by exact Hne.
    left. eapply list_elem_of_lookup_2, Hj.
Qed.

Lemma add_neighbor_sample_history_count ue_buf id metric :
  history_count (add_neighbor_sample ue_buf id metric) = history_count ue_buf
  /\ ueID (add_neighbor_sample ue_buf id metric) = ueID ue_buf.
Proof.
  unfold add_neighbor_sample.
  destruct (id =? servingCellID ue_buf); [split; reflexivity|].
  destruct (active_neighbor_count _ <? 10)%nat; split; reflexivity.
Qed.

Lemma store_pairs_history_count records : forall ue_buf,
  history_count (MAv2.store_pairs ue_buf records) = history_count ue_buf
  /\ ueID (MAv2.store_pairs ue_buf records) = ueID ue_buf.
Proof.
  enough (H : (forall ue_buf,
                 history_count (MAv2.store_pairs ue_buf records) = history_count ue_buf
                 /\ ueID (MAv2.store_pairs ue_buf records) = ueID ue_buf)
              /\ (forall r ue_buf,
                    history_count (MAv2.store_pairs ue_buf (r :: records))
                    = history_count ue_buf
                    /\ ueID (MAv2.store_pairs ue_buf (r :: records)) = ueID ue_buf))
    by apply H.
  induction records as [|neighID records [IH1 IH2]].
  - split; intros; split; reflexivity.
  - split; [apply IH2|].
    intros r ue_buf. cbn [MAv2.store_pairs].
    destruct r as [i|v|]; try apply IH1.
    destruct neighID as [i|v'|]; try apply IH1.
    destruct (IH1 (add_neighbor_sample ue_buf (to_uint16 i) v)) as [-> ->].
    apply add_neighbor_sample_history_count.
Qed.

Lemma store_serving_untouched u ts st item :
  (forall info metric, serving_sample sscanf item = Some (info, metric) -> info_ueID info <> u) ->
  untouched u st -> untouched u (MAv2.store_serving sscanf ts st item).
Proof.
  intros Hitem [Hbufs Hevents]. unfold MAv2.store_serving.
  destruct (serving_sample sscanf item) as [[info metric]|]; [|split; assumption].
  specialize (Hitem info metric eq_refl).
  destruct (get_or_create_ue_buffer (ue_buffers st) (info_ueID info))
    as [[[i bufs] lines]|] eqn:Hget; [|split; assumption].
  apply get_or_create_ue_buffer_spec in Hget as ((b0 & Hb0 & Hid) & Hfrom & Hlines).
  split; cbn [ue_buffers events].
  - intros b Hb Hu. apply elem_of_alter in Hb as [Hb|(b1 & Hb1 & ->)].
    + destruct (Hfrom b Hb) as [Hold| ->]; [apply Hbufs; assumption|reflexivity].
    + rewrite Hb0 in Hb1. injection Hb1 as <-. simpl in Hu. congruence.
  - intros e He. apply elem_of_app in He as [He|He]; [apply Hevents, He|].
    eapply Hlines, He.
Qed.

Lemma store_neighbors_untouched u st item :
  untouched u st -> untouched u (MAv2.store_neighbors sscanf st item).
Proof.
  intros [Hbufs Hevents]. unfold MAv2.store_neighbors.
  destruct (neighbor_list sscanf item) as [[info records]|]; [|split; assumption].
  destruct (get_or_create_ue_buffer (ue_buffers st) (info_ueID info))
    as [[[i bufs] lines]|] eqn:Hget; [|split; assumption].
  apply get_or_create_ue_buffer_spec in Hget as (_ & Hfrom & Hlines).
  assert (Hall : forall b, b ∈ bufs -> ueID b = u -> history_count b = 0).
  { intros b Hb Hu. destruct (Hfrom b Hb) as [Hold| ->]; [apply Hbufs; assumption|reflexivity]. }
  split; cbn [ue_buffers events].
  - intros b Hb Hu. apply elem_of_alter in Hb as [Hb|(b1 & Hb1 & ->)].
    + apply Hall; assumption.
    + destruct (store_pairs_history_count records b1) as [Hc Hi].
      rewrite Hc. apply Hall; [eapply list_elem_of_lookup_2, Hb1|congruence].
  - intros e He. apply elem_of_app in He as [He|He]; [apply Hevents, He|].
    eapply Hlines, He.
Qed.

Lemma fold_store_serving_untouched u ts items : forall st,
  (forall item info metric, item ∈ items ->
     serving_sample sscanf item = Some (info, metric) -> info_ueID info <> u) ->
  untouched u st -> untouched u (fold_left (MAv2.store_serving sscanf ts) items st).
Proof.
  induction items as [|item items IH]; intros st Hitems Hst; [exact Hst|].
  simpl. apply IH.
  - intros item' info metric Hin. apply Hitems. right. exact Hin.
  - apply store_serving_untouched; [|exact Hst].
    intros info metric. apply Hitems. left.
Qed.

Lemma fold_store_neighbors_untouched u items : forall st,
  untouched u st -> untouched u (fold_left (MAv2.store_neighbors sscanf) items st).
Proof.
  induction items as [|item items IH]; intros st Hst; [exact Hst|].
  simpl. apply IH, store_neighbors_untouched, Hst.
Qed.

Lemma assign_sequence_timestamp_names T bs ue_id u e :
  ue_id <> u -> e ∈ (assign_sequence_timestamp T bs ue_id).2 -> names_ue u e = false.
Proof.
  intros Hne. unfold assign_sequence_timestamp.
  destruct (assigned bs ue_id); simpl; [intros He; inversion He|].
  match goal with |- context [if ?c then _ else _] => destruct c end; simpl;
    intros He;
    repeat (apply elem_of_cons in He as [->|He]; [simpl; apply Z.eqb_neq, Hne|]);
    try (apply elem_of_cons in He as [->|He]; [reflexivity|]);
    inversion He.
Qed.

Lemma send_ue_names u acc ue_buf :
  (ueID ue_buf = u -> history_count ue_buf = 0) ->
  (forall e, e ∈ snd acc -> names_ue u e = false) ->
  forall e, e ∈ snd (send_ue acc ue_buf) -> names_ue u e = false.
Proof.
  intros Hbuf Hacc e. unfold send_ue.
  destruct (0 <? history_count ue_buf) eqn:Hcount; [|apply Hacc].
  assert (Hne : ueID ue_buf <> u).
  { intros Hu. rewrite (Hbuf Hu) in Hcount. discriminate. }
  pose proof (assign_sequence_timestamp_names TOTAL_UES acc.1 (ueID ue_buf) u) as Hassign.
  destruct (assign_sequence_timestamp TOTAL_UES acc.1 (ueID ue_buf)) as [[bs r] lines].
  simpl in *. intros He.
  apply elem_of_app in He as [He|He]; [apply Hacc, He|].
  apply elem_of_app in He as [He|He]; [apply Hassign; assumption|].
  unfold check_and_send_ue_data in He.
  destruct (isnan _); [inversion He|].
  destruct (length (rank ue_buf) <? MIN_NEIGHBORS_REQUIRED)%nat; [inversion He|].
  apply list_elem_of_singleton in He as ->. simpl. apply Z.eqb_neq, Hne.
Qed.

Lemma fold_send_ue_names u bufs : forall acc,
  (forall b, b ∈ bufs -> ueID b = u -> history_count b = 0) ->
  (forall e, e ∈ snd acc -> names_ue u e = false) ->
  forall e, e ∈ snd (fold_left send_ue bufs acc) -> names_ue u e = false.
Proof.
  induction bufs as [|b bufs IH]; intros acc Hbufs Hacc; [exact Hacc|].
  simpl. apply IH.
  - intros b' Hb'. apply Hbufs. right. exact Hb'.
  - apply send_ue_names; [|exact Hacc]. apply Hbufs. left.
Qed.

Lemma log_kpm_measurements_untouched u st msg_frm_1 ts st' :
  (forall item info metric,
     item ∈ zip (meas_info_lst msg_frm_1) (meas_data_lst msg_frm_1) ->
     serving_sample sscanf item = Some (info, metric) -> info_ueID info <> u) ->
  untouched u st ->
  MAv2.log_kpm_measurements sscanf st msg_frm_1 ts = Ok st' ->
  untouched u st'.
Proof.
  intros Hitems Hst. unfold MAv2.log_kpm_measurements.
  destruct (length (meas_info_lst msg_frm_1) =? 0)%nat; [discriminate|].
  destruct (negb _); [intros [= <-]; exact Hst|].
  pose proof (fold_store_neighbors_untouched u
                (zip (meas_info_lst msg_frm_1) (meas_data_lst msg_frm_1)) _
                (fold_store_serving_untouched u ts _ st Hitems Hst)) as [Hbufs Hevents].
  set (st2 := fold_left (MAv2.store_neighbors sscanf) _ _) in *.
  pose proof (fold_send_ue_names u (ue_buffers st2) (burst st2, events st2) Hbufs Hevents)
    as Hsend.
  destruct (fold_left send_ue (ue_buffers st2) (burst st2, events st2)) as [bs evs].
  intros [= <-]. split; [exact Hbufs|exact Hsend].
Qed.

Lemma run_untouched u indications : forall st,
  (forall msg_frm_1 ts item info metric,
     (msg_frm_1, ts) ∈ indications ->
     item ∈ zip (meas_info_lst msg_frm_1) (meas_data_lst msg_frm_1) ->
     serving_sample sscanf item = Some (info, metric) -> info_ueID info <> u) ->
  untouched u st -> untouched u (run sscanf st indications).
Proof.
  induction indications as [|[msg_frm_1 ts] rest IH]; intros st Hitems Hst; [exact Hst|].
  simpl.
  destruct (MAv2.log_kpm_measurements sscanf st msg_frm_1 ts) as [st'| |] eqn:Hlog;
    try exact Hst.
  apply IH.
  - intros m t item info metric Hin. apply (Hitems m t). right. exact Hin.
  - eapply log_kpm_measurements_untouched; [|exact Hst|exact Hlog].
    intros item info metric. apply (Hitems msg_frm_1 ts). left.
Qed.

(** C10: in a run from the initial state in which no accepted serving
    measurement names the UE [u], whatever neighbour lists name it, no
    sequence number is assigned to [u] and no line is sent for it; the
    buffers of [u] keep a history count of zero, and a neighbour sample
    never changes the history count. *)
Theorem neighbor_only_ue_never_assigned_nor_sent
    (indications : list (kpm_ind_msg_format_1_t * Z)) (u : Z) :
  (forall msg_frm_1 ts item info metric,
     (msg_frm_1, ts) ∈ indications ->
     item ∈ zip (meas_info_lst msg_frm_1) (meas_data_lst msg_frm_1) ->
     serving_sample sscanf item = Some (info, metric) -> info_ueID info <> u) ->
  (forall e, e ∈ events (run sscanf initial_state indications) -> names_ue u e = false)
  /\ (forall b, b ∈ ue_buffers (run sscanf initial_state indications) ->
        ueID b = u -> history_count b = 0)
  /\ (forall ue_buf id metric,
        history_count (add_neighbor_sample ue_buf id metric) = history_count ue_buf).
Proof.
  intros Hitems.
  destruct (run_untouched u indications initial_state Hitems) as [Hbufs Hevents].
  { split; intros x Hx; inversion Hx. }
  repeat split; [exact Hevents|exact Hbufs|].
  intros. apply add_neighbor_sample_history_count.
Qed.

End NeighborOnly.

(** ** Adaptive windows *)

Section Windows.

Import MA MA_aux.

Lemma find_ue_window_insert ws id i w w' :
  find_ue_window ws id = Some (i, w) -> ue_id w' = id ->
  find_ue_window (<[i := w']> ws) id = Some (i, w').
Proof.
  unfold find_ue_window. intros Hfind Hid.
  apply list_find_Some in Hfind as (Hi & _ & Hfirst).
  apply list_find_Some. repeat split.
  - apply list_lookup_insert_eq. eapply lookup_lt_Some, Hi.
  - exact Hid.
  - intros j y Hj Hlt. rewrite list_lookup_insert_ne in Hj by lia.
    eapply Hfirst; eassumption.
Qed.

Lemma find_ue_window_fresh ws id :
  find_ue_window ws id = None ->
  find_ue_window (ws ++ [fresh_window id]) id = Some (length ws, fresh_window id).
Proof.
  unfold find_ue_window. intros Hfind.
  apply list_find_None in Hfind. rewrite Forall_forall in Hfind.
  apply list_find_Some. repeat split.
  - rewrite lookup_app_r by lia. rewrite Nat.sub_diag. reflexivity.
  - intros j y Hj Hlt. rewrite lookup_app_l in Hj by lia.
    apply Hfind. eapply list_elem_of_lookup_2, Hj.
Qed.

Lemma find_ue_window_ue_id ws id i w :
  find_ue_window ws id = Some (i, w) -> ue_id w = id /\ ws !! i = Some w.
Proof.
  unfold find_ue_window. intros Hfind.
  apply list_find_Some in Hfind as (Hi & Hid & _). split; assumption.
Qed.

Lemma add_to_window_ue_id w point w' sent :
  add_to_window w point = Ok (w', sent) -> ue_id w' = ue_id w.
Proof.
  unfold add_to_window, push_point.
  destruct ((count w =? 0)%nat || (current_serving_cell w =? servingCellID point)).
  - destruct (count w =? 0)%nat; cbn [count buffer];
      destruct (BUFFER_SLOTS <=? _)%nat; try discriminate; cbn;
      destruct (5000 <=? _); intros [= <- _]; reflexivity.
  - cbn. intros [= <- _]. reflexivity.
Qed.

Lemma add_to_adaptive_window_found st point i w :
  find_ue_window (ue_windows st) (ueID point) = Some (i, w) ->
  add_to_adaptive_window st point
  = '(w', sent) ← add_to_window w point;
    Ok {| ue_windows := <[i := w']> (ue_windows st);
          measurements := measurements st;
          emitted := emitted st ++ sent |}.
Proof. intros Hfind. unfold add_to_adaptive_window. rewrite Hfind. reflexivity. Qed.

(** An entity without a window, while the table has room, is treated as one
    with a window just cleared. *)
Lemma add_to_adaptive_window_created st point :
  find_ue_window (ue_windows st) (ueID point) = None ->
  (length (ue_windows st) < MAX_UE_COUNT)%nat ->
  add_to_adaptive_window st point
  = add_to_adaptive_window
      {| ue_windows := ue_windows st ++ [fresh_window (ueID point)];
         measurements := measurements st; emitted := emitted st |} point.
Proof.
  intros Hfind Hroom. unfold add_to_adaptive_window at 1.
  rewrite Hfind. unfold create_ue_window.
  destruct (MAX_UE_COUNT <=? length (ue_windows st))%nat eqn:Hfull.
  { apply Nat.leb_le in Hfull. lia. }
  erewrite add_to_adaptive_window_found
    by (cbn [ue_windows]; apply find_ue_window_fresh, Hfind).
  reflexivity.
Qed.

(** The three moves of a window on a sample of its serving cell. *)
Lemma add_to_window_first w point :
  buffer w = [] ->
  add_to_window w point
  = Ok ({| ue_id := ue_id w; current_serving_cell := servingCellID point;
           window_start_time := timestamp point; window_active := true;
           buffer := [point] |}, []).
Proof.
  intros Hempty. unfold add_to_window, push_point, count. rewrite Hempty.
  cbn. rewrite Z.sub_diag. reflexivity.
Qed.

Lemma add_to_window_append w point :
  buffer w <> [] -> current_serving_cell w = servingCellID point ->
  (count w < BUFFER_SLOTS)%nat ->
  to_uint64 (timestamp point - window_start_time w) < 5000 ->
  add_to_window w point
  = Ok ({| ue_id := ue_id w; current_serving_cell := current_serving_cell w;
           window_start_time := window_start_time w;
           window_active := window_active w;
           buffer := buffer w ++ [point] |}, []).
Proof.
  intros Hne Hcell Hroom Hearly. unfold add_to_window, push_point.
  rewrite Hcell, Z.eqb_refl, orb_true_r.
  assert (Hcount : (count w =? 0)%nat = false).
  { apply Nat.eqb_neq. unfold count. destruct (buffer w); [congruence|simpl; lia]. }
  rewrite Hcount.
  destruct (BUFFER_SLOTS <=? count w)%nat eqn:Hfull.
  { apply Nat.leb_le in Hfull. lia. }
  cbn. apply Z.leb_gt in Hearly. rewrite Hearly, Hcell. reflexivity.
Qed.

Lemma add_to_window_close w point :
  buffer w <> [] -> current_serving_cell w = servingCellID point ->
  (count w < BUFFER_SLOTS)%nat ->
  5000 <= to_uint64 (timestamp point - window_start_time w) ->
  add_to_window w point
  = Ok (reset_window w (timestamp point),
        send_window_batch_to_python
          {| ue_id := ue_id w; current_serving_cell := current_serving_cell w;
             window_start_time := window_start_time w;
             window_active := window_active w;
             buffer := buffer w ++ [point] |}).
Proof.
  intros Hne Hcell Hroom Hlate. unfold add_to_window, push_point.
  rewrite Hcell, Z.eqb_refl, orb_true_r.
  assert (Hcount : (count w =? 0)%nat = false).
  { apply Nat.eqb_neq. unfold count. destruct (buffer w); [congruence|simpl; lia]. }
  rewrite Hcount.
  destruct (BUFFER_SLOTS <=? count w)%nat eqn:Hfull.
  { apply Nat.leb_le in Hfull. lia. }
  cbn. apply Z.leb_le in Hlate. rewrite Hlate, Hcell. reflexivity.
Qed.

Lemma add_to_window_change w point :
  buffer w <> [] -> current_serving_cell w <> servingCellID point ->
  add_to_window w point
  = Ok ({| ue_id := ue_id w; current_serving_cell := servingCellID point;
           window_start_time := timestamp point; window_active := true;
           buffer := [point] |},
        send_window_batch_to_python w).
Proof.
  intros Hne Hcell. unfold add_to_window, push_point.
  apply Z.eqb_neq in Hcell. rewrite Hcell.
  assert (Hcount : (count w =? 0)%nat = false).
  { apply Nat.eqb_neq. unfold count. destruct (buffer w); [congruence|simpl; lia]. }
  rewrite Hcount.
  assert (Hpos : (0 <? count w)%nat = true).
  { apply Nat.ltb_lt. apply Nat.eqb_neq in Hcount. lia. }
  rewrite Hpos. reflexivity.
Qed.

Lemma send_window_batch_to_python_one w :
  buffer w <> [] ->
  exists line,
    send_window_batch_to_python w = [line]
    /\ line_ue_id line = ue_id w
    /\ line_serving_cell line = current_serving_cell w
    /\ avg_serving_sinr line
       = (sum_double (map servingSINR (buffer w)) / double_of_Z (Z.of_nat (count w)))%float
    /\ avg_neighbor_sinr line
       = map (fun j =>
                (sum_double (map (fun p => nth j (neighborSINR p) 0%float) (buffer w))
                 / double_of_Z (Z.of_nat (count w)))%float)
             (seq 0 3).
Proof.
  intros Hne. unfold send_window_batch_to_python.
  destruct (last (buffer w)) as [last_point|] eqn:Hlast.
  - eexists. split; [reflexivity|]. repeat split.
  - apply last_None in Hlast. contradiction.
Qed.

Lemma sum_timestamps_mod (points : list measurement_point_t) : forall acc,
  fold_left (fun acc p => to_uint64 (acc + timestamp p)) points (to_uint64 acc)
  = to_uint64 (acc + foldr Z.add 0 (map timestamp points)).
Proof.
  induction points as [|p points IH]; intros acc; cbn [fold_left map foldr].
  - rewrite Z.add_0_r. reflexivity.
  - rewrite IH. unfold to_uint64. rewrite <- Z.add_assoc, Zplus_mod_idemp_l. reflexivity.
Qed.

Lemma send_window_batch_to_python_means w :
  buffer w <> [] ->
  exists line last_point,
    send_window_batch_to_python w = [line]
    /\ line_ue_id line = ue_id w
    /\ line_serving_cell line = current_serving_cell w
    /\ avg_serving_sinr line = arithmetic_mean (map servingSINR (buffer w))
    /\ avg_neighbor_sinr line
       = map (fun j => arithmetic_mean
                         (map (fun p => nth j (neighborSINR p) 0%float) (buffer w)))
             [0; 1; 2]%nat
    /\ avg_timestamp line
       = to_uint64 (foldr Z.add 0 (map timestamp (buffer w))) / Z.of_nat (count w)
    /\ last (buffer w) = Some last_point
    /\ line_x line = servingCellX last_point
    /\ line_y line = servingCellY last_point.
Proof.
  intros Hne. unfold send_window_batch_to_python.
  destruct (last (buffer w)) as [last_point|] eqn:Hlast.
  - eexists _, last_point. split; [reflexivity|].
    cbn [line_ue_id line_serving_cell avg_serving_sinr avg_neighbor_sinr avg_timestamp
         line_x line_y].
    split; [reflexivity|]. split; [reflexivity|].
    split; [unfold arithmetic_mean, sum_double, count; rewrite length_map; reflexivity|].
    split; [unfold arithmetic_mean, sum_double, count; cbn [seq map];
            rewrite !length_map; reflexivity|].
    split; [|repeat split].
    change 0 with (to_uint64 0) at 1. rewrite sum_timestamps_mod. reflexivity.
  - apply last_None in Hlast. contradiction.
Qed.

(** C1: a sample of another serving cell for an entity whose window holds
    N >= 1 samples under cell L sends exactly one line and leaves the
    entity with a window that holds the new sample alone, under the new
    cell and starting at its time; the windows of the other entities are
    as before. The line is the summary of the N samples under L: it names
    the entity and L, its serving value and its three neighbour values are
    the arithmetic means of the N samples' values, its time is the sum of
    their times (modulo 2^64) divided by N, and its position is that of
    the last of them. *)
Theorem serving_cell_change_flushes
    (st : state) (point : measurement_point_t) (i : nat) (w : ue_adaptive_window_t)
    (N : nat) (L : Z) :
  find_ue_window (ue_windows st) (ueID point) = Some (i, w) ->
  count w = N -> (1 <= N)%nat ->
  current_serving_cell w = L -> servingCellID point <> L ->
  exists st' line last_point,
    add_to_adaptive_window st point = Ok st'
    /\ emitted st' = emitted st ++ [line]
    /\ line_ue_id line = ueID point
    /\ line_serving_cell line = L
    /\ avg_serving_sinr line = arithmetic_mean (map servingSINR (buffer w))
    /\ avg_neighbor_sinr line
       = map (fun j => arithmetic_mean
                         (map (fun p => nth j (neighborSINR p) 0%float) (buffer w)))
             [0; 1; 2]%nat
    /\ avg_timestamp line
       = to_uint64 (foldr Z.add 0 (map timestamp (buffer w))) / Z.of_nat N
    /\ last (buffer w) = Some last_point
    /\ line_x line = servingCellX last_point
    /\ line_y line = servingCellY last_point
    /\ ue_windows st'
       = <[i := {| ue_id := ueID point;
                   current_serving_cell := servingCellID point;
                   window_start_time := timestamp point;
                   window_active := true;
                   buffer := [point] |}]> (ue_windows st)
    /\ measurements st' = measurements st.
Proof.
  intros Hfind HN Hpos HL Hcell.
  assert (Hne : buffer w <> []).
  { intros Hempty. unfold count in HN. rewrite Hempty in HN. simpl in HN. lia. }
  destruct (send_window_batch_to_python_means w Hne)
    as (line & last_point & Hline & Hue & Hserving & Havg & Hnbr & Htime & Hlast & Hx & Hy).
  destruct (find_ue_window_ue_id _ _ _ _ Hfind) as [Hid _].
  rewrite (add_to_adaptive_window_found _ _ _ _ Hfind).
  rewrite add_to_window_change by congruence.
  cbn [mbind outcome_bind]. rewrite Hline.
  eexists _, line, last_point. split; [reflexivity|].
  cbn [emitted ue_windows measurements]. rewrite HN in Htime. rewrite Hid.
  repeat split; try assumption; congruence.
Qed.

Lemma serving_cell_change_flushes_example :
  exists st' line last_point,
    add_to_adaptive_window
      {| ue_windows := [two_sample_window];
         measurements := []; emitted := [] |}
      (point_of_measurement (measurement 200 1 3 7.5 [])) = Ok st'
    /\ emitted st' = [] ++ [line]
    /\ line_ue_id line = 1
    /\ line_serving_cell line = 2
    /\ avg_serving_sinr line = arithmetic_mean [10.0; 14.0]%float
    /\ avg_neighbor_sinr line
       = map (fun j => arithmetic_mean
                         (map (fun p => nth j (neighborSINR p) 0%float)
                              (buffer two_sample_window)))
             [0; 1; 2]%nat
    /\ avg_timestamp line = to_uint64 (0 + (100 + 0)) / Z.of_nat 2
    /\ last (buffer two_sample_window) = Some last_point
    /\ line_x line = servingCellX last_point
    /\ line_y line = servingCellY last_point
    /\ ue_windows st'
       = <[0%nat := {| ue_id := 1; current_serving_cell := 3;
                       window_start_time := 200; window_active := true;
                       buffer := [point_of_measurement (measurement 200 1 3 7.5 [])] |}]>
           [two_sample_window]
    /\ measurements st' = [].
Proof.
  apply (serving_cell_change_flushes
           {| ue_windows := [two_sample_window];
              measurements := []; emitted := [] |}
           (point_of_measurement (measurement 200 1 3 7.5 [])) 0%nat
           two_sample_window
           2%nat 2);
    first [reflexivity | simpl; lia].
Defined.

Lemma add_each_app ps : forall w qs,
  add_each w (ps ++ qs)
  = '(w1, sent1) ← add_each w ps;
    '(w2, sent2) ← add_each w1 qs;
    Ok (w2, sent1 ++ sent2).
Proof.
  induction ps as [|p ps IH]; intros w qs; cbn [add_each app].
  - cbn. destruct (add_each w qs) as [[w2 sent2]| |]; reflexivity.
  - destruct (add_to_window w p) as [[w1 sent1]| |]; cbn; try reflexivity.
    rewrite IH.
    destruct (add_each w1 ps) as [[w2 sent2]| |]; cbn; try reflexivity.
    destruct (add_each w2 qs) as [[w3 sent3]| |]; cbn; try reflexivity.
    rewrite app_assoc. reflexivity.
Qed.

Lemma add_each_append ps : forall w,
  buffer w <> [] ->
  Forall (fun p => servingCellID p = current_serving_cell w
                   /\ to_uint64 (timestamp p - window_start_time w) < 5000) ps ->
  (count w + length ps <= BUFFER_SLOTS)%nat ->
  add_each w ps
  = Ok ({| ue_id := ue_id w; current_serving_cell := current_serving_cell w;
           window_start_time := window_start_time w;
           window_active := window_active w;
           buffer := buffer w ++ ps |}, []).
Proof.
  induction ps as [|p ps IH]; intros w Hne Hall Hroom.
  - cbn. rewrite app_nil_r. destruct w; reflexivity.
  - apply Forall_cons in Hall as [[Hcell Hearly] Hall]. cbn [add_each length] in *.
    rewrite add_to_window_append by (try assumption; try congruence; lia).
    cbn. rewrite IH.
    + cbn. rewrite <- app_assoc. reflexivity.
    + cbn. destruct (buffer w); discriminate.
    + exact Hall.
    + unfold count in *. cbn. rewrite length_app. simpl. lia.
Qed.

Lemma add_points_found ue ms : forall st i w,
  find_ue_window (ue_windows st) ue = Some (i, w) ->
  Forall (fun m => m_ueID m = ue) ms ->
  add_points st ms
  = '(w', sent) ← add_each w (map point_of_measurement ms);
    Ok {| ue_windows := <[i := w']> (ue_windows st);
          measurements := measurements st;
          emitted := emitted st ++ sent |}.
Proof.
  induction ms as [|m ms IH]; intros st i w Hfind Hall.
  - cbn. destruct (find_ue_window_ue_id _ _ _ _ Hfind) as [_ Hi].
    rewrite list_insert_id by exact Hi. rewrite app_nil_r. destruct st; reflexivity.
  - apply Forall_cons in Hall as [Hue Hall]. cbn [add_points map add_each].
    rewrite (add_to_adaptive_window_found st (point_of_measurement m) i w)
      by (cbn; rewrite Hue; exact Hfind).
    destruct (add_to_window w (point_of_measurement m)) as [[w1 sent1]| |] eqn:Hadd;
      cbn; try reflexivity.
    rewrite (IH _ i w1); cbn [ue_windows measurements emitted].
    + destruct (add_each w1 (map point_of_measurement ms)) as [[w2 sent2]| |];
        cbn; try reflexivity.
      rewrite list_insert_insert_eq, app_assoc. reflexivity.
    + apply find_ue_window_insert with (w := w); [exact Hfind|].
      rewrite (add_to_window_ue_id _ _ _ _ Hadd).
      apply (find_ue_window_ue_id _ _ _ _ Hfind).
    + exact Hall.
Qed.

(** The six samples of C2 on an empty window. *)
Lemma add_each_six w (ps : list measurement_point_t) (L : Z) :
  buffer w = [] ->
  map timestamp ps = [0; 1000; 2000; 3000; 4000; 5000] ->
  Forall (fun p => servingCellID p = L) ps ->
  (forall k, (1 <= k <= 5)%nat ->
     add_each w (take k ps)
     = Ok ({| ue_id := ue_id w; current_serving_cell := L; window_start_time := 0;
              window_active := true; buffer := take k ps |}, []))
  /\ add_each w ps
     = Ok ({| ue_id := ue_id w; current_serving_cell := 0; window_start_time := 5000;
              window_active := false; buffer := [] |},
           send_window_batch_to_python
             {| ue_id := ue_id w; current_serving_cell := L; window_start_time := 0;
                window_active := true; buffer := ps |}).
Proof.
  intros Hempty Hts Hcells.
  destruct ps as [|p0 [|p1 [|p2 [|p3 [|p4 [|p5 [|]]]]]]]; try discriminate.
  injection Hts as Ht0 Ht1 Ht2 Ht3 Ht4 Ht5.
  apply Forall_cons in Hcells as [Hc0 Hcells].
  assert (Hfirst : add_to_window w p0
                   = Ok ({| ue_id := ue_id w; current_serving_cell := L;
                            window_start_time := 0; window_active := true;
                            buffer := [p0] |}, [])).
  { rewrite add_to_window_first by exact Hempty. rewrite Hc0, Ht0. reflexivity. }
  assert (Hearly : Forall (fun p => servingCellID p = L
                                    /\ to_uint64 (timestamp p - 0) < 5000)
                          [p1; p2; p3; p4]).
  { repeat (apply Forall_cons in Hcells as [? Hcells]).
    repeat constructor; try assumption;
      first [rewrite Ht1 | rewrite Ht2 | rewrite Ht3 | rewrite Ht4]; reflexivity. }
  split.
  - intros k Hk.
    destruct k as [|k]; [lia|]. cbn [take add_each]. rewrite Hfirst. cbn.
    rewrite add_each_append; cbn.
    + reflexivity.
    + discriminate.
    + change (take k [p1; p2; p3; p4; p5]) with (take k ([p1; p2; p3; p4] ++ [p5])).
      rewrite take_app_le by (simpl; lia). apply Forall_take, Hearly.
    + rewrite length_take. unfold BUFFER_SLOTS. simpl. lia.
  - change [p0; p1; p2; p3; p4; p5] with ([p0] ++ [p1; p2; p3; p4] ++ [p5]) at 1.
    rewrite (add_each_app [p0]). cbn [add_each]. rewrite Hfirst. cbn [mbind outcome_bind].
    rewrite add_each_app.
    rewrite add_each_append;
      [|discriminate|exact Hearly|unfold BUFFER_SLOTS, count; simpl; lia].
    cbn [add_each mbind outcome_bind].
    rewrite add_to_window_close; cbn [buffer current_serving_cell window_start_time app].
    + cbn [mbind outcome_bind app]. rewrite app_nil_r.
      set (sent := send_window_batch_to_python _).
      unfold reset_window. cbn [ue_id]. rewrite Ht5. reflexivity.
    + discriminate.
    + repeat (apply Forall_cons in Hcells as [? Hcells]). congruence.
    + unfold BUFFER_SLOTS, count. simpl. lia.
    + rewrite Ht5. vm_compute. discriminate.
Qed.

(** C2: with the 5000 ms threshold, six samples of one entity under one
    serving cell at times 0, 1000, ..., 5000, the first of them opening the
    window: nothing is sent while the first five are added, the window then
    holds them and starts at 0; adding the sixth sends exactly one line,
    whose serving value is the arithmetic mean of the six serving values,
    and leaves the window empty. *)
Theorem window_closes_at_5000
    (st : state) (ue L : Z) (ms : list sinr_measurement_t) :
  map m_timestamp ms = [0; 1000; 2000; 3000; 4000; 5000] ->
  Forall (fun m => m_ueID m = ue /\ m_servingCellID m = L) ms ->
  awaits_first_sample st ue ->
  (forall k, (1 <= k <= 5)%nat ->
     exists st_k w,
       add_points st (take k ms) = Ok st_k
       /\ emitted st_k = emitted st
       /\ window_of st_k ue = Some w
       /\ count w = k /\ window_start_time w = 0 /\ current_serving_cell w = L)
  /\ exists st' w line,
       add_points st ms = Ok st'
       /\ emitted st' = emitted st ++ [line]
       /\ line_ue_id line = ue /\ line_serving_cell line = L
       /\ avg_serving_sinr line = arithmetic_mean (map m_servingSINR ms)
       /\ window_of st' ue = Some w /\ count w = 0%nat.
Proof.
  intros Hts Hall Hfresh.
  (* an entity without a window behaves as one with a window just cleared *)
  assert (Hstart : exists st0 i w,
             find_ue_window (ue_windows st0) ue = Some (i, w) /\ buffer w = []
             /\ emitted st0 = emitted st
             /\ forall m rest, m_ueID m = ue ->
                  add_points st (m :: rest) = add_points st0 (m :: rest)).
  { destruct Hfresh as [(i & w & Hfind & Hempty)|[Hnone Hroom]].
    - exists st, i, w. repeat split; assumption.
    - exists {| ue_windows := ue_windows st ++ [fresh_window ue];
                measurements := measurements st; emitted := emitted st |},
             (length (ue_windows st)), (fresh_window ue).
      repeat split.
      + apply find_ue_window_fresh, Hnone.
      + intros m rest Hue. cbn [add_points].
        assert (Hp : ueID (point_of_measurement m) = ue) by exact Hue.
        rewrite add_to_adaptive_window_created by (rewrite ?Hp; assumption).
        rewrite Hp. reflexivity. }
  destruct Hstart as (st0 & i & w & Hfind & Hempty & Hemitted & Hsame).
  assert (Hue : Forall (fun m => m_ueID m = ue) ms).
  { eapply Forall_impl; [exact Hall|]. intros m [? _]. assumption. }
  assert (Hcells : Forall (fun p => servingCellID p = L) (map point_of_measurement ms)).
  { apply Forall_map. eapply Forall_impl; [exact Hall|]. intros m [_ ?]. assumption. }
  assert (Htimes : map timestamp (map point_of_measurement ms)
                   = [0; 1000; 2000; 3000; 4000; 5000]).
  { rewrite map_map. exact Hts. }
  destruct (add_each_six w _ L Hempty Htimes Hcells) as [Hpart Hfull].
  destruct (find_ue_window_ue_id _ _ _ _ Hfind) as [Hid _].
  destruct ms as [|m0 ms]; [discriminate|].
  pose proof (Forall_inv Hue) as Hue0.
  split.
  - intros k Hk. destruct k as [|k]; [lia|].
    cbn [take]. rewrite Hsame by exact Hue0.
    change (m0 :: take k ms) with (take (S k) (m0 :: ms)).
    rewrite (add_points_found ue _ st0 i w Hfind) by (apply Forall_take, Hue).
    rewrite <- List.firstn_map, (Hpart (S k) Hk). cbn [mbind outcome_bind].
    eexists _, _. split; [reflexivity|]. cbn [emitted ue_windows].
    split; [rewrite app_nil_r; exact Hemitted|].
    split.
    { unfold window_of. cbn [ue_windows].
      erewrite find_ue_window_insert; [reflexivity|exact Hfind|exact Hid]. }
    cbn [snd window_start_time current_serving_cell]. repeat split.
    unfold count. cbn [buffer]. rewrite length_take, length_map.
    apply (f_equal (@length Z)) in Hts. rewrite length_map in Hts. simpl in Hts.
    cbn [length] in *. lia.
  - rewrite Hsame by exact Hue0.
    rewrite (add_points_found ue _ st0 i w Hfind) by exact Hue.
    rewrite Hfull. cbn [mbind outcome_bind].
    destruct (send_window_batch_to_python_one
                {| ue_id := ue_id w; current_serving_cell := L; window_start_time := 0;
                   window_active := true;
                   buffer := map point_of_measurement (m0 :: ms) |})
      as (line & Hline & Hlue & Hlcell & Havg & _); [discriminate|].
    rewrite Hline. eexists _, _, line. split; [reflexivity|].
    cbn [emitted ue_windows]. split; [rewrite Hemitted; reflexivity|].
    split; [rewrite Hlue; exact Hid|]. split; [exact Hlcell|].
    split.
    { rewrite Havg. unfold arithmetic_mean, sum_double, count. cbn [buffer].
      rewrite map_map, !length_map. reflexivity. }
    split; [unfold window_of; cbn [ue_windows];
            erewrite find_ue_window_insert; [reflexivity|exact Hfind|exact Hid]|].
    reflexivity.
Qed.

Lemma window_closes_at_5000_example :
  (forall k, (1 <= k <= 5)%nat ->
     exists st_k w,
       add_points initial_state (take k six_samples) = Ok st_k
       /\ emitted st_k = emitted initial_state
       /\ window_of st_k 1 = Some w
       /\ count w = k /\ window_start_time w = 0 /\ current_serving_cell w = 2)
  /\ exists st' w line,
       add_points initial_state six_samples = Ok st'
       /\ emitted st' = emitted initial_state ++ [line]
       /\ line_ue_id line = 1 /\ line_serving_cell line = 2
       /\ avg_serving_sinr line = arithmetic_mean (map m_servingSINR six_samples)
       /\ window_of st' 1 = Some w /\ count w = 0%nat.
Proof.
  apply (window_closes_at_5000 initial_state 1 2 six_samples).
  - reflexivity.
  - repeat constructor.
  - right. split; [reflexivity|]. unfold MAX_UE_COUNT. simpl. lia.
Defined.

(** *** Neighbour slots *)

Lemma insert_perm (a : neighbor_t) (l : list neighbor_t) :
  Libc.insert compare_neighbors_by_sinr a l ≡ₚ a :: l.
Proof.
  induction l as [|b l IH]; [reflexivity|]. cbn [Libc.insert].
  destruct (compare_neighbors_by_sinr a b <=? 0); [reflexivity|].
  rewrite IH. apply perm_swap.
Qed.

Lemma qsort_perm (l : list neighbor_t) :
  Libc.qsort compare_neighbors_by_sinr l ≡ₚ l.
Proof.
  unfold Libc.qsort. induction l as [|a l IH]; [reflexivity|].
  cbn [fold_right]. rewrite insert_perm, IH. reflexivity.
Qed.

Lemma point_of_measurement_slot (m : sinr_measurement_t) (j : nat) :
  (j < 3)%nat -> nth j (neighborSINR (point_of_measurement m)) 0%float = ranked_metric j m.
Proof.
  intros Hj. unfold ranked_metric, ranked_neighbors, point_of_measurement.
  cbn [neighborSINR].
  destruct j as [|[|[|j]]]; [reflexivity..|lia].
Qed.

Lemma compare_neighbors_by_sinr_le a b :
  (compare_neighbors_by_sinr a b <=? 0)
  = negb (neighSINR a <? neighSINR b)%float.
Proof.
  unfold compare_neighbors_by_sinr.
  destruct (neighSINR b <? neighSINR a)%float eqn:Hba.
  - rewrite (ltb_asym _ _ Hba). reflexivity.
  - destruct (neighSINR a <? neighSINR b)%float; reflexivity.
Qed.

Lemma not_less_trans (a b v : float) :
  comparable a b ->
  (a <? b)%float = false -> (b <? v)%float = false -> (a <? v)%float = false.
Proof.
  intros [->|[Hab|Hba]] Hnab Hnbv.
  - exact Hnbv.
  - congruence.
  - exact (ltb_chain b a v Hba Hnbv).
Qed.

Lemma insert_largest_first (a : neighbor_t) (l : list neighbor_t) :
  Forall (fun b => comparable (neighSINR a) (neighSINR b)) l ->
  StronglySorted (fun u v => (neighSINR u <? neighSINR v)%float = false) l ->
  StronglySorted (fun u v => (neighSINR u <? neighSINR v)%float = false)
                 (Libc.insert compare_neighbors_by_sinr a l).
Proof.
  intros Hcmp Hs. induction Hs as [|b l Hs IH Hb]; cbn [Libc.insert].
  - repeat constructor.
  - apply Forall_cons in Hcmp as [Hab Hcmp].
    rewrite compare_neighbors_by_sinr_le.
    destruct (neighSINR a <? neighSINR b)%float eqn:Hlt; cbn [negb].
    + constructor; [apply IH, Hcmp|].
      rewrite insert_perm. constructor; [apply ltb_asym, Hlt|exact Hb].
    + constructor; [constructor; assumption|].
      constructor; [exact Hlt|].
      rewrite Forall_forall in Hb |- *. intros v Hv.
      eapply not_less_trans; [exact Hab|exact Hlt|apply Hb, Hv].
Qed.

Lemma qsort_largest_first (l : list neighbor_t) :
  Forall (fun a => Forall (fun b => comparable (neighSINR a) (neighSINR b)) l) l ->
  StronglySorted (fun u v => (neighSINR u <? neighSINR v)%float = false)
                 (Libc.qsort compare_neighbors_by_sinr l).
Proof.
  unfold Libc.qsort. intros Hall.
  assert (Hsub : forall k, k ⊆ l ->
            StronglySorted (fun u v => (neighSINR u <? neighSINR v)%float = false)
                           (fold_right (Libc.insert compare_neighbors_by_sinr) [] k)).
  { induction k as [|a k IH]; intros Hk; [constructor|]. cbn [fold_right].
    apply insert_largest_first.
    - fold (Libc.qsort compare_neighbors_by_sinr k). rewrite qsort_perm.
      rewrite Forall_forall in Hall |- *. intros b Hb.
      specialize (Hall a (Hk a ltac:(left))). rewrite Forall_forall in Hall.
      apply Hall, Hk. right. exact Hb.
    - apply IH. intros b Hb. apply Hk. right. exact Hb. }
  apply Hsub. reflexivity.
Qed.

(** Two arrangements of the same comparable values, neither with a value
    before a larger one, are the same list. *)
Lemma largest_first_unique (r1 : list float) : forall r2,
  r1 ≡ₚ r2 ->
  Forall (fun u => Forall (comparable u) r1) r1 ->
  StronglySorted (fun u v => (u <? v)%float = false) r1 ->
  StronglySorted (fun u v => (u <? v)%float = false) r2 ->
  r1 = r2.
Proof.
  induction r1 as [|x r1 IH]; intros r2 Hperm Hcmp Hs1 Hs2.
  - apply Permutation_nil_l in Hperm. congruence.
  - destruct r2 as [|y r2]; [apply Permutation_nil_r in Hperm; discriminate|].
    apply StronglySorted_inv in Hs1 as [Hs1 Hx].
    apply StronglySorted_inv in Hs2 as [Hs2 Hy].
    rewrite Forall_forall in Hx, Hy.
    assert (Hxy : x = y).
    { assert (Hyin : y ∈ x :: r1) by (rewrite Hperm; left).
      assert (Hxin : x ∈ y :: r2) by (rewrite <- Hperm; left).
      apply elem_of_cons in Hyin as [Hyx|Hyin]; [congruence|].
      apply elem_of_cons in Hxin as [Hxy|Hxin]; [exact Hxy|].
      specialize (Hx y Hyin). specialize (Hy x Hxin).
      apply Forall_inv in Hcmp. rewrite Forall_forall in Hcmp.
      destruct (Hcmp y ltac:(right; exact Hyin)) as [E|[E|E]]; congruence. }
    subst y. f_equal. apply IH.
    + eapply Permutation_cons_inv, Hperm.
    + apply Forall_cons in Hcmp as [_ Hcmp].
      eapply Forall_impl; [exact Hcmp|]. intros u Hu. apply Forall_cons in Hu as [_ Hu].
      exact Hu.
    + exact Hs1.
    + exact Hs2.
Qed.

Lemma sorted_by_metric (l : list neighbor_t) :
  StronglySorted (fun u v => (neighSINR u <? neighSINR v)%float = false) l ->
  StronglySorted (fun u v => (u <? v)%float = false) (map neighSINR l).
Proof.
  induction 1 as [|a l Hs IH Ha]; cbn [map]; constructor; [exact IH|].
  apply Forall_map. exact Ha.
Qed.

Lemma ranked_neighbors_largest_first (m : sinr_measurement_t) :
  comparable_metrics m ->
  largest_first m (map neighSINR (ranked_neighbors m)).
Proof.
  intros Hcmp. unfold largest_first, metrics. split.
  - unfold ranked_neighbors.
    destruct (1 <? num_neighbors m)%nat; [rewrite qsort_perm|]; reflexivity.
  - apply sorted_by_metric. unfold ranked_neighbors.
    destruct (1 <? num_neighbors m)%nat eqn:Hnum.
    + apply qsort_largest_first. unfold comparable_metrics, metrics in Hcmp.
      rewrite Forall_map in Hcmp. eapply Forall_impl; [exact Hcmp|].
      intros a Ha. rewrite Forall_map in Ha. exact Ha.
    + apply Nat.ltb_ge in Hnum. unfold num_neighbors in Hnum.
      destruct (neighbors m) as [|a [|b l]]; simpl in Hnum; try lia; repeat constructor.
Qed.

Lemma ranked_metric_nth (m : sinr_measurement_t) (j : nat) (r : list float) :
  comparable_metrics m -> largest_first m r ->
  ranked_metric j m = nth j r 0%float.
Proof.
  intros Hcmp [Hperm Hsorted].
  destruct (ranked_neighbors_largest_first m Hcmp) as [Hperm' Hsorted'].
  assert (Heq : r = map neighSINR (ranked_neighbors m)).
  { apply largest_first_unique; try assumption.
    - rewrite Hperm, Hperm'. reflexivity.
    - unfold comparable_metrics in Hcmp.
      rewrite Forall_forall in Hcmp |- *. intros u Hu.
      rewrite Hperm in Hu. specialize (Hcmp u Hu).
      rewrite Forall_forall in Hcmp |- *. intros v Hv.
      rewrite Hperm in Hv. apply Hcmp, Hv. }
  rewrite Heq. unfold ranked_metric.
  generalize (ranked_neighbors m). intros l. revert j.
  induction l as [|n l IH]; intros [|j]; cbn; auto.
Qed.

(** C3, as the code has it: for samples whose neighbour metrics are
    comparable, slot j of a line is the arithmetic mean, over the samples
    of the window, of the j-th entry of each sample's metrics arranged
    largest first (0.0 where a sample has no such entry), whatever
    arrangement of that kind is taken; the order in which the code reads
    the metrics of a sample is such an arrangement. Neighbour cells are not
    told apart across the samples. *)
Theorem neighbor_slot_is_mean_of_rank
    (w : ue_adaptive_window_t) (ms : list sinr_measurement_t)
    (ranks : list (list float)) (j : nat) :
  buffer w = map point_of_measurement ms -> ms <> [] -> (j < 3)%nat ->
  Forall comparable_metrics ms ->
  Forall2 largest_first ms ranks ->
  (exists line,
     send_window_batch_to_python w = [line]
     /\ avg_neighbor_sinr line !! j
        = Some (arithmetic_mean (map (fun r => nth j r 0%float) ranks)))
  /\ Forall2 largest_first ms (map (fun m => map neighSINR (ranked_neighbors m)) ms).
Proof.
  intros Hbuf Hne Hj Hcmp Hranks. split.
  - destruct (send_window_batch_to_python_one w) as (line & Hline & _ & _ & _ & Hnbr).
    { rewrite Hbuf. destruct ms; [congruence|discriminate]. }
    exists line. split; [exact Hline|].
    rewrite Hnbr, list_lookup_fmap, lookup_seq_lt by exact Hj.
    cbn [fmap option_fmap option_map].
    f_equal. unfold arithmetic_mean, sum_double, count.
    rewrite Hbuf, !map_map, !length_map.
    rewrite (Forall2_length _ _ _ Hranks). f_equal. f_equal.
    clear Hbuf Hne. induction Hranks as [|m r ms ranks Hr Hrest IH]; [reflexivity|].
    apply Forall_cons in Hcmp as [Hm Hcmp]. cbn [map]. f_equal; [|apply IH, Hcmp].
    rewrite point_of_measurement_slot by exact Hj.
    apply ranked_metric_nth; assumption.
  - clear Hranks Hbuf Hne. induction Hcmp as [|m ms Hm Hcmp IH]; cbn [map]; constructor.
    + apply ranked_neighbors_largest_first, Hm.
    + exact IH.
Qed.

Lemma neighbor_slot_is_mean_of_rank_example :
  (exists line,
     send_window_batch_to_python
       {| ue_id := 1; current_serving_cell := 2; window_start_time := 0;
          window_active := true;
          buffer := map point_of_measurement swapping_samples |} = [line]
     /\ avg_neighbor_sinr line !! 0%nat
        = Some (arithmetic_mean
                  (map (fun r => nth 0 r 0%float) [[10.0; 2.0]; [10.0; 2.0]]%float)))
  /\ Forall2 largest_first swapping_samples
       (map (fun m => map neighSINR (ranked_neighbors m)) swapping_samples).
Proof.
  apply (neighbor_slot_is_mean_of_rank
           {| ue_id := 1; current_serving_cell := 2; window_start_time := 0;
              window_active := true;
              buffer := map point_of_measurement swapping_samples |}
           swapping_samples [[10.0; 2.0]; [10.0; 2.0]]%float 0%nat).
  - reflexivity.
  - discriminate.
  - lia.
  - repeat constructor;
      first [left; reflexivity | right; left; reflexivity | right; right; reflexivity].
  - repeat first [apply Forall2_cons_2 | apply Forall2_nil_2];
      (split; [|repeat constructor]).
    + reflexivity.
    + apply perm_swap.
Defined.

(** C3, counterexample: cells 5 and 6 each average 6.0 over the two samples
    of the window, so the ranked per-link averages are 6.0 and 6.0, while
    the line carries 10.0 and 2.0, the means of the first-ranked and of the
    second-ranked metrics. *)
Lemma slot_means_are_not_per_link_averages :
  map avg_neighbor_sinr (lines_of (add_points initial_state swapping_samples))
  = [[10.0; 2.0; 0.0]%float]
  /\ spec_ranked_per_link_averages swapping_samples = [6.0; 6.0]%float.
Proof. vm_compute. split; reflexivity. Qed.

(** *** Capacity of the window buffer *)

Lemma add_to_window_overrun w point :
  count w = BUFFER_SLOTS -> current_serving_cell w = servingCellID point ->
  add_to_window w point = OutOfBounds.
Proof.
  intros Hfull Hcell. unfold add_to_window, push_point.
  rewrite Hcell, Z.eqb_refl, orb_true_r, Hfull.
  change (BUFFER_SLOTS =? 0)%nat with false. cbn iota.
  rewrite Hfull, Nat.leb_refl. reflexivity.
Qed.

End Windows.

(** ** Items with unknown identifiers *)

Section UnknownIds.

Import MA MA_aux.

Variable sscanf : string -> string -> option (Z * Z).

Lemma zip_msg_of_items (items : list (meas_type_t * meas_data_lst_t)) :
  zip (meas_info_lst (msg_of_items items)) (meas_data_lst (msg_of_items items)) = items.
Proof.
  unfold msg_of_items. cbn [meas_info_lst meas_data_lst].
  induction items as [|[ty data] items IH]; [reflexivity|].
  cbn. rewrite IH. reflexivity.
Qed.

Lemma prefix_String a s1 b s2 :
  String.prefix (String a s1) (String b s2)
  = if Ascii.ascii_dec a b then String.prefix s1 s2 else false.
Proof. reflexivity. Qed.

Lemma serving_prefix_excludes_neighbor_prefix name :
  isMeasNameContains name "L3servingSINR3gpp_cell_" = true ->
  isMeasNameContains name "L3neighSINRListOf_UEID_" = false.
Proof.
  unfold isMeasNameContains. intros Hserving.
  destruct name as [|c0 [|c1 [|c2 name]]];
    repeat rewrite prefix_String in *;
    repeat match goal with
           | H : context [Ascii.ascii_dec ?a ?b] |- _ =>
               destruct (Ascii.ascii_dec a b) as [<-|]
           end;
    try discriminate; reflexivity.
Qed.

Lemma unknown_ids_no_sample item :
  unknown_ids sscanf item = true ->
  serving_sample sscanf item = None /\ neighbor_list sscanf item = None.
Proof.
  destruct item as [[name|id] data]; [|discriminate].
  unfold unknown_ids, serving_sample, neighbor_list.
  destruct (isMeasNameContains name "L3servingSINR3gpp_cell_") eqn:Hserving.
  - intros Hunknown.
    assert (Hother : isMeasNameContains name "L3neighSINRListOf_UEID_" = false)
      by (apply serving_prefix_excludes_neighbor_prefix, Hserving).
    rewrite Hother. split; [|reflexivity].
    apply orb_true_iff in Hunknown as [-> | ->]; cbn; [reflexivity|].
    rewrite andb_false_r. reflexivity.
  - destruct (isMeasNameContains name "L3neighSINRListOf_UEID_"); [|discriminate].
    intros Hunknown. split; [reflexivity|].
    apply orb_true_iff in Hunknown as [-> | ->]; cbn; [reflexivity|].
    rewrite andb_false_r. reflexivity.
Qed.

Lemma log_kpm_measurements_skips_item (st : state) pre item post ts :
  (forall ms, store_serving sscanf (ts / 1000) ms item = ms) ->
  (forall ms, store_neighbors sscanf ms item = ms) ->
  pre ++ post <> [] ->
  log_kpm_measurements sscanf st (msg_of_items (pre ++ item :: post)) ts
  = log_kpm_measurements sscanf st (msg_of_items (pre ++ post)) ts.
Proof.
  intros Hserving Hneighbors Hne. unfold log_kpm_measurements.
  rewrite !zip_msg_of_items.
  unfold msg_of_items. cbn [meas_info_lst meas_data_lst]. rewrite !length_map.
  rewrite !Nat.eqb_refl. cbn [negb].
  assert (H1 : (length (pre ++ item :: post) =? 0)%nat = false).
  { apply Nat.eqb_neq. rewrite length_app. simpl. lia. }
  assert (H2 : (length (pre ++ post) =? 0)%nat = false).
  { apply Nat.eqb_neq. destruct pre, post; simpl in *; try congruence; lia. }
  rewrite H1, H2. rewrite !fold_left_app. cbn [fold_left].
  rewrite Hserving, Hneighbors. reflexivity.
Qed.

Lemma log_kpm_measurements_v2_skips_item (st : MAv2.state) pre item post ts :
  (forall st', MAv2.store_serving sscanf ts st' item = st') ->
  (forall st', MAv2.store_neighbors sscanf st' item = st') ->
  pre ++ post <> [] ->
  MAv2.log_kpm_measurements sscanf st (msg_of_items (pre ++ item :: post)) ts
  = MAv2.log_kpm_measurements sscanf st (msg_of_items (pre ++ post)) ts.
Proof.
  intros Hserving Hneighbors Hne. unfold MAv2.log_kpm_measurements.
  rewrite !zip_msg_of_items.
  unfold msg_of_items. cbn [meas_info_lst meas_data_lst]. rewrite !length_map.
  rewrite !Nat.eqb_refl. cbn [negb].
  assert (H1 : (length (pre ++ item :: post) =? 0)%nat = false).
  { apply Nat.eqb_neq. rewrite length_app. simpl. lia. }
  assert (H2 : (length (pre ++ post) =? 0)%nat = false).
  { apply Nat.eqb_neq. destruct pre, post; simpl in *; try congruence; lia. }
  rewrite H1, H2. rewrite !fold_left_app. cbn [fold_left].
  rewrite Hserving, Hneighbors. reflexivity.
Qed.

(** C7: an item whose name carries the serving or the neighbour prefix and
    whose cell or UE identifier parses to the value for unknown
    ([UINT16_MAX]) is dropped by both collecting loops; an indication that
    consists of it creates no window, changes none and sends nothing, and
    within a longer indication it makes no difference to the outcome. The
    collecting loops of the sequence-numbered variant drop it likewise. *)
Theorem unknown_ids_are_ignored
    (st : state) (pre post : list (meas_type_t * meas_data_lst_t))
    (item : meas_type_t * meas_data_lst_t) (ts timestamp_ms : Z)
    (ms : list sinr_measurement_t) (st2 : MAv2.state) :
  unknown_ids sscanf item = true ->
  store_serving sscanf timestamp_ms ms item = ms
  /\ store_neighbors sscanf ms item = ms
  /\ (measurements st = [] ->
      log_kpm_measurements sscanf st (msg_of_items [item]) ts = Ok st)
  /\ (pre ++ post <> [] ->
      log_kpm_measurements sscanf st (msg_of_items (pre ++ item :: post)) ts
      = log_kpm_measurements sscanf st (msg_of_items (pre ++ post)) ts)
  /\ MAv2.store_serving sscanf ts st2 item = st2
  /\ MAv2.store_neighbors sscanf st2 item = st2
  /\ (pre ++ post <> [] ->
      MAv2.log_kpm_measurements sscanf st2 (msg_of_items (pre ++ item :: post)) ts
      = MAv2.log_kpm_measurements sscanf st2 (msg_of_items (pre ++ post)) ts).
Proof.
  intros Hunknown.
  destruct (unknown_ids_no_sample item Hunknown) as [Hserving Hneighbors].
  assert (Hs : forall t l, store_serving sscanf t l item = l).
  { intros. unfold store_serving. rewrite Hserving. reflexivity. }
  assert (Hn : forall l, store_neighbors sscanf l item = l).
  { intros. unfold store_neighbors. rewrite Hneighbors. reflexivity. }
  assert (Hs2 : forall t s, MAv2.store_serving sscanf t s item = s).
  { intros. unfold MAv2.store_serving. rewrite Hserving. reflexivity. }
  assert (Hn2 : forall s, MAv2.store_neighbors sscanf s item = s).
  { intros. unfold MAv2.store_neighbors. rewrite Hneighbors. reflexivity. }
  split; [apply Hs|]. split; [apply Hn|]. split; [|split; [|split; [|split]]].
  - intros Hnone. unfold log_kpm_measurements.
    rewrite zip_msg_of_items. cbn [msg_of_items meas_info_lst meas_data_lst map length
                                   Nat.eqb negb fold_left].
    rewrite Hs, Hn. unfold process_measurements_to_adaptive_windows.
    cbn [measurements]. rewrite Hnone. cbn.
    destruct st as [ws l e]. cbn in Hnone |- *. rewrite Hnone. reflexivity.
  - apply log_kpm_measurements_skips_item; auto.
  - apply Hs2.
  - apply Hn2.
  - apply log_kpm_measurements_v2_skips_item; auto.
Qed.

End UnknownIds.

Lemma unknown_ids_are_ignored_example :
  MA.store_serving example_sscanf 5 [] unparsed_item = []
  /\ MA.store_neighbors example_sscanf [] unparsed_item = []
  /\ (MA.measurements MA.initial_state = [] ->
      MA.log_kpm_measurements example_sscanf MA.initial_state
        (msg_of_items [unparsed_item]) 5000
      = Ok MA.initial_state)
  /\ ([serving_item] ++ [] <> [] ->
      MA.log_kpm_measurements example_sscanf MA.initial_state
        (msg_of_items ([serving_item] ++ unparsed_item :: [])) 5000
      = MA.log_kpm_measurements example_sscanf MA.initial_state
          (msg_of_items ([serving_item] ++ [])) 5000)
  /\ MAv2.store_serving example_sscanf 5000 MAv2.initial_state unparsed_item
     = MAv2.initial_state
  /\ MAv2.store_neighbors example_sscanf MAv2.initial_state unparsed_item
     = MAv2.initial_state
  /\ ([serving_item] ++ [] <> [] ->
      MAv2.log_kpm_measurements example_sscanf MAv2.initial_state
        (msg_of_items ([serving_item] ++ unparsed_item :: [])) 5000
      = MAv2.log_kpm_measurements example_sscanf MAv2.initial_state
          (msg_of_items ([serving_item] ++ [])) 5000).
Proof.
  apply (unknown_ids_are_ignored example_sscanf MA.initial_state
           [serving_item] [] unparsed_item 5000 5 [] MAv2.initial_state).
  reflexivity.
Defined.

(** C9, evaluated: 200 reports of UE 1 under serving cell 2 with one
    collection start time fill the buffer of its window; the next such
    report is stored at [buffer[200]], with no test of [count]. *)
Lemma window_buffer_overrun :
  match MA.run example_sscanf MA.initial_state
          (replicate 200 (msg_of_items [serving_item], 0)) with
  | Ok st => MA.count <$> MA_aux.window_of st 1
  | AssertFail | OutOfBounds => None
  end = Some 200%nat
  /\ MA.run example_sscanf MA.initial_state
       (replicate 201 (msg_of_items [serving_item], 0)) = OutOfBounds.
Proof. vm_compute. split; reflexivity. Qed.

Lemma neighbor_only_ue_never_assigned_nor_sent_example :
  (forall e,
     e ∈ MAv2.events
           (MAv2.run example_sscanf MAv2.initial_state
              [(msg_of_items [serving_item; neighbors_item_ue1; neighbors_item_ue5], 100)]) ->
     MAv2_aux.names_ue 5 e = false)
  /\ (forall b,
        b ∈ MAv2.ue_buffers
              (MAv2.run example_sscanf MAv2.initial_state
                 [(msg_of_items [serving_item; neighbors_item_ue1; neighbors_item_ue5], 100)]) ->
        MAv2.ueID b = 5 -> MAv2.history_count b = 0)
  /\ (forall ue_buf id metric,
        MAv2.history_count (MAv2.add_neighbor_sample ue_buf id metric)
        = MAv2.history_count ue_buf).
Proof.
  apply (neighbor_only_ue_never_assigned_nor_sent example_sscanf
           [(msg_of_items [serving_item; neighbors_item_ue1; neighbors_item_ue5], 100)] 5).
  intros msg_frm_1 ts item info metric Hmsg Hitem Hsample.
  apply list_elem_of_singleton in Hmsg. injection Hmsg as -> ->.
  rewrite zip_msg_of_items in Hitem.
  repeat (apply elem_of_cons in Hitem as [->|Hitem]);
    [vm_compute in Hsample; injection Hsample as <- _; discriminate
    |vm_compute in Hsample; discriminate..
    |inversion Hitem].
Defined.

(** * Further properties of the code *)

(** ** ue_localization_MA.c: the table of windows *)

Section WindowInvariants.

Import MA MA_aux MA_inv.

Lemma window_ok_fresh id : window_ok (fresh_window id).
Proof.
  unfold window_ok, fresh_window, count. cbn.
  repeat split. constructor.
Qed.

Lemma count_nonempty (w : ue_adaptive_window_t) :
  buffer w <> [] -> (count w =? 0)%nat = false.
Proof.
  intros Hne. apply Nat.eqb_neq. unfold count.
  destruct (buffer w); [congruence|simpl; lia].
Qed.

Lemma zero_span (t : Z) : to_uint64 (t - t) < 5000.
Proof. rewrite Z.sub_diag. reflexivity. Qed.

Lemma add_to_window_inv (P : Z -> Z -> Prop) w point w' sent :
  window_ok w -> points_from P w ->
  ueID point = ue_id w -> P (ueID point) (servingCellID point) ->
  add_to_window w point = Ok (w', sent) ->
  window_ok w' /\ points_from P w' /\ ue_id w' = ue_id w /\ lines_from P sent.
Proof.
  intros (Hpoints & Hactive & Hzero) HP Hue Hpt.
  destruct (decide (buffer w = [])) as [Hbuf|Hne].
  { rewrite add_to_window_first by exact Hbuf. intros [= <- <-].
    unfold window_ok, points_from, lines_from, count. cbn.
    repeat split; try discriminate; repeat constructor; auto using zero_span. }
  pose proof (count_nonempty w Hne) as Hpos.
  destruct (Z.eq_dec (current_serving_cell w) (servingCellID point)) as [Hcell|Hcell].
  - destruct (le_lt_dec BUFFER_SLOTS (count w)) as [Hfull|Hroom].
    { unfold add_to_window, push_point. rewrite Hpos, Hcell, Z.eqb_refl.
      cbn [orb]. apply Nat.leb_le in Hfull. rewrite Hfull. discriminate. }
    destruct (Z_lt_ge_dec (to_uint64 (timestamp point - window_start_time w)) 5000)
      as [Hearly|Hlate].
    + rewrite add_to_window_append by (try assumption; lia). intros [= <- <-].
      unfold window_ok, points_from, lines_from in *. unfold count at 1. cbn.
      rewrite length_app. cbn. fold (count w). repeat split.
      * apply Forall_app. split; [exact Hpoints|]. repeat constructor; auto.
      * rewrite Hactive, Hpos. rewrite Nat.add_1_r. reflexivity.
      * intros Hnil. apply app_eq_nil in Hnil as [_ Hnil]. discriminate.
      * apply Forall_app. split; [exact HP|]. repeat constructor. exact Hpt.
      * constructor.
    + rewrite add_to_window_close by (try assumption; lia). intros [= <- <-].
      match goal with |- context [send_window_batch_to_python ?w2] =>
        destruct (send_window_batch_to_python_one w2) as (line & -> & Hlu & Hlc & _)
      end.
      { cbn. intros Hnil. apply app_eq_nil in Hnil as [_ Hnil]. discriminate. }
      cbn in Hlu, Hlc.
      unfold window_ok, points_from, lines_from, reset_window, count, BUFFER_SLOTS. cbn.
      repeat split; try lia; repeat constructor.
      rewrite Hlu, Hlc, <- Hue, Hcell. exact Hpt.
  - rewrite add_to_window_change by assumption. intros [= <- <-].
    destruct (send_window_batch_to_python_one w Hne) as (line & -> & Hlu & Hlc & _).
    unfold window_ok, points_from, lines_from, count, BUFFER_SLOTS. cbn.
    repeat split; try lia; try discriminate; repeat constructor; auto using zero_span.
    rewrite Hlu, Hlc. unfold points_from in HP.
    destruct (buffer w) as [|p0 rest]; [congruence|].
    apply Forall_inv in Hpoints as (<- & <- & _).
    apply Forall_inv in HP. exact HP.
Qed.

Lemma map_ue_id_insert (ws : list ue_adaptive_window_t) i w w' :
  ws !! i = Some w -> ue_id w' = ue_id w ->
  map ue_id (<[i := w']> ws) = map ue_id ws.
Proof.
  intros Hi Hid. change (map ue_id) with (fmap (M := list) ue_id).
  rewrite list_fmap_insert, Hid. apply list_insert_id.
  rewrite list_lookup_fmap, Hi. reflexivity.
Qed.

Lemma find_ue_window_None_notin ws id :
  find_ue_window ws id = None -> id ∉ map ue_id ws.
Proof.
  unfold find_ue_window. intros Hfind Hin.
  apply list_find_None in Hfind. rewrite Forall_forall in Hfind.
  change (map ue_id ws) with (ue_id <$> ws) in Hin.
  apply list_elem_of_fmap in Hin as (w & -> & Hw). exact (Hfind w Hw eq_refl).
Qed.

Lemma table_ok_found (P : Z -> Z -> Prop) ws i w point w' sent :
  table_ok ws -> Forall (points_from P) ws ->
  find_ue_window ws (ueID point) = Some (i, w) ->
  P (ueID point) (servingCellID point) ->
  add_to_window w point = Ok (w', sent) ->
  table_ok (<[i := w']> ws) /\ Forall (points_from P) (<[i := w']> ws)
  /\ lines_from P sent.
Proof.
  intros (Hnodup & Hlen & Hall) HP Hfind Hpt Hadd.
  destruct (find_ue_window_ue_id _ _ _ _ Hfind) as [Hid Hi].
  assert (Hw : window_ok w).
  { rewrite Forall_forall in Hall. apply Hall. eapply list_elem_of_lookup_2, Hi. }
  assert (HPw : points_from P w).
  { rewrite Forall_forall in HP. apply HP. eapply list_elem_of_lookup_2, Hi. }
  destruct (add_to_window_inv P w point w' sent Hw HPw (eq_sym Hid) Hpt Hadd)
    as (Hw' & HPw' & Hid' & Hsent).
  repeat split.
  - rewrite (map_ue_id_insert ws i w w' Hi Hid'). exact Hnodup.
  - rewrite length_insert. exact Hlen.
  - apply Forall_insert; assumption.
  - apply Forall_insert; assumption.
  - exact Hsent.
Qed.

Lemma add_to_adaptive_window_inv (P : Z -> Z -> Prop) st point st' :
  table_ok (ue_windows st) -> Forall (points_from P) (ue_windows st) ->
  lines_from P (emitted st) ->
  P (ueID point) (servingCellID point) ->
  add_to_adaptive_window st point = Ok st' ->
  table_ok (ue_windows st') /\ Forall (points_from P) (ue_windows st')
  /\ lines_from P (emitted st') /\ measurements st' = measurements st.
Proof.
  intros Htable HP Hlines Hpt.
  destruct (find_ue_window (ue_windows st) (ueID point)) as [[i w]|] eqn:Hfind.
  - rewrite (add_to_adaptive_window_found _ _ _ _ Hfind).
    destruct (add_to_window w point) as [[w' sent]| |] eqn:Hadd; try discriminate.
    cbn. intros [= <-]. cbn.
    destruct (table_ok_found P _ _ _ _ _ _ Htable HP Hfind Hpt Hadd) as (? & ? & ?).
    split; [assumption|]. split; [assumption|]. split; [|reflexivity].
    apply Forall_app. split; assumption.
  - destruct (decide (length (ue_windows st) < MAX_UE_COUNT)%nat) as [Hroom|Hfull].
    + rewrite add_to_adaptive_window_created by assumption.
      set (st0 := {| ue_windows := ue_windows st ++ [fresh_window (ueID point)];
                     measurements := measurements st; emitted := emitted st |}).
      assert (Hfind0 : find_ue_window (ue_windows st0) (ueID point)
                       = Some (length (ue_windows st), fresh_window (ueID point))).
      { apply find_ue_window_fresh, Hfind. }
      rewrite (add_to_adaptive_window_found _ _ _ _ Hfind0).
      destruct (add_to_window (fresh_window (ueID point)) point) as [[w' sent]| |] eqn:Hadd;
        try discriminate.
      cbn. intros [= <-]. cbn.
      destruct Htable as (Hnodup & Hlen & Hall).
      assert (Htable0 : table_ok (ue_windows st ++ [fresh_window (ueID point)])).
      { repeat split.
        - rewrite map_app. apply NoDup_app. repeat split; [exact Hnodup| |].
          + intros u Hu Hin. cbn in Hin. apply list_elem_of_singleton in Hin as ->.
            exact (find_ue_window_None_notin _ _ Hfind Hu).
          + cbn. apply NoDup_singleton.
        - rewrite length_app. cbn. lia.
        - apply Forall_app. split; [exact Hall|].
          constructor; [apply window_ok_fresh|constructor]. }
      assert (HP0 : Forall (points_from P) (ue_windows st ++ [fresh_window (ueID point)])).
      { apply Forall_app. split; [exact HP|]. repeat constructor. }
      destruct (table_ok_found P _ _ _ _ _ _ Htable0 HP0 Hfind0 Hpt Hadd) as (? & ? & ?).
      split; [assumption|]. split; [assumption|]. split; [|reflexivity].
      apply Forall_app. split; assumption.
    + unfold add_to_adaptive_window. rewrite Hfind. unfold create_ue_window.
      destruct (MAX_UE_COUNT <=? length (ue_windows st))%nat eqn:Hle.
      * intros [= <-]. split; [assumption|]. split; [assumption|]. split; [assumption|].
        reflexivity.
      * apply Nat.leb_gt in Hle. lia.
Qed.

Lemma add_points_inv (P : Z -> Z -> Prop) ms : forall st st',
  table_ok (ue_windows st) -> Forall (points_from P) (ue_windows st) ->
  lines_from P (emitted st) ->
  Forall (fun m => P (m_ueID m) (m_servingCellID m)) ms ->
  add_points st ms = Ok st' ->
  table_ok (ue_windows st') /\ Forall (points_from P) (ue_windows st')
  /\ lines_from P (emitted st').
Proof.
  induction ms as [|m ms IH]; intros st st' Htable HP Hlines Hms.
  - cbn. intros [= <-]. split; [assumption|]. split; assumption.
  - apply Forall_cons in Hms as [Hm Hms]. cbn [add_points].
    destruct (add_to_adaptive_window st (point_of_measurement m)) as [st1| |] eqn:Hadd;
      try discriminate.
    cbn. intros Hrest.
    destruct (add_to_adaptive_window_inv P st (point_of_measurement m) st1 Htable HP Hlines Hm Hadd)
      as (? & ? & ? & _).
    eapply IH; eassumption.
Qed.


Variable sscanf : string -> string -> option (Z * Z).

Lemma store_serving_from (Q : sinr_measurement_t -> Prop) ts ms item :
  Forall Q ms ->
  (forall info metric pos,
     serving_sample sscanf item = Some (info, metric) ->
     Q {| m_timestamp := ts; m_ueID := info_ueID info;
          m_servingCellID := info_cellID info; m_servingSINR := metric;
          servingPos := pos; neighbors := [] |}) ->
  Forall Q (store_serving sscanf ts ms item).
Proof.
  intros Hms Hitem. unfold store_serving.
  destruct (serving_sample sscanf item) as [[info metric]|]; [|exact Hms].
  destruct (length ms <? 100)%nat; [|exact Hms].
  apply Forall_app. split; [exact Hms|]. constructor; [|constructor].
  apply Hitem. reflexivity.
Qed.

Lemma fold_store_serving_from (Q : sinr_measurement_t -> Prop) ts items : forall ms,
  Forall Q ms ->
  (forall item info metric pos, item ∈ items ->
     serving_sample sscanf item = Some (info, metric) ->
     Q {| m_timestamp := ts; m_ueID := info_ueID info;
          m_servingCellID := info_cellID info; m_servingSINR := metric;
          servingPos := pos; neighbors := [] |}) ->
  Forall Q (fold_left (store_serving sscanf ts) items ms).
Proof.
  induction items as [|item items IH]; intros ms Hms Hitems; [exact Hms|].
  cbn. apply IH.
  - apply store_serving_from; [exact Hms|].
    intros info metric pos. apply Hitems. left.
  - intros item' info metric pos Hin. apply Hitems. right. exact Hin.
Qed.

Lemma store_for_ue_from (Q : sinr_measurement_t -> Prop) ue records : forall ms,
  (forall m nbrs, Q m ->
     Q {| m_timestamp := m_timestamp m; m_ueID := m_ueID m;
          m_servingCellID := m_servingCellID m; m_servingSINR := m_servingSINR m;
          servingPos := servingPos m; neighbors := nbrs |}) ->
  Forall Q ms -> Forall Q (store_for_ue ms ue records).
Proof.
  intros ms HQ. induction ms as [|m ms IH]; intros Hms; [constructor|].
  apply Forall_cons in Hms as [Hm Hms]. cbn [store_for_ue].
  destruct (m_ueID m =? ue).
  - constructor; [apply HQ, Hm|exact Hms].
  - constructor; [exact Hm|apply IH, Hms].
Qed.

Lemma fold_store_neighbors_from (Q : sinr_measurement_t -> Prop) items : forall ms,
  (forall m nbrs, Q m ->
     Q {| m_timestamp := m_timestamp m; m_ueID := m_ueID m;
          m_servingCellID := m_servingCellID m; m_servingSINR := m_servingSINR m;
          servingPos := servingPos m; neighbors := nbrs |}) ->
  Forall Q ms -> Forall Q (fold_left (store_neighbors sscanf) items ms).
Proof.
  induction items as [|item items IH]; intros ms HQ Hms; [exact Hms|].
  cbn. apply IH; [exact HQ|]. unfold store_neighbors.
  destruct (neighbor_list sscanf item) as [[info records]|]; [|exact Hms].
  apply store_for_ue_from; assumption.
Qed.

Lemma log_kpm_measurements_inv (P : Z -> Z -> Prop) st msg_frm_1 ts st' :
  state_ok P st ->
  (forall item info metric,
     item ∈ zip (meas_info_lst msg_frm_1) (meas_data_lst msg_frm_1) ->
     serving_sample sscanf item = Some (info, metric) ->
     P (info_ueID info) (info_cellID info)) ->
  log_kpm_measurements sscanf st msg_frm_1 ts = Ok st' ->
  state_ok P st'.
Proof.
  intros (Htable & HP & Hlines & Hnone) Hitems. unfold log_kpm_measurements.
  destruct (length (meas_info_lst msg_frm_1) =? 0)%nat; [discriminate|].
  destruct (negb _).
  { intros [= <-]. repeat split; try assumption; apply Htable. }
  unfold process_measurements_to_adaptive_windows. cbn [measurements].
  set (ms := fold_left (store_neighbors sscanf) _ _).
  assert (Hms : Forall (fun m => P (m_ueID m) (m_servingCellID m)) ms).
  { apply fold_store_neighbors_from; [intros m nbrs Hm; exact Hm|].
    apply fold_store_serving_from; [rewrite Hnone; constructor|].
    intros item info metric pos Hin Hsample. cbn. eapply Hitems; eassumption. }
  match goal with |- context [add_points ?s ms] =>
    destruct (add_points s ms) as [st1| |] eqn:Hadd; try discriminate;
    destruct (add_points_inv P ms s st1 Htable HP Hlines Hms Hadd) as (? & ? & ?)
  end.
  cbn. intros [= <-]. split; [assumption|]. split; [assumption|]. split; [assumption|].
  reflexivity.
Qed.

Lemma run_inv (P : Z -> Z -> Prop) reports : forall st st',
  state_ok P st ->
  (forall msg_frm_1 ts item info metric,
     (msg_frm_1, ts) ∈ reports ->
     item ∈ zip (meas_info_lst msg_frm_1) (meas_data_lst msg_frm_1) ->
     serving_sample sscanf item = Some (info, metric) ->
     P (info_ueID info) (info_cellID info)) ->
  run sscanf st reports = Ok st' ->
  state_ok P st'.
Proof.
  induction reports as [|[msg_frm_1 ts] rest IH]; intros st st' Hst Hitems.
  - cbn. intros [= <-]. exact Hst.
  - cbn [run].
    destruct (log_kpm_measurements sscanf st msg_frm_1 ts) as [st1| |] eqn:Hlog;
      try discriminate.
    cbn. apply IH.
    + eapply log_kpm_measurements_inv; [exact Hst| |exact Hlog].
      intros item info metric. apply (Hitems msg_frm_1 ts). left.
    + intros m t item info metric Hin. apply (Hitems m t). right. exact Hin.
Qed.

Lemma state_ok_initial (P : Z -> Z -> Prop) : state_ok P initial_state.
Proof.
  unfold state_ok, table_ok, lines_from, initial_state, MAX_UE_COUNT. cbn.
  repeat split; try constructor. lia.
Qed.

(** X1: in every state that [run] reaches from the initial one, the table
    of windows holds at most [MAX_UE_COUNT] windows, no two of the same UE,
    and the array of measurements has been emptied. *)
Theorem ue_table_distinct_and_bounded
    (reports : list (kpm_ind_msg_format_1_t * Z)) (st : state) :
  run sscanf initial_state reports = Ok st ->
  NoDup (map ue_id (ue_windows st))
  /\ (length (ue_windows st) <= MAX_UE_COUNT)%nat
  /\ measurements st = [].
Proof.
  intros Hrun.
  destruct (run_inv (fun _ _ => True) reports initial_state st) as ((? & ? & _) & _ & _ & ?);
    auto using state_ok_initial.
Qed.

(** X2: in every state reached from the initial one, the samples that a
    window holds are all of the window's UE and of its current serving
    cell, and each lies less than 5000 after the window's start (as an
    unsigned 64-bit difference). [window_active] is set exactly when the
    window holds a sample, and the serving cell of an empty window is 0. *)
Theorem window_holds_one_cell_within_5000
    (reports : list (kpm_ind_msg_format_1_t * Z)) (st : state) :
  run sscanf initial_state reports = Ok st ->
  Forall (fun w =>
            Forall (fun p => ueID p = ue_id w
                             /\ servingCellID p = current_serving_cell w
                             /\ to_uint64 (timestamp p - window_start_time w) < 5000)
                   (buffer w)
            /\ window_active w = negb (count w =? 0)%nat
            /\ (buffer w = [] -> current_serving_cell w = 0))
         (ue_windows st).
Proof.
  intros Hrun.
  destruct (run_inv (fun _ _ => True) reports initial_state st) as ((_ & _ & Hall) & _);
    auto using state_ok_initial.
Qed.

(** X3: every line sent carries a UE and a serving cell for which one of
    the reports had an accepted serving measurement of that UE under that
    cell. *)
Theorem lines_only_for_served_ues
    (reports : list (kpm_ind_msg_format_1_t * Z)) (st : state) :
  run sscanf initial_state reports = Ok st ->
  Forall (fun line => served sscanf reports (line_ue_id line) (line_serving_cell line))
         (emitted st).
Proof.
  intros Hrun.
  destruct (run_inv (served sscanf reports) reports initial_state st) as (_ & _ & Hlines & _).
  - apply state_ok_initial.
  - intros msg_frm_1 ts item info metric Hin Hitem Hsample.
    exists msg_frm_1, ts, item, info, metric. repeat split; assumption.
  - exact Hrun.
  - exact Hlines.
Qed.

(** *** Collection arrays *)

Lemma store_pairs_length records : forall nbrs,
  (length nbrs <= 10)%nat -> (length (store_pairs nbrs records) <= 10)%nat.
Proof.
  enough (H : (forall nbrs, (length nbrs <= 10)%nat ->
                 (length (store_pairs nbrs records) <= 10)%nat)
              /\ (forall r nbrs, (length nbrs <= 10)%nat ->
                    (length (store_pairs nbrs (r :: records)) <= 10)%nat))
    by apply H.
  induction records as [|neighID records [IH1 IH2]].
  - split; intros; assumption.
  - split; [apply IH2|].
    intros r nbrs Hlen. cbn [store_pairs].
    destruct r as [i|v|]; try (apply IH1, Hlen).
    destruct neighID as [i|v'|]; try (apply IH1, Hlen).
    apply IH1. destruct (length nbrs <? 10)%nat eqn:Hroom; [|exact Hlen].
    apply Nat.ltb_lt in Hroom. rewrite length_app. cbn. lia.
Qed.

Lemma store_for_ue_length ue records : forall ms,
  length (store_for_ue ms ue records) = length ms.
Proof.
  induction ms as [|m ms IH]; [reflexivity|]. cbn [store_for_ue].
  destruct (m_ueID m =? ue); cbn; [reflexivity|]. rewrite IH. reflexivity.
Qed.

Lemma store_for_ue_neighbors ue records : forall ms,
  Forall (fun m => (num_neighbors m <= 10)%nat) ms ->
  Forall (fun m => (num_neighbors m <= 10)%nat) (store_for_ue ms ue records).
Proof.
  induction ms as [|m ms IH]; intros Hms; [constructor|].
  apply Forall_cons in Hms as [Hm Hms]. cbn [store_for_ue].
  destruct (m_ueID m =? ue).
  - constructor; [|exact Hms]. unfold num_neighbors. cbn.
    apply store_pairs_length, Hm.
  - constructor; [exact Hm|apply IH, Hms].
Qed.

Lemma fold_store_neighbors_bounds items : forall ms,
  Forall (fun m => (num_neighbors m <= 10)%nat) ms ->
  length (fold_left (store_neighbors sscanf) items ms) = length ms
  /\ Forall (fun m => (num_neighbors m <= 10)%nat)
            (fold_left (store_neighbors sscanf) items ms).
Proof.
  induction items as [|item items IH]; intros ms Hms; [split; [reflexivity|exact Hms]|].
  cbn [fold_left]. unfold store_neighbors at 2 4.
  destruct (neighbor_list sscanf item) as [[info records]|]; [|apply IH, Hms].
  destruct (IH (store_for_ue ms (info_ueID info) records)) as [Hlen Hall].
  { apply store_for_ue_neighbors, Hms. }
  rewrite Hlen, store_for_ue_length. split; [reflexivity|exact Hall].
Qed.

Lemma fold_store_serving_bounds ts items : forall ms,
  (length ms <= 100)%nat ->
  Forall (fun m => (num_neighbors m <= 10)%nat) ms ->
  length (fold_left (store_serving sscanf ts) items ms)
  = Nat.min 100 (length ms + length (omap (serving_sample sscanf) items))
  /\ Forall (fun m => (num_neighbors m <= 10)%nat)
            (fold_left (store_serving sscanf ts) items ms).
Proof.
  induction items as [|item items IH]; intros ms Hlen Hms.
  - split; [cbn [fold_left omap list_omap length]; lia|exact Hms].
  - cbn [fold_left omap list_omap]. unfold store_serving at 2 4.
    destruct (serving_sample sscanf item) as [[info metric]|].
    + destruct (length ms <? 100)%nat eqn:Hroom.
      * apply Nat.ltb_lt in Hroom.
        destruct (IH (ms ++ [ {| m_timestamp := ts; m_ueID := info_ueID info;
                                 m_servingCellID := info_cellID info;
                                 m_servingSINR := metric;
                                 servingPos := get_cell_position (info_cellID info);
                                 neighbors := [] |} ])) as [Hl Hall].
        { rewrite length_app. cbn. lia. }
        { apply Forall_app. split; [exact Hms|].
          constructor; [unfold num_neighbors; cbn; lia|constructor]. }
        rewrite Hl, length_app. cbn [length]. split; [lia|exact Hall].
      * apply Nat.ltb_ge in Hroom. destruct (IH ms Hlen Hms) as [Hl Hall].
        rewrite Hl. cbn [length]. split; [lia|exact Hall].
    + apply IH; assumption.
Qed.

(** X4: the two passes over the items of an indication stay within the
    arrays: from at most 100 measurements of at most 10 neighbours each,
    they leave the earlier ones plus one for each accepted serving sample,
    cut at 100, and still at most 10 neighbours in each. *)
Theorem collected_measurements_fit_their_arrays
    (ts : Z) (items : list (meas_type_t * meas_data_lst_t))
    (ms : list sinr_measurement_t) :
  (length ms <= 100)%nat ->
  Forall (fun m => (num_neighbors m <= 10)%nat) ms ->
  length (fold_left (store_neighbors sscanf) items
            (fold_left (store_serving sscanf ts) items ms))
  = Nat.min 100 (length ms + length (omap (serving_sample sscanf) items))
  /\ Forall (fun m => (num_neighbors m <= 10)%nat)
            (fold_left (store_neighbors sscanf) items
               (fold_left (store_serving sscanf ts) items ms)).
Proof.
  intros Hlen Hms.
  destruct (fold_store_serving_bounds ts items ms Hlen Hms) as [Hl Hall].
  destruct (fold_store_neighbors_bounds items _ Hall) as [Hl' Hall'].
  rewrite Hl', Hl. split; [reflexivity|exact Hall'].
Qed.

(** *** Samples that leave the state as it is *)

Lemma add_points_dropped ms : forall st,
  (MAX_UE_COUNT <= length (ue_windows st))%nat ->
  Forall (fun m => find_ue_window (ue_windows st) (m_ueID m) = None) ms ->
  add_points st ms = Ok st.
Proof.
  induction ms as [|m ms IH]; intros st Hfull Hms; [reflexivity|].
  apply Forall_cons in Hms as [Hm Hms]. cbn [add_points].
  assert (Hadd : add_to_adaptive_window st (point_of_measurement m) = Ok st).
  { unfold add_to_adaptive_window. cbn [ueID point_of_measurement]. rewrite Hm.
    unfold create_ue_window. apply Nat.leb_le in Hfull. rewrite Hfull. reflexivity. }
  rewrite Hadd. cbn. apply IH; assumption.
Qed.

Lemma log_kpm_measurements_dropped st msg_frm_1 ts :
  measurements st = [] ->
  (length (meas_info_lst msg_frm_1) <> 0)%nat ->
  (forall item info metric,
     item ∈ zip (meas_info_lst msg_frm_1) (meas_data_lst msg_frm_1) ->
     serving_sample sscanf item = Some (info, metric) ->
     find_ue_window (ue_windows st) (info_ueID info) = None
     /\ (MAX_UE_COUNT <= length (ue_windows st))%nat) ->
  log_kpm_measurements sscanf st msg_frm_1 ts = Ok st.
Proof.
  intros Hnone Hlen Hitems. unfold log_kpm_measurements.
  apply Nat.eqb_neq in Hlen. rewrite Hlen.
  destruct (negb _); [reflexivity|].
  unfold process_measurements_to_adaptive_windows. cbn [measurements ue_windows].
  set (ms := fold_left (store_neighbors sscanf) _ _).
  assert (Hms : Forall (fun m => find_ue_window (ue_windows st) (m_ueID m) = None
                                 /\ (MAX_UE_COUNT <= length (ue_windows st))%nat) ms).
  { apply fold_store_neighbors_from; [intros m nbrs Hm; exact Hm|].
    apply fold_store_serving_from; [rewrite Hnone; constructor|].
    intros item info metric pos Hin Hsample. cbn. eapply Hitems; eassumption. }
  destruct ms as [|m ms'] eqn:Hms'.
  - cbn. destruct st; cbn in *. rewrite Hnone. reflexivity.
  - rewrite add_points_dropped; cbn [ue_windows].
    + cbn. destruct st; cbn in *. rewrite Hnone. reflexivity.
    + apply Forall_inv in Hms. apply Hms.
    + eapply Forall_impl; [exact Hms|]. intros m0 [? _]. assumption.
Qed.

(** X5: an indication with at least one item, none of which is an accepted
    serving measurement, leaves the state as it was: no window is created or
    changed and no line is sent, whatever neighbour measurements it
    carries. *)
Theorem report_without_serving_sample_changes_nothing
    (st : state) (msg_frm_1 : kpm_ind_msg_format_1_t) (ts : Z) :
  measurements st = [] ->
  (length (meas_info_lst msg_frm_1) <> 0)%nat ->
  (forall item, item ∈ zip (meas_info_lst msg_frm_1) (meas_data_lst msg_frm_1) ->
     serving_sample sscanf item = None) ->
  log_kpm_measurements sscanf st msg_frm_1 ts = Ok st.
Proof.
  intros Hnone Hlen Hitems. apply log_kpm_measurements_dropped; try assumption.
  intros item info metric Hin Hsample. rewrite (Hitems item Hin) in Hsample. discriminate.
Qed.

(** X6: when the table holds [MAX_UE_COUNT] windows, an indication whose
    accepted serving samples are all of UEs without a window leaves the
    state as it was: the samples are dropped and no line is sent. *)
Theorem full_table_ignores_new_ues
    (st : state) (msg_frm_1 : kpm_ind_msg_format_1_t) (ts : Z) :
  measurements st = [] ->
  (length (meas_info_lst msg_frm_1) <> 0)%nat ->
  length (ue_windows st) = MAX_UE_COUNT ->
  (forall item info metric,
     item ∈ zip (meas_info_lst msg_frm_1) (meas_data_lst msg_frm_1) ->
     serving_sample sscanf item = Some (info, metric) ->
     find_ue_window (ue_windows st) (info_ueID info) = None) ->
  log_kpm_measurements sscanf st msg_frm_1 ts = Ok st.
Proof.
  intros Hnone Hlen Hfull Hitems. apply log_kpm_measurements_dropped; try assumption.
  intros item info metric Hin Hsample. split; [eapply Hitems; eassumption|lia].
Qed.

End WindowInvariants.

Section WindowEdges.

Import MA MA_aux MA_inv.

(** X7: a sample of the window's serving cell whose time is before the
    window's start closes the window at once: the unsigned difference
    wraps around to at least 5000, so the sample is stored, the line is
    sent for the samples including it, and the window is reset to start at
    the sample's time. *)
Theorem sample_older_than_window_start_closes_window
    (w : ue_adaptive_window_t) (point : measurement_point_t) :
  buffer w <> [] -> (count w < BUFFER_SLOTS)%nat ->
  current_serving_cell w = servingCellID point ->
  0 <= timestamp point < window_start_time w ->
  window_start_time w <= 2 ^ 64 - 5000 ->
  add_to_window w point
  = Ok (reset_window w (timestamp point),
        send_window_batch_to_python
          {| ue_id := ue_id w; current_serving_cell := current_serving_cell w;
             window_start_time := window_start_time w;
             window_active := window_active w;
             buffer := buffer w ++ [point] |}).
Proof.
  intros Hne Hroom Hcell Hts Hstart.
  apply add_to_window_close; try assumption.
  unfold to_uint64.
  replace (timestamp point - window_start_time w)
    with (timestamp point - window_start_time w + 1 * 2 ^ 64 - 2 ^ 64) by lia.
  rewrite <- (Z.mod_add _ 1 (2 ^ 64)) by lia.
  replace (timestamp point - window_start_time w + 1 * 2 ^ 64 - 2 ^ 64 + 1 * 2 ^ 64)
    with (timestamp point - window_start_time w + 2 ^ 64) by lia.
  rewrite Z.mod_small by lia. lia.
Qed.

Lemma sum_timestamps_bounds (lo hi : Z) (buf : list measurement_point_t) : forall acc,
  Forall (fun p => lo <= timestamp p <= hi) buf ->
  0 <= lo -> 0 <= acc ->
  acc + Z.of_nat (length buf) * hi < 2 ^ 64 ->
  acc + Z.of_nat (length buf) * lo
  <= fold_left (fun a p => to_uint64 (a + timestamp p)) buf acc
  <= acc + Z.of_nat (length buf) * hi.
Proof.
  induction buf as [|p buf IH]; intros acc Hall Hlo Hacc Hmax.
  - cbn. lia.
  - apply Forall_cons in Hall as [Hp Hall]. cbn [fold_left length] in *.
    assert (Hhi : 0 <= Z.of_nat (length buf) * hi) by nia.
    assert (Hsmall : to_uint64 (acc + timestamp p) = acc + timestamp p).
    { unfold to_uint64. apply Z.mod_small. lia. }
    rewrite Hsmall.
    specialize (IH (acc + timestamp p) Hall Hlo ltac:(lia) ltac:(lia)). lia.
Qed.

(** X8: when the sum of the times does not pass 64 bits, the time on the
    line of a window lies between the earliest and the latest time of its
    samples. *)
Theorem line_timestamp_within_samples
    (w : ue_adaptive_window_t) (line : batch_line) (lo hi : Z) :
  send_window_batch_to_python w = [line] ->
  Forall (fun p => lo <= timestamp p <= hi) (buffer w) ->
  0 <= lo -> Z.of_nat (count w) * hi < 2 ^ 64 ->
  lo <= avg_timestamp line <= hi.
Proof.
  unfold send_window_batch_to_python.
  destruct (last (buffer w)) as [last_point|] eqn:Hlast; [|discriminate].
  intros [= <-] Hall Hlo Hmax. cbn [avg_timestamp].
  assert (Hn : 0 < Z.of_nat (count w)).
  { unfold count. destruct (buffer w); [discriminate|cbn; lia]. }
  pose proof (sum_timestamps_bounds lo hi (buffer w) 0 Hall Hlo ltac:(lia)
                ltac:(exact Hmax)) as [Hlow Hhigh].
  fold (count w) in Hlow, Hhigh. split.
  - apply Z.div_le_lower_bound; lia.
  - apply Z.div_le_upper_bound; lia.
Qed.

End WindowEdges.

Lemma ue_table_distinct_and_bounded_example :
  NoDup (map MA.ue_id
           (MA.ue_windows
              (MA_inv.state_of (MA.run example_sscanf MA.initial_state example_reports))))
  /\ (length (MA.ue_windows
                (MA_inv.state_of (MA.run example_sscanf MA.initial_state example_reports)))
      <= MA.MAX_UE_COUNT)%nat
  /\ MA.measurements
       (MA_inv.state_of (MA.run example_sscanf MA.initial_state example_reports)) = [].
Proof.
  apply (ue_table_distinct_and_bounded example_sscanf example_reports).
  vm_compute. reflexivity.
Defined.

Lemma window_holds_one_cell_within_5000_example :
  Forall (fun w =>
            Forall (fun p => MA.ueID p = MA.ue_id w
                             /\ MA.servingCellID p = MA.current_serving_cell w
                             /\ to_uint64 (MA.timestamp p - MA.window_start_time w) < 5000)
                   (MA.buffer w)
            /\ MA.window_active w = negb (MA.count w =? 0)%nat
            /\ (MA.buffer w = [] -> MA.current_serving_cell w = 0))
         (MA.ue_windows
            (MA_inv.state_of
               (MA.run example_sscanf MA.initial_state (take 1 example_reports)))).
Proof.
  apply (window_holds_one_cell_within_5000 example_sscanf (take 1 example_reports)).
  vm_compute. reflexivity.
Defined.

Lemma lines_only_for_served_ues_example :
  Forall (fun line =>
            MA_inv.served example_sscanf example_reports
              (MA.line_ue_id line) (MA.line_serving_cell line))
         (MA.emitted
            (MA_inv.state_of (MA.run example_sscanf MA.initial_state example_reports))).
Proof.
  apply (lines_only_for_served_ues example_sscanf example_reports).
  vm_compute. reflexivity.
Defined.

Lemma collected_measurements_fit_their_arrays_example :
  length (fold_left (MA.store_neighbors example_sscanf)
            [serving_item; neighbors_item_ue1; neighbors_item_ue1;
             neighbors_item_ue1; neighbors_item_ue1]
            (fold_left (MA.store_serving example_sscanf 0)
               [serving_item; neighbors_item_ue1; neighbors_item_ue1;
                neighbors_item_ue1; neighbors_item_ue1] []))
  = Nat.min 100
      (length (@nil MA.sinr_measurement_t)
       + length (omap (serving_sample example_sscanf)
                   [serving_item; neighbors_item_ue1; neighbors_item_ue1;
                    neighbors_item_ue1; neighbors_item_ue1]))
  /\ Forall (fun m => (MA.num_neighbors m <= 10)%nat)
            (fold_left (MA.store_neighbors example_sscanf)
               [serving_item; neighbors_item_ue1; neighbors_item_ue1;
                neighbors_item_ue1; neighbors_item_ue1]
               (fold_left (MA.store_serving example_sscanf 0)
                  [serving_item; neighbors_item_ue1; neighbors_item_ue1;
                   neighbors_item_ue1; neighbors_item_ue1] [])).
Proof.
  apply (collected_measurements_fit_their_arrays example_sscanf 0
           [serving_item; neighbors_item_ue1; neighbors_item_ue1;
            neighbors_item_ue1; neighbors_item_ue1] []).
  - simpl. lia.
  - constructor.
Defined.

Lemma report_without_serving_sample_changes_nothing_example :
  MA.log_kpm_measurements example_sscanf
    (MA_inv.state_of (MA.run example_sscanf MA.initial_state (take 1 example_reports)))
    (msg_of_items [neighbors_item_ue1; unparsed_item]) 100000
  = Ok (MA_inv.state_of (MA.run example_sscanf MA.initial_state (take 1 example_reports))).
Proof.
  apply (report_without_serving_sample_changes_nothing example_sscanf).
  - reflexivity.
  - simpl. lia.
  - intros item Hitem. rewrite zip_msg_of_items in Hitem.
    repeat (apply elem_of_cons in Hitem as [->|Hitem]; [vm_compute; reflexivity|]).
    inversion Hitem.
Defined.

Lemma full_table_ignores_new_ues_example :
  MA.log_kpm_measurements example_sscanf MA_inv.full_table
    (msg_of_items [serving_item; neighbors_item_ue1]) 0
  = Ok MA_inv.full_table.
Proof.
  apply (full_table_ignores_new_ues example_sscanf).
  - reflexivity.
  - simpl. lia.
  - reflexivity.
  - intros item info metric Hitem Hsample. rewrite zip_msg_of_items in Hitem.
    repeat (apply elem_of_cons in Hitem as [->|Hitem];
            [vm_compute in Hsample;
             first [discriminate | injection Hsample as <- _; vm_compute; reflexivity]|]).
    inversion Hitem.
Defined.

Lemma sample_older_than_window_start_closes_window_example :
  MA.add_to_window (MA_inv.window_with 5000 [(5000, 10.0%float)])
    (MA.point_of_measurement (MA_aux.measurement 1000 1 2 11.0 []))
  = Ok (MA.reset_window (MA_inv.window_with 5000 [(5000, 10.0%float)])
          (MA.timestamp (MA.point_of_measurement (MA_aux.measurement 1000 1 2 11.0 []))),
        MA.send_window_batch_to_python
          {| MA.ue_id := MA.ue_id (MA_inv.window_with 5000 [(5000, 10.0%float)]);
             MA.current_serving_cell :=
               MA.current_serving_cell (MA_inv.window_with 5000 [(5000, 10.0%float)]);
             MA.window_start_time :=
               MA.window_start_time (MA_inv.window_with 5000 [(5000, 10.0%float)]);
             MA.window_active :=
               MA.window_active (MA_inv.window_with 5000 [(5000, 10.0%float)]);
             MA.buffer :=
               MA.buffer (MA_inv.window_with 5000 [(5000, 10.0%float)])
               ++ [MA.point_of_measurement (MA_aux.measurement 1000 1 2 11.0 [])] |}).
Proof.
  apply (sample_older_than_window_start_closes_window
           (MA_inv.window_with 5000 [(5000, 10.0%float)])
           (MA.point_of_measurement (MA_aux.measurement 1000 1 2 11.0 []))).
  - discriminate.
  - unfold MA.count, MA.BUFFER_SLOTS. simpl. lia.
  - reflexivity.
  - simpl. lia.
  - simpl. lia.
Defined.

Lemma line_timestamp_within_samples_example :
  1000 <= MA.avg_timestamp
            (MA.Build_batch_line 2000 1 2 11.0 [0.0; 0.0; 0.0]%float 800.0 800.0)
  <= 3000.
Proof.
  apply (line_timestamp_within_samples
           (MA_inv.window_with 1000 [(1000, 10.0%float); (2000, 11.0%float);
                                     (3000, 12.0%float)])
           (MA.Build_batch_line 2000 1 2 11.0 [0.0; 0.0; 0.0]%float 800.0 800.0)
           1000 3000).
  - vm_compute. reflexivity.
  - repeat constructor; simpl; lia.
  - lia.
  - unfold MA.count. simpl. lia.
Defined.

(** ** ue_localization_MA_v2.c: buffers, lines and burst clock *)

Section BufferInvariants.

Import MAv2 MAv2_aux MAv2_inv.

Variable sscanf : string -> string -> option (Z * Z).

Lemma buffer_ok_fresh id : buffer_ok (fresh_buffer id).
Proof.
  exists zero_history. unfold fresh_buffer, active_neighbor_count. cbn.
  repeat split; try constructor; auto. lia.
Qed.

Lemma add_serving_sample_ok b cell metric ts :
  buffer_ok b ->
  buffer_ok (add_serving_sample b cell metric ts)
  /\ ueID (add_serving_sample b cell metric ts) = ueID b.
Proof.
  intros (h & Hh & Hidx & Hcount & _ & _). split; [|reflexivity].
  exists {| serving_sinr := metric; neighbor_samples := []; timestamp := 0 |}.
  unfold add_serving_sample, active_neighbor_count. cbn.
  rewrite Hh, Hidx. cbn.
  split; [reflexivity|]. split; [reflexivity|].
  split; [destruct Hcount as [-> | ->]; cbn; auto|].
  split; [lia|constructor].
Qed.

Lemma add_neighbor_sample_ok b id metric :
  buffer_ok b -> buffer_ok (add_neighbor_sample b id metric).
Proof.
  intros (h & Hh & Hidx & Hcount & Hlen & Hall).
  assert (Hb : buffer_ok b) by (exists h; auto).
  unfold add_neighbor_sample.
  destruct (id =? servingCellID b) eqn:Hid; [exact Hb|].
  rewrite Hidx. change (Z.rem (0 - 1 + WINDOW_SIZE) WINDOW_SIZE) with 0.
  unfold history_at. rewrite Hh.
  change (default zero_history ([h] !! Z.to_nat 0)) with h.
  destruct (active_neighbor_count h <? 10)%nat eqn:Hroom; [|exact Hb].
  apply Nat.ltb_lt in Hroom. eexists. cbn. split; [reflexivity|].
  split; [reflexivity|]. split; [exact Hcount|].
  unfold active_neighbor_count in *. cbn. rewrite length_app. cbn. split; [lia|].
  apply Forall_app. split; [exact Hall|]. repeat constructor. cbn.
  apply Z.eqb_neq, Hid.
Qed.

Lemma store_pairs_ok records : forall b,
  buffer_ok b -> buffer_ok (MAv2.store_pairs b records).
Proof.
  enough (H : (forall b, buffer_ok b -> buffer_ok (MAv2.store_pairs b records))
              /\ (forall r b, buffer_ok b -> buffer_ok (MAv2.store_pairs b (r :: records))))
    by apply H.
  induction records as [|neighID records [IH1 IH2]].
  - split; intros; assumption.
  - split; [apply IH2|].
    intros r b Hb. cbn [MAv2.store_pairs].
    destruct r as [i|v|]; try (apply IH1, Hb).
    destruct neighID as [i|v'|]; try (apply IH1, Hb).
    apply IH1, add_neighbor_sample_ok, Hb.
Qed.

Lemma get_or_create_ue_buffer_cases bufs id i bufs' lines :
  get_or_create_ue_buffer bufs id = Some (i, bufs', lines) ->
  (bufs' = bufs /\ lines = [] /\ exists b, bufs !! i = Some b /\ ueID b = id)
  \/ (bufs' = bufs ++ [fresh_buffer id] /\ i = length bufs
      /\ lines = [BufferCreated id (length bufs + 1)]
      /\ (length bufs < 28)%nat /\ id ∉ map ueID bufs).
Proof.
  unfold get_or_create_ue_buffer.
  destruct (list_find (fun b => ueID b = id) bufs) as [[j b]|] eqn:Hfind.
  - intros [= <- <- <-]. left. apply list_find_Some in Hfind as (Hj & Hb & _).
    split; [reflexivity|]. split; [reflexivity|]. exists b. split; assumption.
  - destruct (length bufs <? 28)%nat eqn:Hroom; [|discriminate].
    intros [= <- <- <-]. right. apply Nat.ltb_lt in Hroom.
    repeat split; try assumption.
    intros Hin. apply list_find_None in Hfind. rewrite Forall_forall in Hfind.
    change (map ueID bufs) with (ueID <$> bufs) in Hin.
    apply list_elem_of_fmap in Hin as (b & -> & Hb). exact (Hfind b Hb eq_refl).
Qed.

Lemma fmap_alter_same {A B : Type} (g : A -> B) (f : A -> A) (i : nat) (l : list A) :
  (forall a, a ∈ l -> g (f a) = g a) -> g <$> alter f i l = g <$> l.
Proof.
  intros Hsame. apply list_eq. intros j.
  rewrite !list_lookup_fmap, list_lookup_alter.
  destruct (decide (i = j)) as [->|]; [|reflexivity].
  destruct (l !! j) as [a|] eqn:Hj; cbn; [|reflexivity].
  f_equal. apply Hsame. eapply list_elem_of_lookup_2, Hj.
Qed.

Lemma buffers_ok_alter (f : ue_buffer_t -> ue_buffer_t) i bufs :
  (forall b, buffer_ok b -> buffer_ok (f b) /\ ueID (f b) = ueID b) ->
  buffers_ok bufs -> buffers_ok (alter f i bufs).
Proof.
  intros Hf (Hnodup & Hlen & Hall). repeat split.
  - change (map ueID (alter f i bufs)) with (ueID <$> alter f i bufs).
    rewrite fmap_alter_same; [exact Hnodup|].
    intros b Hb. rewrite Forall_forall in Hall. apply Hf, Hall, Hb.
  - rewrite length_alter. exact Hlen.
  - apply Forall_forall. intros b Hb.
    rewrite Forall_forall in Hall.
    apply elem_of_alter in Hb as [Hb|(b0 & Hb0 & ->)]; [apply Hall, Hb|].
    apply Hf, Hall. eapply list_elem_of_lookup_2, Hb0.
Qed.

Lemma buffers_ok_created bufs id i bufs' lines :
  get_or_create_ue_buffer bufs id = Some (i, bufs', lines) ->
  buffers_ok bufs -> buffers_ok bufs'.
Proof.
  intros Hget Hok.
  apply get_or_create_ue_buffer_cases in Hget
    as [(-> & _)|(-> & _ & _ & Hroom & Hnew)]; [exact Hok|].
  destruct Hok as (Hnodup & Hlen & Hall). repeat split.
  - rewrite map_app. apply NoDup_app. repeat split; [exact Hnodup| |apply NoDup_singleton].
    intros u Hu Hin. cbn in Hin. apply list_elem_of_singleton in Hin as ->. exact (Hnew Hu).
  - rewrite length_app. cbn. lia.
  - apply Forall_app. split; [exact Hall|].
    constructor; [apply buffer_ok_fresh|constructor].
Qed.

Lemma store_serving_ok ts st item :
  buffers_ok (ue_buffers st) -> buffers_ok (ue_buffers (MAv2.store_serving sscanf ts st item)).
Proof.
  intros Hok. unfold MAv2.store_serving.
  destruct (serving_sample sscanf item) as [[info metric]|]; [|exact Hok].
  destruct (get_or_create_ue_buffer (ue_buffers st) (info_ueID info))
    as [[[i bufs] lines]|] eqn:Hget; [|exact Hok].
  cbn [ue_buffers]. apply buffers_ok_alter.
  - intros b Hb. apply add_serving_sample_ok, Hb.
  - eapply buffers_ok_created; eassumption.
Qed.

Lemma store_neighbors_ok st item :
  buffers_ok (ue_buffers st) -> buffers_ok (ue_buffers (MAv2.store_neighbors sscanf st item)).
Proof.
  intros Hok. unfold MAv2.store_neighbors.
  destruct (neighbor_list sscanf item) as [[info records]|]; [|exact Hok].
  destruct (get_or_create_ue_buffer (ue_buffers st) (info_ueID info))
    as [[[i bufs] lines]|] eqn:Hget; [|exact Hok].
  cbn [ue_buffers]. apply buffers_ok_alter.
  - intros b Hb. split; [apply store_pairs_ok, Hb|apply store_pairs_history_count].
  - eapply buffers_ok_created; eassumption.
Qed.

Lemma fold_store_serving_ok ts items : forall st,
  buffers_ok (ue_buffers st) ->
  buffers_ok (ue_buffers (fold_left (MAv2.store_serving sscanf ts) items st)).
Proof.
  induction items as [|item items IH]; intros st Hok; [exact Hok|].
  cbn. apply IH, store_serving_ok, Hok.
Qed.

Lemma fold_store_neighbors_ok items : forall st,
  buffers_ok (ue_buffers st) ->
  buffers_ok (ue_buffers (fold_left (MAv2.store_neighbors sscanf) items st)).
Proof.
  induction items as [|item items IH]; intros st Hok; [exact Hok|].
  cbn. apply IH, store_neighbors_ok, Hok.
Qed.

Lemma log_kpm_measurements_buffers st msg_frm_1 ts :
  match MAv2.log_kpm_measurements sscanf st msg_frm_1 ts with
  | Ok st' =>
      ue_buffers st'
      = (if (length (meas_info_lst msg_frm_1) =? length (meas_data_lst msg_frm_1))%nat
         then ue_buffers
                (fold_left (MAv2.store_neighbors sscanf)
                   (zip (meas_info_lst msg_frm_1) (meas_data_lst msg_frm_1))
                   (fold_left (MAv2.store_serving sscanf ts)
                      (zip (meas_info_lst msg_frm_1) (meas_data_lst msg_frm_1)) st))
         else ue_buffers st)
  | _ => True
  end.
Proof.
  unfold MAv2.log_kpm_measurements.
  destruct (length (meas_info_lst msg_frm_1) =? 0)%nat; [exact I|].
  destruct (length (meas_info_lst msg_frm_1) =? length (meas_data_lst msg_frm_1))%nat;
    cbn [negb]; [|reflexivity].
  destruct (fold_left send_ue _ _) as [bs evs]. reflexivity.
Qed.

Lemma run_buffers_ok indications : forall st,
  buffers_ok (ue_buffers st) -> buffers_ok (ue_buffers (MAv2.run sscanf st indications)).
Proof.
  induction indications as [|[msg_frm_1 ts] rest IH]; intros st Hok; [exact Hok|].
  cbn [MAv2.run].
  pose proof (log_kpm_measurements_buffers st msg_frm_1 ts) as Hbufs.
  destruct (MAv2.log_kpm_measurements sscanf st msg_frm_1 ts) as [st'| |]; try exact Hok.
  apply IH. rewrite Hbufs.
  destruct (_ =? _)%nat; [|exact Hok].
  apply fold_store_neighbors_ok, fold_store_serving_ok, Hok.
Qed.

(** X9: in the sequence-numbered program, after any indications the table
    holds at most 28 buffers, no two of the same UE; each buffer has
    [history_count] 0 or 1 and [history_idx] 0, and its current sample holds
    at most ten neighbours, none of which is the serving cell. *)
Theorem ue_buffers_hold_latest_sample_only
    (indications : list (kpm_ind_msg_format_1_t * Z)) :
  NoDup (map ueID (ue_buffers (MAv2.run sscanf MAv2.initial_state indications)))
  /\ (length (ue_buffers (MAv2.run sscanf MAv2.initial_state indications)) <= 28)%nat
  /\ Forall (fun b =>
               (history_count b = 0 \/ history_count b = 1)
               /\ history_idx b = 0
               /\ (length (current_samples b) <= 10)%nat
               /\ Forall (fun s => neighbor_id s <> servingCellID b) (current_samples b))
            (ue_buffers (MAv2.run sscanf MAv2.initial_state indications)).
Proof.
  destruct (run_buffers_ok indications MAv2.initial_state) as (Hnodup & Hlen & Hall).
  { repeat split; [constructor|cbn; lia|constructor]. }
  split; [exact Hnodup|]. split; [exact Hlen|].
  eapply Forall_impl; [exact Hall|].
  intros b (h & Hh & Hidx & Hcount & Hn & Hs).
  split; [exact Hcount|]. split; [exact Hidx|].
  unfold current_samples, history_at. rewrite Hidx, Hh.
  change (Z.rem (0 - 1 + WINDOW_SIZE) WINDOW_SIZE) with 0. cbn.
  split; [exact Hn|exact Hs].
Qed.

(** *** Lines *)

Lemma select_top3_take (neighbors : list neighbor_data_t) :
  (3 <= length neighbors)%nat -> select_top3 neighbors = map top_of (take 3 neighbors).
Proof.
  intros Hlen. destruct neighbors as [|a [|b [|c rest]]]; cbn in Hlen; try lia.
  unfold select_top3. destruct rest; reflexivity.
Qed.

Lemma StronglySorted_take {A : Type} (R : A -> A -> Prop) (n : nat) (l : list A) :
  StronglySorted R l -> StronglySorted R (take n l).
Proof.
  intros Hs. revert n. induction Hs as [|a l Hs IH Ha]; intros [|n]; cbn; try constructor.
  - apply IH.
  - apply Forall_take, Ha.
Qed.

Lemma StronglySorted_map {A B : Type} (R : A -> A -> Prop) (R' : B -> B -> Prop)
    (f : A -> B) (l : list A) :
  (forall u v, R u v -> R' (f u) (f v)) ->
  StronglySorted R l -> StronglySorted R' (map f l).
Proof.
  intros Hf Hs. induction Hs as [|a l Hs IH Ha]; cbn; constructor; [exact IH|].
  apply Forall_map. eapply Forall_impl; [exact Ha|]. intros v. apply Hf.
Qed.

(** X10: a line that [check_and_send_ue_data] writes carries the sequence
    number given, the UE and the serving cell of the buffer, a serving SINR
    that is not NaN, and exactly three neighbours: the first three of the
    buffer's ranking, each with a cell id that is neither 0 nor the serving
    cell and a SINR that is not NaN, in an order in which no SINR is below
    a later one. *)
Theorem sent_line_carries_three_ranked_neighbors
    (ue_buf : ue_buffer_t) (sequence : Z) (line : csv_line) :
  check_and_send_ue_data ue_buf sequence = Some line ->
  sequence_timestamp line = sequence
  /\ line_ueID line = ueID ue_buf
  /\ line_servingCellID line = servingCellID ue_buf
  /\ isnan (serving_sinr_ma line) = false
  /\ top3 line = map top_of (take 3 (rank ue_buf))
  /\ length (top3 line) = 3%nat
  /\ Forall (fun t => top_cell_id t <> 0
                      /\ top_cell_id t <> servingCellID ue_buf
                      /\ isnan (top_sinr t) = false) (top3 line)
  /\ StronglySorted (fun u v => (top_sinr v <=? top_sinr u)%float = true) (top3 line).
Proof.
  unfold check_and_send_ue_data.
  destruct (isnan _) eqn:Hnan; [discriminate|].
  destruct (length (rank ue_buf) <? MIN_NEIGHBORS_REQUIRED)%nat eqn:Hfew; [discriminate|].
  apply Nat.ltb_ge in Hfew. unfold MIN_NEIGHBORS_REQUIRED in Hfew.
  intros [= <-]. cbn [sequence_timestamp line_ueID line_servingCellID serving_sinr_ma top3].
  rewrite select_top3_take by exact Hfew.
  assert (Hvalid : Forall (fun n => n_cellID n <> servingCellID ue_buf
                                    /\ isnan (sinr n) = false /\ n_cellID n <> 0)
                          (rank ue_buf)).
  { apply Forall_forall. intros n Hn. apply rank_valid, Hn. }
  repeat split; try assumption.
  - rewrite length_map, length_take. lia.
  - apply Forall_map, Forall_take. eapply Forall_impl; [exact Hvalid|].
    intros n (? & ? & ?). cbn. auto.
  - apply (StronglySorted_map (fun u v => (sinr v <=? sinr u)%float = true)); [auto|].
    apply StronglySorted_take.
    apply (StronglySorted_within not_below _ (fun n => isnan (sinr n) = false)).
    + eapply Forall_impl; [exact Hvalid|]. intros n (? & ? & ?). assumption.
    + intros u v Hu Hv Huv. apply ltb_false_leb; assumption.
    + apply sort_neighbors_sorted.
Qed.

(** *** One line per buffer and call *)

Lemma sent_ues_assign T bs ue_id :
  sent_ues (assign_sequence_timestamp T bs ue_id).2 = [].
Proof.
  unfold assign_sequence_timestamp.
  destruct (assigned bs ue_id); [reflexivity|].
  match goal with |- context [if ?c then _ else _] => destruct c end; reflexivity.
Qed.

Lemma sent_ues_check_and_send b r :
  sent_ues match check_and_send_ue_data b r with
           | Some line => [Sent line]
           | None => []
           end
  = if negb (isnan (serving_sinr
                      (history_at b (Z.rem (history_idx b - 1 + WINDOW_SIZE) WINDOW_SIZE))))
       && negb (length (rank b) <? MIN_NEIGHBORS_REQUIRED)%nat
    then [ueID b] else [].
Proof.
  unfold check_and_send_ue_data.
  destruct (isnan _); [reflexivity|].
  destruct (length (rank b) <? MIN_NEIGHBORS_REQUIRED)%nat; reflexivity.
Qed.

Lemma sent_ues_send_ue acc b :
  sent_ues (snd (send_ue acc b))
  = sent_ues (snd acc) ++ (if eligible b then [ueID b] else []).
Proof.
  unfold send_ue, eligible. rewrite Nat.leb_antisym, <- andb_assoc.
  destruct (0 <? history_count b); cbn [andb]; [|symmetry; apply app_nil_r].
  pose proof (sent_ues_assign TOTAL_UES acc.1 (ueID b)) as Hassign.
  destruct (assign_sequence_timestamp TOTAL_UES acc.1 (ueID b)) as [[bs r] lines].
  cbn [snd] in Hassign |- *. rewrite <- sent_ues_check_and_send with (r := r).
  unfold sent_ues in *. rewrite !omap_app, Hassign. reflexivity.
Qed.

Lemma sent_ues_fold_send_ue bufs : forall acc,
  sent_ues (snd (fold_left send_ue bufs acc))
  = sent_ues (snd acc) ++ map ueID (List.filter eligible bufs).
Proof.
  induction bufs as [|b bufs IH]; intros acc; cbn [fold_left List.filter map].
  - symmetry. apply app_nil_r.
  - rewrite IH, sent_ues_send_ue, <- app_assoc.
    destruct (eligible b); reflexivity.
Qed.

Lemma sent_ues_created bufs id i bufs' lines :
  get_or_create_ue_buffer bufs id = Some (i, bufs', lines) -> sent_ues lines = [].
Proof.
  intros Hget. apply get_or_create_ue_buffer_cases in Hget
    as [(_ & -> & _)|(_ & _ & -> & _)]; reflexivity.
Qed.

Lemma sent_ues_fold_store_serving ts items : forall st,
  sent_ues (events (fold_left (MAv2.store_serving sscanf ts) items st))
  = sent_ues (events st).
Proof.
  induction items as [|item items IH]; intros st; [reflexivity|].
  cbn [fold_left]. rewrite IH. unfold MAv2.store_serving.
  destruct (serving_sample sscanf item) as [[info metric]|]; [|reflexivity].
  destruct (get_or_create_ue_buffer (ue_buffers st) (info_ueID info))
    as [[[i bufs] lines]|] eqn:Hget; [|reflexivity].
  cbn [events]. unfold sent_ues at 1. rewrite omap_app.
  fold (sent_ues lines). rewrite (sent_ues_created _ _ _ _ _ Hget). apply app_nil_r.
Qed.

Lemma sent_ues_fold_store_neighbors items : forall st,
  sent_ues (events (fold_left (MAv2.store_neighbors sscanf) items st))
  = sent_ues (events st).
Proof.
  induction items as [|item items IH]; intros st; [reflexivity|].
  cbn [fold_left]. rewrite IH. unfold MAv2.store_neighbors.
  destruct (neighbor_list sscanf item) as [[info records]|]; [|reflexivity].
  destruct (get_or_create_ue_buffer (ue_buffers st) (info_ueID info))
    as [[[i bufs] lines]|] eqn:Hget; [|reflexivity].
  cbn [events]. unfold sent_ues at 1. rewrite omap_app.
  fold (sent_ues lines). rewrite (sent_ues_created _ _ _ _ _ Hget). apply app_nil_r.
Qed.

(** X11: a call of [log_kpm_measurements] that returns, on an indication
    with as many data items as info items, sends exactly one line for each
    buffer of the resulting table that has a serving sample that is not NaN
    and at least three ranked neighbours, in the order of the table, whether
    the indication mentioned that UE or not. *)
Theorem every_call_sends_one_line_per_eligible_buffer
    (st st' : MAv2.state) (msg_frm_1 : kpm_ind_msg_format_1_t) (ts : Z) :
  MAv2.log_kpm_measurements sscanf st msg_frm_1 ts = Ok st' ->
  length (meas_info_lst msg_frm_1) = length (meas_data_lst msg_frm_1) ->
  sent_ues (events st')
  = sent_ues (events st) ++ map ueID (List.filter eligible (ue_buffers st')).
Proof.
  unfold MAv2.log_kpm_measurements. intros Hlog Hlen.
  destruct (length (meas_info_lst msg_frm_1) =? 0)%nat; [discriminate|].
  rewrite Hlen, Nat.eqb_refl in Hlog. cbn [negb] in Hlog.
  set (st2 := fold_left (MAv2.store_neighbors sscanf) _ _) in Hlog.
  pose proof (sent_ues_fold_send_ue (ue_buffers st2) (burst st2, events st2)) as Hsend.
  destruct (fold_left send_ue (ue_buffers st2) (burst st2, events st2)) as [bs evs].
  injection Hlog as <-. cbn [events ue_buffers snd] in *.
  rewrite Hsend. f_equal. unfold st2.
  rewrite sent_ues_fold_store_neighbors, sent_ues_fold_store_serving. reflexivity.
Qed.

End BufferInvariants.


Section BurstInvariant.

Import MAv2 MAv2_aux MAv2_inv.







End BurstInvariant.

Lemma sent_line_carries_three_ranked_neighbors_example :
  MAv2.sequence_timestamp
    (MAv2_inv.written
       (MAv2.check_and_send_ue_data
          (MAv2_aux.sample_buffer 2 20.5
             [candidate 5 12.0; candidate 6 9.0; candidate 7 8.0; candidate 3 15.0]) 7))
  = 7
  /\ MAv2.line_ueID
       (MAv2_inv.written
          (MAv2.check_and_send_ue_data
             (MAv2_aux.sample_buffer 2 20.5
                [candidate 5 12.0; candidate 6 9.0; candidate 7 8.0; candidate 3 15.0]) 7))
     = MAv2.ueID
         (MAv2_aux.sample_buffer 2 20.5
            [candidate 5 12.0; candidate 6 9.0; candidate 7 8.0; candidate 3 15.0])
  /\ MAv2.line_servingCellID
       (MAv2_inv.written
          (MAv2.check_and_send_ue_data
             (MAv2_aux.sample_buffer 2 20.5
                [candidate 5 12.0; candidate 6 9.0; candidate 7 8.0; candidate 3 15.0]) 7))
     = MAv2.servingCellID
         (MAv2_aux.sample_buffer 2 20.5
            [candidate 5 12.0; candidate 6 9.0; candidate 7 8.0; candidate 3 15.0])
  /\ isnan
       (MAv2.serving_sinr_ma
          (MAv2_inv.written
             (MAv2.check_and_send_ue_data
                (MAv2_aux.sample_buffer 2 20.5
                   [candidate 5 12.0; candidate 6 9.0; candidate 7 8.0; candidate 3 15.0])
                7)))
     = false
  /\ MAv2.top3
       (MAv2_inv.written
          (MAv2.check_and_send_ue_data
             (MAv2_aux.sample_buffer 2 20.5
                [candidate 5 12.0; candidate 6 9.0; candidate 7 8.0; candidate 3 15.0]) 7))
     = map MAv2_inv.top_of
         (take 3
            (MAv2.rank
               (MAv2_aux.sample_buffer 2 20.5
                  [candidate 5 12.0; candidate 6 9.0; candidate 7 8.0; candidate 3 15.0])))
  /\ length
       (MAv2.top3
          (MAv2_inv.written
             (MAv2.check_and_send_ue_data
                (MAv2_aux.sample_buffer 2 20.5
                   [candidate 5 12.0; candidate 6 9.0; candidate 7 8.0; candidate 3 15.0])
                7)))
     = 3%nat
  /\ Forall (fun t => MAv2.top_cell_id t <> 0
                      /\ MAv2.top_cell_id t
                         <> MAv2.servingCellID
                              (MAv2_aux.sample_buffer 2 20.5
                                 [candidate 5 12.0; candidate 6 9.0; candidate 7 8.0;
                                  candidate 3 15.0])
                      /\ isnan (MAv2.top_sinr t) = false)
            (MAv2.top3
               (MAv2_inv.written
                  (MAv2.check_and_send_ue_data
                     (MAv2_aux.sample_buffer 2 20.5
                        [candidate 5 12.0; candidate 6 9.0; candidate 7 8.0;
                         candidate 3 15.0]) 7)))
  /\ StronglySorted (fun u v => (MAv2.top_sinr v <=? MAv2.top_sinr u)%float = true)
       (MAv2.top3
          (MAv2_inv.written
             (MAv2.check_and_send_ue_data
                (MAv2_aux.sample_buffer 2 20.5
                   [candidate 5 12.0; candidate 6 9.0; candidate 7 8.0; candidate 3 15.0])
                7))).
Proof.
  apply (sent_line_carries_three_ranked_neighbors
           (MAv2_aux.sample_buffer 2 20.5
              [candidate 5 12.0; candidate 6 9.0; candidate 7 8.0; candidate 3 15.0]) 7).
  vm_compute. reflexivity.
Defined.

Lemma every_call_sends_one_line_per_eligible_buffer_example :
  MAv2_inv.sent_ues
    (MAv2.events
       (MAv2.run example_sscanf MAv2.initial_state
          [(msg_of_items [serving_item; neighbors_item_ue1; neighbors_item_ue5], 100)]))
  = MAv2_inv.sent_ues (MAv2.events MAv2.initial_state)
    ++ map MAv2.ueID
         (List.filter MAv2_inv.eligible
            (MAv2.ue_buffers
               (MAv2.run example_sscanf MAv2.initial_state
                  [(msg_of_items [serving_item; neighbors_item_ue1; neighbors_item_ue5],
                    100)]))).
Proof.
  apply (every_call_sends_one_line_per_eligible_buffer example_sscanf MAv2.initial_state
           (MAv2.run example_sscanf MAv2.initial_state
              [(msg_of_items [serving_item; neighbors_item_ue1; neighbors_item_ue5], 100)])
           (msg_of_items [serving_item; neighbors_item_ue1; neighbors_item_ue5]) 100).
  - vm_compute. reflexivity.
  - reflexivity.
Defined.


(** ** ue_localization_MA_v2.c, first program: sums and rounds *)

Section Batch.

Import MA5s MA5s_aux.

Variable sscanf : string -> string -> option (Z * Z).

Lemma incr_Done n m : incr n = Done m -> n < INT_MAX /\ m = n + 1.
Proof.
  unfold incr. destruct (INT_MAX <=? n) eqn:H; [discriminate|].
  apply Z.leb_gt in H. intros [= <-]. split; [exact H|reflexivity].
Qed.

Lemma batch_buffer_ok_fresh id : buffer_ok (fresh_buffer id).
Proof.
  unfold buffer_ok, fresh_buffer, active_neighbors, INT_MAX. cbn.
  split; [lia|]. split; [constructor|]. split; [constructor|]. split; [lia|reflexivity].
Qed.

Lemma add_serving_sinr_to_buffer_ok b cell sinr ts b' :
  buffer_ok b -> add_serving_sinr_to_buffer b cell sinr ts = Done b' ->
  buffer_ok b' /\ ueID b' = ueID b.
Proof.
  intros (Hn & Hnodup & Hall & Hcount & Hdata). unfold add_serving_sinr_to_buffer.
  destruct (incr (serving_sinr_count b)) as [count| |] eqn:Hincr; try discriminate.
  apply incr_Done in Hincr as [Hlt ->]. cbn. intros [= <-].
  split; [|reflexivity]. unfold buffer_ok, active_neighbors in *. cbn.
  split; [exact Hn|]. split; [exact Hnodup|]. split; [exact Hall|].
  split; [lia|]. symmetry. apply Z.ltb_lt. lia.
Qed.

Lemma list_find_None_notin (nbrs : list neighbor_sum_t) (id : Z) :
  list_find (fun n => neighCellID n = id) nbrs = None -> id ∉ map neighCellID nbrs.
Proof.
  intros Hfind Hin. apply list_find_None in Hfind. rewrite Forall_forall in Hfind.
  change (map neighCellID nbrs) with (neighCellID <$> nbrs) in Hin.
  apply list_elem_of_fmap in Hin as (n & -> & Hn). exact (Hfind n Hn eq_refl).
Qed.

Lemma map_insert_same {A B : Type} (g : A -> B) (l : list A) (i : nat) (a a' : A) :
  l !! i = Some a -> g a' = g a -> map g (<[i := a']> l) = map g l.
Proof.
  intros Hi Hg. change (map g) with (fmap (M := list) g).
  rewrite list_fmap_insert, Hg. apply list_insert_id.
  rewrite list_lookup_fmap, Hi. reflexivity.
Qed.

Lemma add_neighbor_sinr_to_buffer_ok b id sinr b' :
  buffer_ok b -> add_neighbor_sinr_to_buffer b id sinr = Done b' ->
  buffer_ok b' /\ ueID b' = ueID b.
Proof.
  intros Hb. pose proof Hb as (Hn & Hnodup & Hall & Hcount & Hdata).
  unfold add_neighbor_sinr_to_buffer.
  destruct (list_find (fun n => neighCellID n = id) (neighbors b)) as [[i n]|] eqn:Hfind.
  - apply list_find_Some in Hfind as (Hi & Hid & _).
    destruct (incr (sinr_count n)) as [count| |] eqn:Hincr; try discriminate.
    apply incr_Done in Hincr as [Hlt ->]. cbn. intros [= <-].
    split; [|reflexivity]. unfold buffer_ok, active_neighbors, with_neighbors in *. cbn.
    rewrite length_insert.
    rewrite (map_insert_same neighCellID _ i n) by (try exact Hi; reflexivity).
    split; [exact Hn|]. split; [exact Hnodup|]. split; [|split; assumption].
    apply Forall_insert; [exact Hall|]. cbn.
    rewrite Forall_forall in Hall.
    specialize (Hall n (list_elem_of_lookup_2 _ _ _ Hi)). lia.
  - destruct (active_neighbors b <? 10)%nat eqn:Hroom; [|intros [= <-]; auto].
    apply Nat.ltb_lt in Hroom. intros [= <-].
    split; [|reflexivity]. unfold buffer_ok, active_neighbors, with_neighbors in *. cbn.
    rewrite length_app, map_app. cbn.
    split; [lia|]. split; [|split; [|split; assumption]].
    + apply NoDup_app. split; [exact Hnodup|]. split; [|apply NoDup_singleton].
      intros u Hu Hin. apply list_elem_of_singleton in Hin as ->.
      exact (list_find_None_notin _ _ Hfind Hu).
    + apply Forall_app. split; [exact Hall|]. constructor; [|constructor].
      cbn. unfold INT_MAX. lia.
Qed.

Lemma batch_store_pairs_ok records : forall b b',
  buffer_ok b -> MA5s.store_pairs b records = Done b' ->
  buffer_ok b' /\ ueID b' = ueID b.
Proof.
  enough (H : (forall b b', buffer_ok b -> MA5s.store_pairs b records = Done b' ->
                 buffer_ok b' /\ ueID b' = ueID b)
              /\ (forall r b b', buffer_ok b ->
                    MA5s.store_pairs b (r :: records) = Done b' ->
                    buffer_ok b' /\ ueID b' = ueID b))
    by apply H.
  induction records as [|neighID records [IH1 IH2]].
  - split; intros; cbn in *; match goal with H : Done _ = Done _ |- _ =>
                                               injection H as <- end; auto.
  - split; [apply IH2|].
    intros r b b' Hb. cbn [MA5s.store_pairs].
    destruct r as [i|v|]; try (cbn; apply IH1, Hb).
    destruct neighID as [i|v'|]; try (cbn; apply IH1, Hb).
    destruct (add_neighbor_sinr_to_buffer b (to_uint16 i) v) as [b1| |] eqn:Hadd;
      try discriminate.
    cbn. intros Hrest.
    destruct (add_neighbor_sinr_to_buffer_ok _ _ _ _ Hb Hadd) as [Hb1 Hid1].
    destruct (IH1 b1 b' Hb1 Hrest) as [Hb' Hid']. split; [exact Hb'|congruence].
Qed.

Lemma batch_get_or_create_ue_buffer_cases bufs id i b bufs' lines :
  get_or_create_ue_buffer bufs id = Some (i, b, bufs', lines) ->
  (bufs' = bufs /\ lines = [] /\ bufs !! i = Some b /\ ueID b = id)
  \/ (bufs' = bufs ++ [fresh_buffer id] /\ i = length bufs /\ b = fresh_buffer id
      /\ lines = [BufferCreated id (length bufs + 1)]
      /\ (length bufs < 20)%nat /\ id ∉ map ueID bufs).
Proof.
  unfold get_or_create_ue_buffer.
  destruct (list_find (fun b => ueID b = id) bufs) as [[j b0]|] eqn:Hfind.
  - intros [= <- <- <- <-]. left. apply list_find_Some in Hfind as (Hj & Hb & _).
    repeat split; assumption.
  - destruct (length bufs <? 20)%nat eqn:Hroom; [|discriminate].
    intros [= <- <- <- <-]. right. apply Nat.ltb_lt in Hroom.
    repeat split; try assumption.
    intros Hin. apply list_find_None in Hfind. rewrite Forall_forall in Hfind.
    change (map ueID bufs) with (ueID <$> bufs) in Hin.
    apply list_elem_of_fmap in Hin as (b0 & -> & Hb). exact (Hfind b0 Hb eq_refl).
Qed.

Lemma buffers_ok_update bufs id i b bufs' lines b' :
  get_or_create_ue_buffer bufs id = Some (i, b, bufs', lines) ->
  buffers_ok bufs ->
  (buffer_ok b -> buffer_ok b' /\ ueID b' = ueID b) ->
  buffers_ok (<[i := b']> bufs').
Proof.
  intros Hget (Hnodup & Hlen & Hall) Hb'.
  apply batch_get_or_create_ue_buffer_cases in Hget
    as [(-> & _ & Hi & Hid)|(-> & -> & -> & _ & Hroom & Hnew)].
  - assert (Hb : buffer_ok b).
    { rewrite Forall_forall in Hall. apply Hall. eapply list_elem_of_lookup_2, Hi. }
    destruct (Hb' Hb) as [Hok Hsame]. repeat split.
    + rewrite (map_insert_same ueID _ i b) by assumption. exact Hnodup.
    + rewrite length_insert. exact Hlen.
    + apply Forall_insert; assumption.
  - destruct (Hb' (batch_buffer_ok_fresh id)) as [Hok Hsame].
    assert (Hins : <[length bufs := b']> (bufs ++ [fresh_buffer id]) = bufs ++ [b']).
    { rewrite insert_app_r_alt by lia. rewrite Nat.sub_diag. reflexivity. }
    rewrite Hins. repeat split.
    + rewrite map_app. apply NoDup_app. split; [exact Hnodup|].
      split; [|apply NoDup_singleton].
      intros u Hu Hin. cbn in Hin. apply list_elem_of_singleton in Hin as ->.
      rewrite Hsame in Hu. exact (Hnew Hu).
    + rewrite length_app. cbn. lia.
    + apply Forall_app. split; [exact Hall|]. constructor; [exact Hok|constructor].
Qed.

Lemma batch_store_serving_ok ts st item st' :
  buffers_ok (ue_buffers st) -> MA5s.store_serving sscanf ts st item = Done st' ->
  buffers_ok (ue_buffers st') /\ last_prediction_time st' = last_prediction_time st.
Proof.
  intros Hok. unfold MA5s.store_serving.
  destruct (serving_sample sscanf item) as [[info metric]|]; [|intros [= <-]; auto].
  destruct (get_or_create_ue_buffer (ue_buffers st) (info_ueID info))
    as [[[[i b] bufs] lines]|] eqn:Hget; [|intros [= <-]; auto].
  destruct (add_serving_sinr_to_buffer b (info_cellID info) metric ts) as [b'| |] eqn:Hadd;
    try discriminate.
  cbn. intros [= <-]. cbn. split; [|reflexivity].
  eapply buffers_ok_update; [exact Hget|exact Hok|].
  intros Hb. eapply add_serving_sinr_to_buffer_ok; eassumption.
Qed.

Lemma batch_store_neighbors_ok st item st' :
  buffers_ok (ue_buffers st) -> MA5s.store_neighbors sscanf st item = Done st' ->
  buffers_ok (ue_buffers st') /\ last_prediction_time st' = last_prediction_time st.
Proof.
  intros Hok. unfold MA5s.store_neighbors.
  destruct (neighbor_list sscanf item) as [[info records]|]; [|intros [= <-]; auto].
  destruct (get_or_create_ue_buffer (ue_buffers st) (info_ueID info))
    as [[[[i b] bufs] lines]|] eqn:Hget; [|intros [= <-]; auto].
  destruct (MA5s.store_pairs b records) as [b'| |] eqn:Hadd; try discriminate.
  cbn. intros [= <-]. cbn. split; [|reflexivity].
  eapply buffers_ok_update; [exact Hget|exact Hok|].
  intros Hb. eapply batch_store_pairs_ok; eassumption.
Qed.

Lemma batch_for_each_item_cons body item items st :
  for_each_item body (item :: items) st
  = st' ← body st item; for_each_item body items st'.
Proof.
  unfold for_each_item. cbn [fold_left]. cbn [mbind result_bind].
  destruct (body st item) as [st'| |]; cbn; try reflexivity.
  - induction items as [|i items IH]; [reflexivity|exact IH].
  - induction items as [|i items IH]; [reflexivity|exact IH].
Qed.

(** A property of the state that every iteration keeps is kept by the loop. *)
Lemma batch_for_each_item_keeps (Q : state -> Prop) body items : forall st st',
  (forall s item s', Q s -> body s item = Done s' -> Q s') ->
  Q st -> for_each_item body items st = Done st' -> Q st'.
Proof.
  induction items as [|item items IH]; intros st st' Hbody Hst.
  - unfold for_each_item. cbn. intros [= <-]. exact Hst.
  - rewrite batch_for_each_item_cons.
    destruct (body st item) as [s1| |] eqn:Hs1; try discriminate.
    cbn. apply IH; [exact Hbody|]. eapply Hbody; eassumption.
Qed.


(** *** Processing *)

Lemma fold_send_ue t bufs : forall acc,
  fold_left (send_ue t) bufs acc
  = (fst acc
     ++ concat (map (round_lines t) bufs),
     snd acc + Z.of_nat (length (List.filter with_data bufs))).
Proof.
  induction bufs as [|b bufs IH]; intros [evs n]; cbn [fold_left map concat List.filter].
  - cbn. rewrite app_nil_r, Z.add_0_r. reflexivity.
  - rewrite IH. unfold send_ue, round_lines, with_data.
    destruct (has_data b), (serving_sinr_count b =? 0);
      cbn [negb orb andb fst snd app length]; try reflexivity.
    rewrite <- app_assoc. f_equal. lia.
Qed.

Lemma process_and_send_averaged_data_spec bufs t :
  process_and_send_averaged_data bufs t
  = (map clear_buffer bufs,
     [Processing t]
     ++ concat (map (round_lines t) bufs)
     ++ [Processed (Z.of_nat (length (List.filter with_data bufs)))]).
Proof.
  unfold process_and_send_averaged_data. rewrite fold_send_ue. cbn [fst snd].
  rewrite <- app_assoc. reflexivity.
Qed.

Lemma sent_lines_round t bufs :
  sent_lines
    (concat (map (round_lines t) bufs))
  = map (fun b => line_of b t) (List.filter with_data bufs).
Proof.
  induction bufs as [|b bufs IH]; [reflexivity|].
  cbn [map concat List.filter]. unfold sent_lines in *. rewrite omap_app, IH.
  unfold round_lines. destruct (with_data b); reflexivity.
Qed.

Lemma processing_times_round t bufs :
  processing_times
    (concat (map (round_lines t) bufs))
  = [].
Proof.
  induction bufs as [|b bufs IH]; [reflexivity|].
  cbn [map concat]. unfold processing_times in *. rewrite omap_app, IH.
  unfold round_lines. destruct (with_data b); reflexivity.
Qed.

Lemma processing_times_app evs evs' :
  processing_times (evs ++ evs') = processing_times evs ++ processing_times evs'.
Proof. apply omap_app. Qed.

Lemma processing_times_cons t evs :
  processing_times (Processing t :: evs) = t :: processing_times evs.
Proof. reflexivity. Qed.

Lemma with_data_clear_buffer bufs : List.filter with_data (map clear_buffer bufs) = [].
Proof. induction bufs as [|b bufs IH]; [reflexivity|exact IH]. Qed.

Lemma buffers_ok_clear bufs : buffers_ok bufs -> buffers_ok (map clear_buffer bufs).
Proof.
  intros (Hnodup & Hlen & _). repeat split.
  - rewrite map_map. exact Hnodup.
  - rewrite length_map. exact Hlen.
  - apply Forall_map, Forall_forall. intros b _.
    unfold buffer_ok, clear_buffer, active_neighbors, INT_MAX. cbn.
    split; [lia|]. split; [constructor|]. split; [constructor|]. split; [lia|reflexivity].
Qed.

Lemma sent_lines_process bufs t :
  sent_lines (process_and_send_averaged_data bufs t).2
  = map (fun b => line_of b t) (List.filter with_data bufs).
Proof.
  rewrite process_and_send_averaged_data_spec. cbn [snd].
  rewrite <- sent_lines_round. unfold sent_lines.
  rewrite omap_app. cbn [omap list_omap app]. rewrite omap_app. cbn [omap list_omap].
  apply app_nil_r.
Qed.

(** X17: [process_and_send_averaged_data] sends one line for each buffer
    that has data, in the order of the table, keeps the UE and serving cell
    of every buffer and clears its sums, counts, neighbours and
    [has_data]; a second round right after the first sends no line. *)
Theorem processing_sends_and_clears (bufs : list ue_buffer_t) (t t' : Z) :
  map ueID (process_and_send_averaged_data bufs t).1 = map ueID bufs
  /\ map servingCellID (process_and_send_averaged_data bufs t).1 = map servingCellID bufs
  /\ Forall (fun b => has_data b = false /\ serving_sinr_count b = 0
                      /\ serving_sinr_sum b = 0%float /\ neighbors b = [])
            (process_and_send_averaged_data bufs t).1
  /\ sent_lines (process_and_send_averaged_data bufs t).2
     = map (fun b => line_of b t) (List.filter with_data bufs)
  /\ sent_lines
       (process_and_send_averaged_data (process_and_send_averaged_data bufs t).1 t').2
     = [].
Proof.
  rewrite !sent_lines_process.
  rewrite (process_and_send_averaged_data_spec bufs t). cbn [fst].
  rewrite !map_map. cbn [ueID servingCellID clear_buffer].
  split; [reflexivity|]. split; [reflexivity|]. split; [|split; [reflexivity|]].
  - apply Forall_map, Forall_forall. intros b _. cbn. auto.
  - rewrite with_data_clear_buffer. reflexivity.
Qed.

(** *** The state between two calls *)

Lemma collect_keeps ts items st st' :
  buffers_ok (ue_buffers st) ->
  (st1 ← for_each_item (MA5s.store_serving sscanf ts) items st;
   for_each_item (MA5s.store_neighbors sscanf) items st1) = Done st' ->
  buffers_ok (ue_buffers st')
  /\ last_prediction_time st' = last_prediction_time st
  /\ processing_times (events st') = processing_times (events st).
Proof.
  set (Q := fun s : state =>
              buffers_ok (ue_buffers s)
              /\ last_prediction_time s = last_prediction_time st
              /\ processing_times (events s) = processing_times (events st)).
  assert (Hcreated : forall bufs id i b bufs' lines,
             get_or_create_ue_buffer bufs id = Some (i, b, bufs', lines) ->
             processing_times lines = []).
  { intros bufs id i b bufs' lines Hget.
    apply batch_get_or_create_ue_buffer_cases in Hget
      as [(_ & -> & _)|(_ & _ & _ & -> & _)]; reflexivity. }
  assert (Hs : forall s item s', Q s -> MA5s.store_serving sscanf ts s item = Done s' -> Q s').
  { intros s item s' (Hok & Hlast & Htimes) Hstore.
    destruct (batch_store_serving_ok ts s item s' Hok Hstore) as [Hok' Hlast'].
    split; [exact Hok'|]. split; [congruence|]. rewrite <- Htimes.
    unfold MA5s.store_serving in Hstore.
    destruct (serving_sample sscanf item) as [[info metric]|];
      [|injection Hstore as <-; reflexivity].
    destruct (get_or_create_ue_buffer (ue_buffers s) (info_ueID info))
      as [[[[i b] bufs] lines]|] eqn:Hget; [|injection Hstore as <-; reflexivity].
    destruct (add_serving_sinr_to_buffer b (info_cellID info) metric ts) as [b'| |];
      try discriminate.
    cbn in Hstore. injection Hstore as <-. cbn [events].
    unfold processing_times at 1. rewrite omap_app. fold (processing_times lines).
    rewrite (Hcreated _ _ _ _ _ _ Hget). apply app_nil_r. }
  assert (Hn : forall s item s', Q s -> MA5s.store_neighbors sscanf s item = Done s' -> Q s').
  { intros s item s' (Hok & Hlast & Htimes) Hstore.
    destruct (batch_store_neighbors_ok s item s' Hok Hstore) as [Hok' Hlast'].
    split; [exact Hok'|]. split; [congruence|]. rewrite <- Htimes.
    unfold MA5s.store_neighbors in Hstore.
    destruct (neighbor_list sscanf item) as [[info records]|];
      [|injection Hstore as <-; reflexivity].
    destruct (get_or_create_ue_buffer (ue_buffers s) (info_ueID info))
      as [[[[i b] bufs] lines]|] eqn:Hget; [|injection Hstore as <-; reflexivity].
    destruct (MA5s.store_pairs b records) as [b'| |]; try discriminate.
    cbn in Hstore. injection Hstore as <-. cbn [events].
    unfold processing_times at 1. rewrite omap_app. fold (processing_times lines).
    rewrite (Hcreated _ _ _ _ _ _ Hget). apply app_nil_r. }
  intros Hok.
  destruct (for_each_item (MA5s.store_serving sscanf ts) items st) as [st1| |] eqn:H1;
    try discriminate.
  cbn. intros H2.
  assert (Q st1).
  { eapply batch_for_each_item_keeps; [exact Hs| |exact H1].
    split; [exact Hok|]. split; reflexivity. }
  eapply (batch_for_each_item_keeps Q); [exact Hn| |exact H2]. assumption.
Qed.

Lemma log_kpm_measurements_keeps st msg_frm_1 ts st' :
  buffers_ok (ue_buffers st) -> times_ok st ->
  0 <= ts < 2 ^ 64 -> last_prediction_time st <= ts ->
  MA5s.log_kpm_measurements sscanf st msg_frm_1 ts = Done st' ->
  buffers_ok (ue_buffers st') /\ times_ok st' /\ last_prediction_time st' <= ts.
Proof.
  intros Hok (Hsorted & Hbefore & Hlast) Hts Hle. unfold MA5s.log_kpm_measurements.
  destruct (length (meas_info_lst msg_frm_1) =? 0)%nat; [discriminate|].
  destruct (negb _).
  { intros [= <-]. split; [exact Hok|].
    split; [exact (conj Hsorted (conj Hbefore Hlast))|exact Hle]. }
  set (st0 := if last_prediction_time st =? 0 then _ else st).
  assert (H0 : buffers_ok (ue_buffers st0)
               /\ processing_times (events st0) = processing_times (events st)
               /\ 0 <= last_prediction_time st0 <= ts
               /\ Forall (fun t => t <= last_prediction_time st0)
                         (processing_times (events st))
               /\ (last_prediction_time st0 = last_prediction_time st
                   \/ last_prediction_time st0 = ts)).
  { unfold st0. destruct (last_prediction_time st =? 0) eqn:Hzero; cbn.
    - apply Z.eqb_eq in Hzero. split; [exact Hok|]. split.
      { unfold processing_times. rewrite omap_app. cbn. apply app_nil_r. }
      split; [lia|]. split; [|auto].
      eapply Forall_impl; [exact Hbefore|]. intros t Ht. cbn in Ht. lia.
    - split; [exact Hok|]. split; [reflexivity|]. split; [lia|].
      split; [exact Hbefore|auto]. }
  destruct H0 as (Hok0 & Htimes0 & Hlast0 & Hbefore0 & Hwhich).
  set (items := zip (meas_info_lst msg_frm_1) (meas_data_lst msg_frm_1)).
  pose proof (fun s => collect_keeps ts items st0 s Hok0) as Hcollect.
  destruct (for_each_item (MA5s.store_serving sscanf ts) items st0) as [st1| |] eqn:H1;
    try discriminate.
  cbn [mbind result_bind] in *.
  destruct (for_each_item (MA5s.store_neighbors sscanf) items st1) as [st2| |] eqn:H2;
    try discriminate.
  cbn [mbind result_bind].
  destruct (Hcollect st2 eq_refl) as (Hok2 & Hlast2 & Htimes2).
  assert (Hdiff : to_uint64 (ts - last_prediction_time st0) = ts - last_prediction_time st0).
  { unfold to_uint64. apply Z.mod_small. lia. }
  rewrite Hdiff.
  destruct (PREDICTION_INTERVAL_US <=? ts - last_prediction_time st0) eqn:Hdue.
  - apply Z.leb_le in Hdue. rewrite process_and_send_averaged_data_spec.
    intros [= <-]. cbn [ue_buffers last_prediction_time events].
    split; [apply buffers_ok_clear, Hok2|]. split; [|lia].
    unfold times_ok. cbn [events last_prediction_time].
    match goal with |- StronglySorted _ (processing_times ?e) /\ _ =>
      assert (Hnew : processing_times e = processing_times (events st) ++ [ts])
    end.
    { rewrite processing_times_app, processing_times_cons, !processing_times_app.
      rewrite processing_times_round, Htimes2, Htimes0. reflexivity. }
    rewrite Hnew.
    assert (Hgap : Forall (fun t => t + PREDICTION_INTERVAL_US <= ts)
                          (processing_times (events st))).
    { eapply Forall_impl; [exact Hbefore0|]. intros t Ht. cbn in Ht.
      unfold PREDICTION_INTERVAL_US in *. lia. }
    repeat split; try lia.
    + clear - Hsorted Hgap. induction Hsorted as [|a l Hs IH Ha]; cbn.
      * repeat constructor.
      * apply Forall_cons in Hgap as [Ha' Hgap]. constructor; [apply IH, Hgap|].
        apply Forall_app. split; [exact Ha|]. repeat constructor. exact Ha'.
    + apply Forall_app. split; [|repeat constructor; lia].
      eapply Forall_impl; [exact Hgap|]. intros t Ht. cbn in Ht.
      unfold PREDICTION_INTERVAL_US in *. lia.
  - intros [= <-]. split; [exact Hok2|]. split; [|lia].
    unfold times_ok. rewrite Htimes2, Htimes0, Hlast2.
    repeat split; try assumption; lia.
Qed.

Lemma run_keeps reports : forall st st',
  buffers_ok (ue_buffers st) -> times_ok st ->
  Forall (fun r => 0 <= snd r < 2 ^ 64) reports ->
  StronglySorted Z.le (last_prediction_time st :: map snd reports) ->
  MA5s.run sscanf st reports = Done st' ->
  buffers_ok (ue_buffers st') /\ times_ok st'.
Proof.
  induction reports as [|[msg_frm_1 ts] rest IH]; intros st st' Hok Htimes Hrange Hsorted.
  - cbn. intros [= <-]. split; assumption.
  - cbn [MA5s.run]. apply Forall_cons in Hrange as [Hts Hrange]. cbn in Hts.
    cbn [map snd] in Hsorted.
    apply StronglySorted_inv in Hsorted as [Hrest Hfirst].
    apply Forall_cons in Hfirst as [Hle _].
    destruct (MA5s.log_kpm_measurements sscanf st msg_frm_1 ts) as [st1| |] eqn:Hlog;
      try discriminate.
    cbn. destruct (log_kpm_measurements_keeps _ _ _ _ Hok Htimes Hts Hle Hlog)
      as (Hok1 & Htimes1 & Hle1).
    apply IH; try assumption.
    apply StronglySorted_inv in Hrest as [Hrest Hts_le].
    constructor; [exact Hrest|].
    eapply Forall_impl; [exact Hts_le|]. intros t Ht. cbn in Ht. lia.
Qed.


Lemma log_kpm_measurements_buffers_ok st msg_frm_1 ts st' :
  buffers_ok (ue_buffers st) ->
  MA5s.log_kpm_measurements sscanf st msg_frm_1 ts = Done st' ->
  buffers_ok (ue_buffers st').
Proof.
  intros Hok. unfold MA5s.log_kpm_measurements.
  destruct (length (meas_info_lst msg_frm_1) =? 0)%nat; [discriminate|].
  destruct (negb _); [intros [= <-]; exact Hok|].
  set (st0 := if last_prediction_time st =? 0 then _ else st).
  assert (Hok0 : buffers_ok (ue_buffers st0)).
  { unfold st0. destruct (last_prediction_time st =? 0); exact Hok. }
  set (items := zip (meas_info_lst msg_frm_1) (meas_data_lst msg_frm_1)).
  pose proof (fun s => collect_keeps ts items st0 s Hok0) as Hcollect.
  destruct (for_each_item (MA5s.store_serving sscanf ts) items st0) as [st1| |];
    try discriminate.
  cbn [mbind result_bind] in *.
  destruct (for_each_item (MA5s.store_neighbors sscanf) items st1) as [st2| |];
    try discriminate.
  cbn [mbind result_bind].
  destruct (Hcollect st2 eq_refl) as (Hok2 & _).
  destruct (PREDICTION_INTERVAL_US <=? _); [|intros [= <-]; exact Hok2].
  rewrite process_and_send_averaged_data_spec. intros [= <-]. cbn [ue_buffers].
  apply buffers_ok_clear, Hok2.
Qed.

Lemma batch_run_buffers_ok reports : forall st st',
  buffers_ok (ue_buffers st) -> MA5s.run sscanf st reports = Done st' ->
  buffers_ok (ue_buffers st').
Proof.
  induction reports as [|[msg_frm_1 ts] rest IH]; intros st st' Hok.
  - cbn. intros [= <-]. exact Hok.
  - cbn [MA5s.run].
    destruct (MA5s.log_kpm_measurements sscanf st msg_frm_1 ts) as [st1| |] eqn:Hlog;
      try discriminate.
    cbn. apply IH. eapply log_kpm_measurements_buffers_ok; eassumption.
Qed.

(** X13: in the five-second program, in every state that [run] reaches
    from the initial one the table holds at most 20 buffers, no two of the
    same UE; each buffer holds at most ten neighbours, no two of the same
    cell, each with a positive count, and [has_data] is set exactly when
    the count of serving samples is positive. *)
Theorem batch_buffers_stay_within_their_arrays
    (reports : list (kpm_ind_msg_format_1_t * Z)) (st : MA5s.state) :
  MA5s.run sscanf MA5s.initial_state reports = Done st ->
  NoDup (map ueID (ue_buffers st))
  /\ (length (ue_buffers st) <= 20)%nat
  /\ Forall (fun b =>
               (active_neighbors b <= 10)%nat
               /\ NoDup (map neighCellID (neighbors b))
               /\ Forall (fun n => 0 < sinr_count n <= INT_MAX) (neighbors b)
               /\ 0 <= serving_sinr_count b <= INT_MAX
               /\ has_data b = (0 <? serving_sinr_count b))
            (ue_buffers st).
Proof.
  intros Hrun. apply (batch_run_buffers_ok reports MA5s.initial_state st); [|exact Hrun].
  repeat split; [constructor|cbn; lia|constructor].
Qed.

(** X14: when the times of the reports fit 64 bits and never decrease,
    two rounds of [process_and_send_averaged_data] are at least
    [PREDICTION_INTERVAL_US] apart, and none is later than
    [last_prediction_time]. *)
Theorem processing_rounds_are_five_seconds_apart
    (reports : list (kpm_ind_msg_format_1_t * Z)) (st : MA5s.state) :
  Forall (fun r => 0 <= snd r < 2 ^ 64) reports ->
  StronglySorted Z.le (map snd reports) ->
  MA5s.run sscanf MA5s.initial_state reports = Done st ->
  StronglySorted (fun a b => a + PREDICTION_INTERVAL_US <= b)
                 (processing_times (events st))
  /\ Forall (fun t => t <= last_prediction_time st) (processing_times (events st)).
Proof.
  intros Hrange Hsorted Hrun.
  destruct (run_keeps reports MA5s.initial_state st) as (_ & Hs & Hb & _); try assumption.
  - repeat split; [constructor|cbn; lia|constructor].
  - unfold times_ok. cbn. repeat split; try constructor. lia.
  - cbn. constructor; [exact Hsorted|].
    apply Forall_map. eapply Forall_impl; [exact Hrange|]. intros r Hr. cbn in Hr. lia.
  - split; assumption.
Qed.

(** *** Content of a line *)

Lemma serve_each_spec samples : forall b,
  0 <= serving_sinr_count b ->
  serving_sinr_count b + Z.of_nat (length samples) <= INT_MAX ->
  exists b',
    serve_each b samples = Done b'
    /\ serving_sinr_sum b'
       = fold_left PrimFloat.add (map (fun s => s.1.2) samples) (serving_sinr_sum b)
    /\ serving_sinr_count b' = serving_sinr_count b + Z.of_nat (length samples)
    /\ servingCellID b' = default (servingCellID b) (last (map (fun s => s.1.1) samples))
    /\ has_data b' = (has_data b || negb (length samples =? 0)%nat)
    /\ ueID b' = ueID b /\ neighbors b' = neighbors b.
Proof.
  induction samples as [|[[cell sinr] ts] samples IH]; intros b Hpos Hmax.
  - exists b. cbn. rewrite Z.add_0_r, orb_false_r. repeat split.
  - cbn [serve_each length] in *. unfold add_serving_sinr_to_buffer, incr.
    destruct (INT_MAX <=? serving_sinr_count b) eqn:Hfull.
    { apply Z.leb_le in Hfull. lia. }
    cbn [mbind result_bind].
    match goal with |- context [serve_each ?b1 samples] =>
      destruct (IH b1) as (b' & Hrun & Hsum & Hcount & Hcell & Hdata & Hue & Hn)
    end.
    { cbn. lia. }
    { cbn. lia. }
    exists b'. cbn in Hsum, Hcount, Hcell, Hdata, Hue, Hn.
    split; [exact Hrun|]. split; [exact Hsum|]. split; [lia|].
    split; [|split; [|split; assumption]].
    + rewrite Hcell. cbn [map fst snd].
      destruct samples as [|s samples']; [reflexivity|]. cbn [map].
      rewrite !last_cons. destruct (last (map _ samples')); reflexivity.
    + rewrite Hdata. rewrite orb_true_r. reflexivity.
Qed.

Lemma double_of_int_of_nat (n : nat) :
  double_of_int (Z.of_nat n) = double_of_Z (Z.of_nat n).
Proof.
  unfold double_of_int. destruct (Z.of_nat n <? 0) eqn:H; [|reflexivity].
  apply Z.ltb_lt in H. lia.
Qed.

(** X15: serving samples added to an empty buffer are summed whatever
    their serving cell: the serving SINR of the line is the mean of all of
    them, while the serving cell of the line is that of the last sample;
    the time of the line is the processing time divided by 1000. *)
Theorem batch_line_averages_across_serving_cells
    (b : ue_buffer_t) (samples : list (Z * float * Z)) (t : Z) :
  has_data b = false -> serving_sinr_count b = 0 -> serving_sinr_sum b = 0%float ->
  samples <> [] -> Z.of_nat (length samples) <= INT_MAX ->
  exists b',
    serve_each b samples = Done b'
    /\ sent_lines (process_and_send_averaged_data [b'] t).2 = [line_of b' t]
    /\ avg_serving_sinr (line_of b' t)
       = MA_aux.arithmetic_mean (map (fun s => s.1.2) samples)
    /\ Some (line_servingCellID (line_of b' t)) = last (map (fun s => s.1.1) samples)
    /\ line_timestamp (line_of b' t) = t / 1000.
Proof.
  intros Hdata Hcount Hsum Hne Hmax.
  destruct (serve_each_spec samples b) as (b' & Hrun & Hsum' & Hcount' & Hcell & Hdata' & _);
    [lia..|].
  exists b'. split; [exact Hrun|].
  assert (Hlen : (length samples =? 0)%nat = false).
  { apply Nat.eqb_neq. destruct samples; [congruence|cbn; lia]. }
  rewrite Hdata, Hlen in Hdata'. cbn in Hdata'. rewrite Hcount, Z.add_0_l in Hcount'.
  split; [|split; [|split; [|reflexivity]]].
  - rewrite sent_lines_process. cbn [List.filter]. unfold with_data.
    rewrite Hdata', Hcount'.
    destruct (Z.of_nat (length samples) =? 0) eqn:Hz; [apply Z.eqb_eq in Hz|reflexivity].
    apply Nat.eqb_neq in Hlen. lia.
  - unfold line_of, MA_aux.arithmetic_mean. cbn [avg_serving_sinr].
    rewrite Hsum', Hcount', Hsum, double_of_int_of_nat, length_map. reflexivity.
  - cbn [line_of line_servingCellID]. rewrite Hcell.
    destruct (last (map (fun s => s.1.1) samples)) eqn:Hlast; [reflexivity|].
    apply last_None in Hlast. destruct samples; [congruence|discriminate].
Qed.

Lemma line_neighbors_take (b : ue_buffer_t) (t : Z) :
  Forall (fun n => 0 < sinr_count n) (neighbors b) ->
  line_neighbors (line_of b t)
  = map (fun n => (neighCellID n, (sinr_sum n / double_of_int (sinr_count n))%float))
        (take 3 (neighbors b))
    ++ replicate (3 - length (neighbors b)) (0, 0%float).
Proof.
  intros Hall. unfold line_of. cbn [line_neighbors seq map]. unfold neighbor_slot.
  destruct (neighbors b) as [|n0 [|n1 [|n2 rest]]];
    repeat match goal with
           | H : Forall _ (_ :: _) |- _ => apply Forall_cons in H as [?%Z.ltb_lt H]
           end;
    cbn [lookup list_lookup take map length Nat.sub replicate app];
    repeat match goal with H : (0 <? _) = true |- _ => rewrite H; clear H end;
    reflexivity.
Qed.

Lemma first_appearances_snoc (cells : list Z) (c : Z) :
  first_appearances (cells ++ [c])
  = if decide (c ∈ first_appearances cells) then first_appearances cells
    else first_appearances cells ++ [c].
Proof. unfold first_appearances. rewrite fold_left_app. reflexivity. Qed.

Lemma first_appearances_elem_of (cells : list Z) (c : Z) :
  c ∈ first_appearances cells <-> c ∈ cells.
Proof.
  induction cells as [|d cells IH] using rev_ind.
  - reflexivity.
  - rewrite first_appearances_snoc, elem_of_app, list_elem_of_singleton.
    destruct (decide (d ∈ first_appearances cells)) as [Hin|Hnot].
    + rewrite IH. split; [tauto|]. intros [H| ->]; [exact H|]. apply IH, Hin.
    + rewrite elem_of_app, list_elem_of_singleton, IH. reflexivity.
Qed.

Lemma first_appearances_NoDup (cells : list Z) : NoDup (first_appearances cells).
Proof.
  induction cells as [|d cells IH] using rev_ind.
  - constructor.
  - rewrite first_appearances_snoc.
    destruct (decide (d ∈ first_appearances cells)) as [Hin|Hnot]; [exact IH|].
    apply NoDup_app. split; [exact IH|]. split; [|apply NoDup_singleton].
    intros e He Hd. apply list_elem_of_singleton in Hd. subst e. contradiction.
Qed.

Lemma cells_heard_snoc (pre : list (Z * float)) (c : Z) (x : float) :
  cells_heard (pre ++ [(c, x)])
  = if decide (c ∈ cells_heard pre) then cells_heard pre
    else if (length (cells_heard pre) <? 10)%nat then cells_heard pre ++ [c]
         else cells_heard pre.
Proof.
  unfold cells_heard. rewrite map_app. cbn [map fst]. rewrite first_appearances_snoc.
  set (seen := first_appearances (map fst pre)).
  destruct (decide (c ∈ seen)) as [Hin|Hnot].
  - destruct (decide (c ∈ take 10 seen)) as [_|Hlate]; [reflexivity|].
    destruct (Nat.ltb_spec (length (take 10 seen)) 10) as [Hshort|_]; [|reflexivity].
    exfalso. apply Hlate. rewrite length_take in Hshort.
    rewrite take_ge by lia. exact Hin.
  - destruct (decide (c ∈ take 10 seen)) as [Hin|_].
    { exfalso. apply Hnot. eapply subseteq_take, Hin. }
    rewrite length_take.
    destruct (Nat.ltb_spec (Nat.min 10 (length seen)) 10) as [Hshort|Hfull].
    + rewrite !take_ge by (rewrite ?length_app; cbn [length]; lia). reflexivity.
    + rewrite take_app_le by lia. reflexivity.
Qed.

Lemma sinrs_of_snoc (cell c : Z) (x : float) (pre : list (Z * float)) :
  sinrs_of cell (pre ++ [(c, x)])
  = if c =? cell then sinrs_of cell pre ++ [x] else sinrs_of cell pre.
Proof.
  unfold sinrs_of. rewrite List.filter_app, map_app. cbn [List.filter fst].
  destruct (c =? cell); cbn [map snd]; [reflexivity|apply app_nil_r].
Qed.

Lemma sinrs_of_heard (cell : Z) (samples : list (Z * float)) :
  cell ∈ map fst samples -> sinrs_of cell samples <> [].
Proof.
  unfold sinrs_of. induction samples as [|[c x] samples IH]; cbn [map fst List.filter].
  - intros H. apply elem_of_nil in H. contradiction.
  - intros H. destruct (Z.eqb_spec c cell) as [_|Hne]; [discriminate|].
    apply IH. apply elem_of_cons in H as [H|H]; [congruence|exact H].
Qed.

Lemma sinrs_of_not_heard (cell : Z) (samples : list (Z * float)) :
  cell ∉ map fst samples -> sinrs_of cell samples = [].
Proof.
  unfold sinrs_of. induction samples as [|[c x] samples IH]; cbn [map fst List.filter].
  - reflexivity.
  - intros H. destruct (Z.eqb_spec c cell) as [->|Hne].
    + exfalso. apply H. left.
    + apply IH. intros Hin. apply H. right. exact Hin.
Qed.

Lemma sinrs_of_length (cell : Z) (samples : list (Z * float)) :
  (length (sinrs_of cell samples) <= length samples)%nat.
Proof. unfold sinrs_of. rewrite length_map. apply List.filter_length_le. Qed.

Lemma cells_heard_elem_of (cell : Z) (samples : list (Z * float)) :
  cell ∈ cells_heard samples -> cell ∈ map fst samples.
Proof.
  unfold cells_heard. intros H. apply subseteq_take in H.
  apply first_appearances_elem_of, H.
Qed.

Lemma sum_in_order_snoc (xs : list float) (x : float) :
  xs <> [] -> sum_in_order (xs ++ [x]) = (sum_in_order xs + x)%float.
Proof.
  destruct xs as [|x0 xs]; [congruence|]. intros _. cbn [sum_in_order app].
  rewrite fold_left_app. reflexivity.
Qed.

Lemma hear_each_snoc (samples : list (Z * float)) (c : Z) (x : float) : forall b,
  hear_each b (samples ++ [(c, x)])
  = b1 ← hear_each b samples; add_neighbor_sinr_to_buffer b1 c x.
Proof.
  induction samples as [|[c0 x0] samples IH]; intros b; cbn [hear_each app].
  - cbn [mbind result_bind]. destruct (add_neighbor_sinr_to_buffer b c x); reflexivity.
  - destruct (add_neighbor_sinr_to_buffer b c0 x0) as [b0| |]; cbn [mbind result_bind];
      [apply IH|reflexivity..].
Qed.

(** One more sample on a buffer whose slots are those of the samples so
    far. *)
Lemma add_neighbor_sinr_to_buffer_heard (b1 : ue_buffer_t) (pre : list (Z * float))
    (c : Z) (x : float) :
  neighbors b1 = map (slot_of pre) (cells_heard pre) ->
  Z.of_nat (length pre) < INT_MAX ->
  exists b2,
    add_neighbor_sinr_to_buffer b1 c x = Done b2
    /\ neighbors b2 = map (slot_of (pre ++ [(c, x)])) (cells_heard (pre ++ [(c, x)])).
Proof.
  intros Hslots Hmax. unfold add_neighbor_sinr_to_buffer, active_neighbors.
  assert (Hother : forall cell, cell <> c -> slot_of (pre ++ [(c, x)]) cell = slot_of pre cell).
  { intros cell Hne. unfold slot_of. rewrite sinrs_of_snoc.
    destruct (Z.eqb_spec c cell); [congruence|reflexivity]. }
  rewrite cells_heard_snoc, Hslots.
  destruct (list_find (fun n => neighCellID n = c) (map (slot_of pre) (cells_heard pre)))
    as [[i n]|] eqn:Hfind.
  - apply list_find_Some in Hfind as (Hi & Hid & _).
    change (map (slot_of pre) (cells_heard pre)) with (slot_of pre <$> cells_heard pre) in Hi.
    rewrite list_lookup_fmap in Hi.
    destruct (cells_heard pre !! i) as [c'|] eqn:Hc; [|discriminate].
    cbn in Hi. injection Hi as <-. cbn [neighCellID slot_of] in Hid. subst c'.
    assert (Hin : c ∈ cells_heard pre) by (eapply list_elem_of_lookup_2, Hc).
    destruct (decide (c ∈ cells_heard pre)) as [_|Hnot]; [|contradiction].
    pose proof (sinrs_of_length c pre) as Hlen.
    unfold incr. cbn [sinr_count slot_of].
    destruct (Z.leb_spec INT_MAX (Z.of_nat (length (sinrs_of c pre)))) as [Hover|_];
      [lia|].
    cbn [mbind result_bind]. eexists. split; [reflexivity|].
    cbn [neighbors with_neighbors neighCellID sinr_sum slot_of].
    apply list_eq. intros k.
    change (map (slot_of (pre ++ [(c, x)])) (cells_heard pre))
      with (slot_of (pre ++ [(c, x)]) <$> cells_heard pre).
    rewrite list_lookup_fmap.
    destruct (decide (k = i)) as [->|Hk].
    + rewrite list_lookup_insert_eq by (rewrite length_map; eapply lookup_lt_Some, Hc).
      rewrite Hc. cbn. unfold slot_of. rewrite sinrs_of_snoc, Z.eqb_refl.
      rewrite sum_in_order_snoc by (apply sinrs_of_heard, cells_heard_elem_of, Hin).
      rewrite length_app. cbn [length]. do 2 f_equal. lia.
    + rewrite list_lookup_insert_ne by congruence.
      change (map (slot_of pre) (cells_heard pre)) with (slot_of pre <$> cells_heard pre).
      rewrite list_lookup_fmap.
      destruct (cells_heard pre !! k) as [c'|] eqn:Hc'; [|reflexivity]. cbn.
      rewrite Hother; [reflexivity|]. intros ->. apply Hk.
      eapply NoDup_lookup; [|exact Hc'|exact Hc].
      unfold cells_heard. eapply sublist_NoDup; [apply first_appearances_NoDup|apply sublist_take].
  - apply list_find_None in Hfind.
    assert (Hnot : c ∉ cells_heard pre).
    { intros Hin. rewrite Forall_forall in Hfind.
      apply (Hfind (slot_of pre c)); [|reflexivity].
      change (map (slot_of pre) (cells_heard pre)) with (slot_of pre <$> cells_heard pre).
      apply list_elem_of_fmap. exists c. split; [reflexivity|exact Hin]. }
    destruct (decide (c ∈ cells_heard pre)) as [Hin|_]; [contradiction|].
    assert (Hsame : map (slot_of (pre ++ [(c, x)])) (cells_heard pre)
                    = map (slot_of pre) (cells_heard pre)).
    { apply map_ext_in. intros cell Hcell. apply Hother. intros ->.
      apply Hnot, list_elem_of_In, Hcell. }
    rewrite length_map.
    destruct (Nat.ltb_spec (length (cells_heard pre)) 10) as [Hroom|Hfull].
    + eexists. split; [reflexivity|]. cbn [neighbors with_neighbors].
      rewrite map_app, Hsame. f_equal. cbn [map]. unfold slot_of.
      rewrite sinrs_of_snoc, Z.eqb_refl.
      rewrite sinrs_of_not_heard; [reflexivity|].
      intros Hin. apply Hnot. unfold cells_heard in *.
      rewrite length_take in Hroom. rewrite take_ge by lia.
      apply first_appearances_elem_of, Hin.
    + eexists. split; [reflexivity|]. rewrite Hsame. exact Hslots.
Qed.

Lemma hear_each_heard (b : ue_buffer_t) (samples : list (Z * float)) :
  neighbors b = [] -> Z.of_nat (length samples) <= INT_MAX ->
  exists b',
    hear_each b samples = Done b'
    /\ neighbors b' = map (slot_of samples) (cells_heard samples).
Proof.
  intros Hempty. induction samples as [|[c x] samples IH] using rev_ind; intros Hmax.
  - exists b. split; [reflexivity|exact Hempty].
  - rewrite length_app in Hmax. cbn [length] in Hmax.
    destruct IH as (b1 & Hrun & Hslots); [lia|].
    destruct (add_neighbor_sinr_to_buffer_heard b1 samples c x Hslots) as (b2 & Hadd & Hslots2);
      [lia|].
    exists b2. split; [|exact Hslots2].
    rewrite hear_each_snoc, Hrun. exact Hadd.
Qed.

(** X16: neighbour samples added to a buffer without neighbours fill its
    slots in the order in which their cells first appear; the samples of
    an eleventh cell are dropped. The slot of a cell holds the sum of the
    SINR values of all samples of that cell, added in order from the first,
    and their number. The three neighbour fields of the line are the first
    three cells in that order, not ranked by SINR, each with the mean of
    its samples, followed by zeros when fewer than three cells were
    heard. *)
Theorem batch_neighbor_slots_follow_first_appearance
    (b : ue_buffer_t) (samples : list (Z * float)) (t : Z) :
  neighbors b = [] -> Z.of_nat (length samples) <= INT_MAX ->
  exists b',
    hear_each b samples = Done b'
    /\ neighbors b' = map (slot_of samples) (cells_heard samples)
    /\ line_neighbors (line_of b' t)
       = map (fun cell => (cell, mean_in_order (sinrs_of cell samples)))
             (take 3 (cells_heard samples))
         ++ replicate (3 - length (cells_heard samples)) (0, 0%float).
Proof.
  intros Hempty Hmax.
  destruct (hear_each_heard b samples Hempty Hmax) as (b' & Hrun & Hslots).
  exists b'. split; [exact Hrun|]. split; [exact Hslots|].
  rewrite line_neighbors_take.
  - rewrite Hslots, length_map. f_equal.
    change (map (slot_of samples) (cells_heard samples))
      with (slot_of samples <$> cells_heard samples).
    rewrite <- fmap_take. change (@fmap list _) with (@map). rewrite map_map. reflexivity.
  - rewrite Hslots. apply Forall_map, Forall_forall. intros cell Hcell.
    cbn [sinr_count slot_of].
    pose proof (sinrs_of_heard cell samples (cells_heard_elem_of _ _ Hcell)) as Hne.
    destruct (sinrs_of cell samples); [congruence|cbn [length]; lia].
Qed.

End Batch.

Lemma batch_buffers_stay_within_their_arrays_example :
  NoDup (map MA5s.ueID
           (MA5s.ue_buffers
              (MA5s_aux.state_of
                 (MA5s.run example_sscanf MA5s.initial_state (take 2 example_reports_5s)))))
  /\ (length (MA5s.ue_buffers
                (MA5s_aux.state_of
                   (MA5s.run example_sscanf MA5s.initial_state
                      (take 2 example_reports_5s)))) <= 20)%nat
  /\ Forall (fun b =>
               (MA5s.active_neighbors b <= 10)%nat
               /\ NoDup (map MA5s.neighCellID (MA5s.neighbors b))
               /\ Forall (fun n => 0 < MA5s.sinr_count n <= MA5s.INT_MAX) (MA5s.neighbors b)
               /\ 0 <= MA5s.serving_sinr_count b <= MA5s.INT_MAX
               /\ MA5s.has_data b = (0 <? MA5s.serving_sinr_count b))
            (MA5s.ue_buffers
               (MA5s_aux.state_of
                  (MA5s.run example_sscanf MA5s.initial_state
                     (take 2 example_reports_5s)))).
Proof.
  apply (batch_buffers_stay_within_their_arrays example_sscanf (take 2 example_reports_5s)).
  vm_compute. reflexivity.
Defined.

Lemma processing_rounds_are_five_seconds_apart_example :
  StronglySorted (fun a b => a + MA5s.PREDICTION_INTERVAL_US <= b)
    (MA5s_aux.processing_times
       (MA5s.events
          (MA5s_aux.state_of
             (MA5s.run example_sscanf MA5s.initial_state example_reports_5s))))
  /\ Forall (fun t => t <= MA5s.last_prediction_time
                            (MA5s_aux.state_of
                               (MA5s.run example_sscanf MA5s.initial_state
                                  example_reports_5s)))
       (MA5s_aux.processing_times
          (MA5s.events
             (MA5s_aux.state_of
                (MA5s.run example_sscanf MA5s.initial_state example_reports_5s)))).
Proof.
  apply (processing_rounds_are_five_seconds_apart example_sscanf example_reports_5s).
  - repeat constructor; simpl; lia.
  - repeat constructor; simpl; lia.
  - vm_compute. reflexivity.
Defined.

Lemma batch_line_averages_across_serving_cells_example :
  exists b',
    MA5s_aux.serve_each (MA5s.fresh_buffer 1)
      [(2, 10.0%float, 100); (3, 20.0%float, 200)] = MA5s.Done b'
    /\ MA5s_aux.sent_lines (MA5s.process_and_send_averaged_data [b'] 6000000).2
       = [MA5s.line_of b' 6000000]
    /\ MA5s.avg_serving_sinr (MA5s.line_of b' 6000000)
       = MA_aux.arithmetic_mean
           (map (fun s => s.1.2) [(2, 10.0%float, 100); (3, 20.0%float, 200)])
    /\ Some (MA5s.line_servingCellID (MA5s.line_of b' 6000000))
       = last (map (fun s => s.1.1) [(2, 10.0%float, 100); (3, 20.0%float, 200)])
    /\ MA5s.line_timestamp (MA5s.line_of b' 6000000) = 6000000 / 1000.
Proof.
  apply (batch_line_averages_across_serving_cells (MA5s.fresh_buffer 1)
           [(2, 10.0%float, 100); (3, 20.0%float, 200)] 6000000).
  - reflexivity.
  - reflexivity.
  - reflexivity.
  - discriminate.
  - unfold MA5s.INT_MAX. simpl. lia.
Defined.

Lemma batch_neighbor_slots_follow_first_appearance_example :
  exists b',
    MA5s_aux.hear_each (MA5s.fresh_buffer 1)
      MA5s_aux.heard_samples = MA5s.Done b'
    /\ MA5s.neighbors b'
       = map (MA5s_aux.slot_of MA5s_aux.heard_samples)
             (MA5s_aux.cells_heard MA5s_aux.heard_samples)
    /\ MA5s.line_neighbors (MA5s.line_of b' 6000000)
       = map (fun cell =>
                (cell,
                 MA5s_aux.mean_in_order
                   (MA5s_aux.sinrs_of cell
                      MA5s_aux.heard_samples)))
             (take 3
                (MA5s_aux.cells_heard
                   MA5s_aux.heard_samples))
         ++ replicate
              (3 - length
                     (MA5s_aux.cells_heard
                        MA5s_aux.heard_samples))
              (0, 0%float).
Proof.
  apply (batch_neighbor_slots_follow_first_appearance (MA5s.fresh_buffer 1)
           MA5s_aux.heard_samples 6000000).
  - reflexivity.
  - unfold MA5s.INT_MAX. simpl. lia.
Defined.

(** ** Lookup of the service model *)

Section ServiceModelLookup.

Lemma find_sm_idx_from_spec (f : sm_ran_function_t -> Z -> bool) (id : Z)
    (rf : list sm_ran_function_t) : forall i0,
  match find_sm_idx_from i0 rf f id with
  | Ok i =>
      (i0 <= i < i0 + length rf)%nat
      /\ (exists elem, rf !! (i - i0)%nat = Some elem /\ f elem id = true)
      /\ (forall j elem, (j < i - i0)%nat -> rf !! j = Some elem -> f elem id = false)
  | AssertFail => Forall (fun elem => f elem id = false) rf
  | OutOfBounds => False
  end.
Proof.
  induction rf as [|elem rf IH]; intros i0; cbn [find_sm_idx_from].
  - constructor.
  - destruct (f elem id) eqn:Hf.
    + cbn [length]. split; [lia|]. rewrite Nat.sub_diag. split.
      * exists elem. split; [reflexivity|exact Hf].
      * intros j e Hj. lia.
    + specialize (IH (S i0)).
      destruct (find_sm_idx_from (S i0) rf f id) as [i| |]; [|constructor; assumption|exact IH].
      destruct IH as (Hi & (e & He & Hfe) & Hbefore). cbn [length].
      split; [lia|].
      replace (i - i0)%nat with (S (i - S i0)) by lia. split.
      * exists e. split; [exact He|exact Hfe].
      * intros [|j] e' Hj He'.
        -- cbn in He'. injection He' as <-. exact Hf.
        -- cbn in He'. apply (Hbefore j); [lia|exact He'].
Qed.

(** X18: the index that [find_sm_idx] returns is that of the first RAN
    function the predicate accepts, and lies within the array; the
    assertion fails when the predicate accepts none, and only then. *)
Theorem find_sm_idx_returns_first_match
    (rf : list sm_ran_function_t) (f : sm_ran_function_t -> Z -> bool) (id : Z) :
  match find_sm_idx rf f id with
  | Ok i =>
      (i < length rf)%nat
      /\ (exists elem, rf !! i = Some elem /\ f elem id = true)
      /\ (forall j elem, (j < i)%nat -> rf !! j = Some elem -> f elem id = false)
  | AssertFail => Forall (fun elem => f elem id = false) rf
  | OutOfBounds => False
  end.
Proof.
  unfold find_sm_idx. pose proof (find_sm_idx_from_spec f id rf 0) as H.
  destruct (find_sm_idx_from 0 rf f id) as [i| |]; try exact H.
  rewrite Nat.sub_0_r in H. destruct H as (Hi & He & Hbefore).
  split; [lia|]. split; assumption.
Qed.

End ServiceModelLookup.

(** ** The socket to the receiver *)

Section SocketLayer.

Import Sock Sock_aux.

Lemma connect_loop_spec (fd : Z) (connect_result : nat -> Z) (attempts : nat) : forall i,
  let '(connected, calls) := connect_loop fd connect_result i attempts in
  (connected = true <-> exists j, (i <= j < i + attempts)%nat /\ connect_result j = 0)
  /\ List.filter is_close calls = []
  /\ (length (List.filter is_connect calls) <= attempts)%nat
  /\ (if connected then (1 <= length (List.filter is_connect calls))%nat
      else length (List.filter is_connect calls) = attempts)
  /\ length (List.filter is_sleep calls)
     = (length (List.filter is_connect calls) - if connected then 1 else 0)%nat.
Proof.
  induction attempts as [|attempts IH]; intros i; cbn [connect_loop].
  - split; [|cbn; auto]. split; [discriminate|]. intros (j & Hj & _). lia.
  - destruct (connect_result i =? 0) eqn:Hi.
    + apply Z.eqb_eq in Hi. cbn. split; [|repeat split; lia].
      split; [|reflexivity]. intros _. exists i. split; [lia|exact Hi].
    + apply Z.eqb_neq in Hi. specialize (IH (S i)).
      destruct (connect_loop fd connect_result (S i) attempts) as [connected calls].
      destruct IH as (Hiff & Hclose & Hle & Hall & Hsleep).
      assert (Hfilter : forall p : call -> bool,
                 p (Printf ReceiverNotReady) = false ->
                 p (Printf StartReceiverFirst) = false ->
                 List.filter p
                   (Connect fd
                    :: (if (i =? 0)%nat
                        then [Printf ReceiverNotReady; Printf StartReceiverFirst] else [])
                    ++ Sleep 1 :: calls)
                 = List.filter p [Connect fd; Sleep 1] ++ List.filter p calls).
      { intros p H1 H2. destruct (i =? 0)%nat; cbn; rewrite ?H1, ?H2;
          destruct (p (Connect fd)), (p (Sleep 1)); reflexivity. }
      rewrite !Hfilter by reflexivity.
      cbn [List.filter is_close is_connect is_sleep app length].
      split; [|split; [exact Hclose|split; [lia|split; [destruct connected; lia|]]]].
      * rewrite Hiff. split; intros (j & Hj & Hz).
        -- exists j. split; [lia|exact Hz].
        -- exists j. split; [|exact Hz].
           destruct (decide (j = i)) as [->|]; [contradiction|lia].
      * rewrite Hsleep. destruct connected; lia.
Qed.

(** X19: [init_unix_socket] returns true exactly when [socket] gave a
    descriptor and one of the first five calls of [connect] returned 0.
    Then the descriptor is kept, the socket is marked connected and nothing
    was closed. Otherwise [socket_fd] is -1 and the connected flag is as it
    was; a descriptor obtained went through five calls of [connect] and is
    closed by the last call made. At most five calls of [connect] are made
    and every failed one is followed by one [sleep]. *)
Theorem init_unix_socket_connects_within_five_attempts (st : io_state)
    (socket_result : Z) (connect_result : nat -> Z) :
  let '(st', ok, calls) := init_unix_socket st socket_result connect_result in
  (ok = true <->
     socket_result <> -1 /\ exists i, (i < 5)%nat /\ connect_result i = 0)
  /\ (if ok
      then socket_fd st' = socket_result /\ socket_connected st' = true
           /\ List.filter is_close calls = []
      else socket_fd st' = -1 /\ socket_connected st' = socket_connected st
           /\ (socket_result <> -1 ->
               length (List.filter is_connect calls) = 5%nat
               /\ List.filter is_close calls = [Close socket_result]
               /\ last calls = Some (Close socket_result)))
  /\ (length (List.filter is_connect calls) <= 5)%nat
  /\ length (List.filter is_sleep calls)
     = (length (List.filter is_connect calls) - if ok then 1 else 0)%nat
  /\ log_file st' = log_file st /\ monitoring_active st' = monitoring_active st.
Proof.
  unfold init_unix_socket. destruct (socket_result =? -1) eqn:Hs.
  - apply Z.eqb_eq in Hs. cbn. split; [|repeat split; try lia; intros; contradiction].
    split; [discriminate|]. intros [Hne _]. contradiction.
  - apply Z.eqb_neq in Hs.
    pose proof (connect_loop_spec socket_result connect_result 5 0) as Hloop.
    destruct (connect_loop socket_result connect_result 0 5) as [connected calls].
    destruct Hloop as (Hiff & Hclose & Hle & Hall & Hsleep).
    assert (Hiff' : connected = true <->
                    socket_result <> -1 /\ exists i, (i < 5)%nat /\ connect_result i = 0).
    { rewrite Hiff. split.
      - intros (j & Hj & Hz). split; [exact Hs|]. exists j. split; [lia|exact Hz].
      - intros (_ & j & Hj & Hz). exists j. split; [lia|exact Hz]. }
    destruct connected.
    + cbn [List.filter is_close is_connect is_sleep length with_socket socket_fd
           socket_connected log_file monitoring_active].
      repeat split; try tauto; try lia.
    + cbn [with_socket socket_fd socket_connected log_file monitoring_active].
      change (Socket :: calls ++ [Printf ConnectFailed; Close socket_result])
        with ([Socket] ++ calls ++ [Printf ConnectFailed; Close socket_result]).
      rewrite !List.filter_app. cbn [List.filter is_close is_connect is_sleep app].
      rewrite Hclose, !app_nil_r, Hall.
      split; [exact Hiff'|]. split; [|split; [lia|split; [lia|split; reflexivity]]].
      split; [reflexivity|]. split; [reflexivity|]. intros _.
      split; [reflexivity|]. split; [reflexivity|].
      cbn [app]. rewrite app_comm_cons.
      change [Printf ConnectFailed; Close socket_result]
        with ([Printf ConnectFailed] ++ [Close socket_result]).
      rewrite app_assoc. apply last_snoc.
Qed.

Lemma step_not_connected (st : io_state) (o : op) :
  socket_connected st = false ->
  socket_connected (fst (step st o)) = false
  /\ List.filter is_send (snd (step st o)) = [].
Proof.
  intros Hc. destruct o as [text r e|data r e| |signal]; cbn [step].
  - unfold log_both. rewrite Hc. cbn. split; [exact Hc|]. destruct (log_file st); reflexivity.
  - unfold send_to_python. rewrite Hc. cbn. auto.
  - unfold close_unix_socket. destruct (socket_fd st =? -1); cbn; auto.
  - unfold signal_handler, close_unix_socket. cbn [socket_fd].
    destruct (socket_fd st =? -1); cbn; auto.
Qed.

Lemma step_no_descriptor (st : io_state) (o : op) :
  socket_fd st = -1 ->
  socket_fd (fst (step st o)) = -1
  /\ socket_connected (fst (step st o)) = socket_connected st
  /\ List.filter is_send (snd (step st o)) = []
  /\ List.filter is_close (snd (step st o)) = [].
Proof.
  intros Hfd. destruct o as [text r e|data r e| |signal]; cbn [step].
  - unfold log_both, send_to_python. rewrite Hfd, orb_true_r.
    destruct (socket_connected st) eqn:Hc, (log_file st);
      try destruct (negb _ && _); cbn; rewrite ?Hc; auto.
  - unfold send_to_python. rewrite Hfd, orb_true_r. cbn. auto.
  - unfold close_unix_socket. rewrite Hfd. cbn. auto.
  - unfold signal_handler, close_unix_socket. cbn [socket_fd]. rewrite Hfd. cbn. auto.
Qed.

Lemma run_ops_not_connected (ops : list op) : forall st,
  socket_connected st = false ->
  socket_connected (fst (run_ops st ops)) = false
  /\ List.filter is_send (snd (run_ops st ops)) = [].
Proof.
  induction ops as [|o ops IH]; intros st Hc; cbn [run_ops].
  - cbn. auto.
  - destruct (step_not_connected st o Hc) as [Hc1 Hs1].
    destruct (step st o) as [st1 calls1]. cbn [fst snd] in Hc1, Hs1.
    destruct (IH st1 Hc1) as [Hc2 Hs2].
    destruct (run_ops st1 ops) as [st2 calls2]. cbn [fst snd] in *.
    split; [exact Hc2|]. rewrite List.filter_app, Hs1, Hs2. reflexivity.
Qed.

Lemma run_ops_no_descriptor (ops : list op) : forall st,
  socket_fd st = -1 ->
  socket_fd (fst (run_ops st ops)) = -1
  /\ List.filter is_send (snd (run_ops st ops)) = []
  /\ List.filter is_close (snd (run_ops st ops)) = [].
Proof.
  induction ops as [|o ops IH]; intros st Hfd; cbn [run_ops].
  - cbn. auto.
  - destruct (step_no_descriptor st o Hfd) as (Hfd1 & _ & Hs1 & Hc1).
    destruct (step st o) as [st1 calls1]. cbn [fst snd] in Hfd1, Hs1, Hc1.
    destruct (IH st1 Hfd1) as (Hfd2 & Hs2 & Hc2).
    destruct (run_ops st1 ops) as [st2 calls2]. cbn [fst snd] in *.
    split; [exact Hfd2|]. rewrite !List.filter_app, Hs1, Hs2, Hc1, Hc2. auto.
Qed.

(** X20: once [send] has failed with [EPIPE] or [ECONNRESET] in
    [send_to_python], the socket is marked not connected, and no later call
    of [log_both], [send_to_python], [close_unix_socket] or
    [signal_handler] sends anything. *)
Theorem nothing_is_sent_after_connection_loss (st : io_state) (data : string)
    (errno : errno_t) (ops : list op) :
  socket_connected st = true -> socket_fd st <> -1 -> errno <> OtherErrno ->
  let '(st1, calls) := send_to_python st data (-1) errno in
  calls = [Send (socket_fd st) data; Printf ConnectionLost]
  /\ List.filter is_send (snd (run_ops st1 ops)) = []
  /\ socket_connected (fst (run_ops st1 ops)) = false.
Proof.
  intros Hc Hfd He. unfold send_to_python. rewrite Hc.
  destruct (socket_fd st =? -1) eqn:Heq; [apply Z.eqb_eq in Heq; contradiction|].
  cbn [negb orb]. change (-1 =? -1) with true. cbv iota.
  destruct errno; try contradiction.
  all: split; [reflexivity|].
  all: destruct (run_ops_not_connected ops (with_socket st (socket_fd st) false) eq_refl);
    auto.
Qed.

(** X21: [close_unix_socket], also when called from [signal_handler],
    closes the descriptor if there is one and leaves [socket_fd] at -1;
    from then on no operation sends anything or closes a descriptor, so a
    descriptor is closed at most once. The signal handler also clears
    [monitoring_active]. *)
Theorem socket_is_closed_at_most_once (st : io_state) (o : op) (ops : list op) :
  o = CloseUnixSocket \/ (exists signal, o = SignalHandler signal) ->
  let '(st1, calls) := step st o in
  socket_fd st1 = -1
  /\ (socket_fd st <> -1 -> socket_connected st1 = false)
  /\ List.filter is_close calls
     = (if socket_fd st =? -1 then [] else [Close (socket_fd st)])
  /\ List.filter is_send calls = []
  /\ (o <> CloseUnixSocket -> monitoring_active st1 = false)
  /\ List.filter is_send (snd (run_ops st1 ops)) = []
  /\ List.filter is_close (snd (run_ops st1 ops)) = []
  /\ socket_fd (fst (run_ops st1 ops)) = -1.
Proof.
  intros Ho.
  assert (Hafter : forall st1, socket_fd st1 = -1 ->
            List.filter is_send (snd (run_ops st1 ops)) = []
            /\ List.filter is_close (snd (run_ops st1 ops)) = []
            /\ socket_fd (fst (run_ops st1 ops)) = -1).
  { intros st1 H1. destruct (run_ops_no_descriptor ops st1 H1) as (? & ? & ?). auto. }
  destruct Ho as [->|[signal ->]]; cbn [step].
  - unfold close_unix_socket. destruct (socket_fd st =? -1) eqn:Hfd; cbn [negb].
    + apply Z.eqb_eq in Hfd. cbn.
      split; [exact Hfd|]. split; [intros; contradiction|].
      split; [reflexivity|]. split; [reflexivity|]. split; [intros H; contradiction|].
      exact (Hafter st Hfd).
    + cbn. split; [reflexivity|]. split; [reflexivity|].
      split; [reflexivity|]. split; [reflexivity|]. split; [intros H; contradiction|].
      apply Hafter; reflexivity.
  - unfold signal_handler, close_unix_socket. cbn [socket_fd].
    destruct (socket_fd st =? -1) eqn:Hfd; cbn [negb].
    + apply Z.eqb_eq in Hfd. cbn.
      split; [exact Hfd|]. split; [intros; contradiction|].
      split; [reflexivity|]. split; [reflexivity|]. split; [reflexivity|].
      apply Hafter. exact Hfd.
    + cbn. split; [reflexivity|]. split; [reflexivity|].
      split; [reflexivity|]. split; [reflexivity|]. split; [reflexivity|].
      apply Hafter; reflexivity.
Qed.

Lemma substring_length_le (s : string) : forall n m,
  (String.length (String.substring n m s) <= m)%nat.
Proof.
  induction s as [|c s IH]; intros n m.
  - destruct n, m; cbn; lia.
  - destruct n as [|n].
    + destruct m as [|m]; cbn; [lia|]. specialize (IH 0%nat m). lia.
    + cbn. apply IH.
Qed.

(** X22: what [log_both] hands to [send] is the logged text cut to the
    511 characters of its buffer, is longer than 10 characters and does not
    contain the CSV header, and it is sent at most once and only on a
    connected socket; the text itself always goes to the console first,
    and to the log file when one is open. *)
Theorem log_both_sends_only_data_lines (st : io_state) (text : string)
    (send_result : Z) (errno : errno_t) :
  let '(st', calls) := log_both st text send_result errno in
  (forall fd data, In (Send fd data) calls ->
     fd = socket_fd st /\ socket_connected st = true /\ fd <> -1
     /\ data = String.substring 0 511 text
     /\ (10 < String.length data <= 511)%nat
     /\ strstr data "timestamp,UE_ID" = false)
  /\ (length (List.filter is_send calls) <= 1)%nat
  /\ (exists rest, calls = Vprintf text :: (if log_file st then [Vfprintf text] else [])
                           ++ rest
                   /\ Forall (fun c => c = Send (socket_fd st) (String.substring 0 511 text)
                                       \/ c = Printf ConnectionLost) rest)
  /\ socket_fd st' = socket_fd st.
Proof.
  unfold log_both.
  destruct (socket_connected st) eqn:Hc.
  2:{ split; [|split; [|split; [|reflexivity]]].
      - intros fd data [Hin|Hin]; [discriminate|].
        destruct (log_file st); cbn in Hin; [destruct Hin as [Hin|[]]; discriminate|tauto].
      - destruct (log_file st); cbn; lia.
      - exists []. rewrite app_nil_r. split; [reflexivity|constructor]. }
  destruct (negb (strstr (String.substring 0 511 text) "timestamp,UE_ID")
            && (10 <? String.length (String.substring 0 511 text))%nat) eqn:Hcond.
  2:{ split; [|split; [|split; [|reflexivity]]].
      - intros fd data [Hin|Hin]; [discriminate|].
        destruct (log_file st); cbn in Hin; [destruct Hin as [Hin|[]]; discriminate|tauto].
      - destruct (log_file st); cbn; lia.
      - exists []. rewrite app_nil_r. split; [reflexivity|constructor]. }
  apply andb_true_iff in Hcond. destruct Hcond as [Hhdr Hlen].
  apply negb_true_iff in Hhdr. apply Nat.ltb_lt in Hlen.
  pose proof (substring_length_le text 0 511) as Hle.
  unfold send_to_python. rewrite Hc. cbn [negb orb].
  destruct (socket_fd st =? -1) eqn:Hfd.
  { split; [|split; [|split; [|reflexivity]]].
    - intros fd data [Hin|Hin]; [discriminate|]. rewrite app_nil_r in Hin.
      destruct (log_file st); cbn in Hin; [destruct Hin as [Hin|[]]; discriminate|tauto].
    - rewrite app_nil_r. destruct (log_file st); cbn; lia.
    - exists []. split; [reflexivity|constructor]. }
  apply Z.eqb_neq in Hfd.
  assert (Hsend : forall rest,
            Forall (fun c => c = Send (socket_fd st) (String.substring 0 511 text)
                             \/ c = Printf ConnectionLost) rest ->
            forall fd data,
              In (Send fd data)
                 ((Vprintf text :: (if log_file st then [Vfprintf text] else [])) ++ rest) ->
              fd = socket_fd st /\ true = true /\ fd <> -1
              /\ data = String.substring 0 511 text
              /\ (10 < String.length data <= 511)%nat
              /\ strstr data "timestamp,UE_ID" = false).
  { intros rest Hrest fd data Hin. apply in_app_or in Hin. destruct Hin as [Hin|Hin].
    - destruct Hin as [Hin|Hin]; [discriminate|].
      destruct (log_file st); cbn in Hin; [destruct Hin as [Hin|[]]; discriminate|tauto].
    - rewrite Forall_forall in Hrest. apply list_elem_of_In, Hrest in Hin.
      destruct Hin as [Hin|Hin]; [|discriminate].
      injection Hin as -> ->. repeat split; auto; lia. }
  assert (Hcount : forall p (rest : list call), p (Vprintf text) = false ->
            p (Vfprintf text) = false ->
            List.filter p
              ((Vprintf text :: (if log_file st then [Vfprintf text] else [])) ++ rest)
            = List.filter p rest).
  { intros p rest H1 H2. destruct (log_file st); cbn; rewrite H1, ?H2; reflexivity. }
  destruct (send_result =? -1); [destruct errno|].
  all: cbn [with_socket socket_fd].
  all: split; [apply Hsend; repeat first [apply List.Forall_nil | apply List.Forall_cons; [first [left; reflexivity|right; reflexivity]|]]|].
  all: split; [rewrite Hcount by reflexivity; cbn; lia|].
  all: split; [|reflexivity].
  all: eexists; split; [reflexivity|repeat first [apply List.Forall_nil | apply List.Forall_cons; [first [left; reflexivity|right; reflexivity]|]]].
Qed.

End SocketLayer.

Lemma nothing_is_sent_after_connection_loss_example :
  let '(st1, calls) :=
    Sock.send_to_python Sock_aux.connected_io "1000,1,2,20.5" (-1) Sock.EPIPE in
  calls = [Sock.Send (Sock.socket_fd Sock_aux.connected_io) "1000,1,2,20.5";
           Sock.Printf Sock.ConnectionLost]
  /\ List.filter Sock_aux.is_send (snd (Sock_aux.run_ops st1 Sock_aux.example_ops)) = []
  /\ Sock.socket_connected (fst (Sock_aux.run_ops st1 Sock_aux.example_ops)) = false.
Proof.
  apply (nothing_is_sent_after_connection_loss Sock_aux.connected_io "1000,1,2,20.5"
           Sock.EPIPE Sock_aux.example_ops).
  - reflexivity.
  - vm_compute. discriminate.
  - discriminate.
Defined.

Lemma socket_is_closed_at_most_once_example :
  let '(st1, calls) := Sock_aux.step Sock_aux.connected_io (Sock_aux.SignalHandler 2) in
  Sock.socket_fd st1 = -1
  /\ (Sock.socket_fd Sock_aux.connected_io <> -1 -> Sock.socket_connected st1 = false)
  /\ List.filter Sock_aux.is_close calls
     = (if Sock.socket_fd Sock_aux.connected_io =? -1 then []
        else [Sock.Close (Sock.socket_fd Sock_aux.connected_io)])
  /\ List.filter Sock_aux.is_send calls = []
  /\ (Sock_aux.SignalHandler 2 <> Sock_aux.CloseUnixSocket ->
      Sock.monitoring_active st1 = false)
  /\ List.filter Sock_aux.is_send (snd (Sock_aux.run_ops st1 Sock_aux.example_ops)) = []
  /\ List.filter Sock_aux.is_close (snd (Sock_aux.run_ops st1 Sock_aux.example_ops)) = []
  /\ Sock.socket_fd (fst (Sock_aux.run_ops st1 Sock_aux.example_ops)) = -1.
Proof.
  apply (socket_is_closed_at_most_once Sock_aux.connected_io (Sock_aux.SignalHandler 2)
           Sock_aux.example_ops).
  right. exists 2. reflexivity.
Defined.
